(** * Repository automation: label rules, YAML field parsing, stale detection

    A shallow embedding of the JavaScript sources

    - [utils/config.js]        (class [ConfigManager]),
    - [utils/github-client.js] (class [GitHubClient]),
    - [label-automation.js]    (class [LabelAutomation], the array-capable version),
    - [triage-management.js]   (class [RepositoryAutomation]),
    - [stale-detection.js]     (class [StaleDetection]),

    followed by the properties of the release/backport rule, the
    feature-branch rule, the smart pull-request labeling and the stale rule.

    Conventions.  A JavaScript string is the list of its UTF-16 code units
    ([list N]); [null]/[undefined] is [None]; an [async] method is a
    computation in the state-and-exception monad [M]; [console.log] output is
    not part of the model. *)

From Stdlib Require Import List NArith ZArith Lia Bool String Ascii DecimalString.
From stdpp Require Import base option list gmap.
Import ListNotations.
Set Warnings "-register-all".


(** ** JavaScript strings *)

Module Js.

(** A string value: the sequence of its UTF-16 code units. *)
Abbreviation jstr := (list N).

(** A literal whose characters are all ASCII. *)
Definition str (s : string) : jstr :=
  List.map N_of_ascii (list_ascii_of_string s).
Arguments str s%_string : simpl never.

(** The UTF-16 code units of a code point: itself in the basic plane, its
    surrogate pair above. *)
Definition codeUnits (codePoint : N) : jstr :=
  if (codePoint <? 65536)%N then [codePoint]
  else [(55296 + (codePoint - 65536) / 1024)%N; (56320 + (codePoint - 65536) mod 1024)%N].

(** U+274C (cross mark) is one code unit, 274C; U+1F6A8 (police car light)
    is the surrogate pair D83D DEA8, in decimal 55357 and 57000. *)
Definition crossMark : jstr := [10060%N].
Definition policeLight : jstr := [55357%N; 57000%N].

Definition eqb (a b : jstr) : bool := bool_decide (a = b).

(** ECMAScript LineTerminator: LF, CR, LS, PS. *)
Definition isLineTerminator (c : N) : bool :=
  (c =? 10)%N || (c =? 13)%N || (c =? 8232)%N || (c =? 8233)%N.

(** ECMAScript WhiteSpace and LineTerminator together: the class [\s] of a
    regular expression and the characters removed by [String.prototype.trim]. *)
Definition isWhiteSpace (c : N) : bool :=
  (c =? 9)%N || (c =? 10)%N || (c =? 11)%N || (c =? 12)%N || (c =? 13)%N ||
  (c =? 32)%N || (c =? 160)%N || (c =? 5760)%N ||
  ((8192 <=? c)%N && (c <=? 8202)%N) ||
  (c =? 8232)%N || (c =? 8233)%N || (c =? 8239)%N || (c =? 8287)%N ||
  (c =? 12288)%N || (c =? 65279)%N.

Fixpoint dropWhile (p : N -> bool) (s : jstr) : jstr :=
  match s with
  | c :: s' => if p c then dropWhile p s' else s
  | [] => []
  end.

Fixpoint takeWhile (p : N -> bool) (s : jstr) : jstr :=
  match s with
  | c :: s' => if p c then c :: takeWhile p s' else []
  | [] => []
  end.

Definition trimStart (s : jstr) : jstr := dropWhile isWhiteSpace s.
Definition trimEnd (s : jstr) : jstr := rev (dropWhile isWhiteSpace (rev s)).
Definition trim (s : jstr) : jstr := trimEnd (trimStart s).

(** [s.startsWith(p)] *)
Fixpoint startsWith (s p : jstr) {struct p} : bool :=
  match p, s with
  | [], _ => true
  | a :: p', b :: s' => (a =? b)%N && startsWith s' p'
  | _ :: _, [] => false
  end.

(** [s.endsWith(p)] *)
Definition endsWith (s p : jstr) : bool := startsWith (rev s) (rev p).

(** [s.includes(p)] *)
Fixpoint includes (s p : jstr) : bool :=
  startsWith s p ||
  match s with
  | _ :: s' => includes s' p
  | [] => false
  end.

(** [l.join(sep)] on an array of strings *)
Fixpoint join (sep : jstr) (l : list jstr) : jstr :=
  match l with
  | [] => []
  | [x] => x
  | x :: l' => x ++ sep ++ join sep l'
  end.

(** [arr.includes(v)] on an array of strings *)
Definition arrayIncludes (l : list jstr) (v : jstr) : bool :=
  existsb (eqb v) l.

(** [s.toLowerCase()].  The model maps A-Z to a-z and leaves every other code
    unit alone.  ECMAScript also lowers non-ASCII letters; none of them
    lowers to a letter of the words "true" and "false", the only strings a
    lowered value is compared with. *)
Definition lowerChar (c : N) : N :=
  if (65 <=? c)%N && (c <=? 90)%N then (c + 32)%N else c.
Definition toLowerCase (s : jstr) : jstr := List.map lowerChar s.

(** Decimal form of an integer number, as a template literal prints it. *)
Definition ofN (n : N) : jstr := str (NilZero.string_of_uint (N.to_uint n)).
Definition ofZ (z : Z) : jstr :=
  match z with
  | Zneg p => str "-" ++ ofN (Npos p)
  | _ => ofN (Z.to_N z)
  end.

End Js.
Import Js.

(** ** [JSON.parse] and [String(...)]

    The built-ins that [parseYamlArrayValue] calls.  The grammar is the JSON
    grammar of ECMA-404 / ECMAScript; a number keeps its literal. *)

Module Json.

Inductive value :=
| JNull
| JBool (b : bool)
| JNumber (literal : jstr)
| JString (s : jstr)
| JArray (items : list value)
| JObject (members : list (jstr * value)).

(** JSON whitespace: tab, line feed, carriage return, space. *)
Definition isWs (c : N) : bool :=
  (c =? 9)%N || (c =? 10)%N || (c =? 13)%N || (c =? 32)%N.
Definition skipWs (s : jstr) : jstr := dropWhile isWs s.

Definition isDigit (c : N) : bool := (48 <=? c)%N && (c <=? 57)%N.

Definition hexDigit (c : N) : option N :=
  if isDigit c then Some (c - 48)%N
  else if (97 <=? c)%N && (c <=? 102)%N then Some (c - 87)%N
  else if (65 <=? c)%N && (c <=? 70)%N then Some (c - 55)%N
  else None.

(** The character an escape [\c] stands for ([\u] is handled apart). *)
Definition simpleEscape (c : N) : option N :=
  if (c =? 34)%N then Some 34%N        (* quotation mark *)
  else if (c =? 92)%N then Some 92%N   (* reverse solidus *)
  else if (c =? 47)%N then Some 47%N   (* solidus *)
  else if (c =? 98)%N then Some 8%N    (* b: backspace *)
  else if (c =? 102)%N then Some 12%N  (* f: form feed *)
  else if (c =? 110)%N then Some 10%N  (* n: line feed *)
  else if (c =? 114)%N then Some 13%N  (* r: carriage return *)
  else if (c =? 116)%N then Some 9%N   (* t: tab *)
  else None.

(** The characters of a string after its opening quote, up to and including
    the closing quote: the string's value and the text left. *)
Fixpoint parseStringBody (s : jstr) : option (jstr * jstr) :=
  match s with
  | [] => None
  | c :: s1 =>
    if (c =? 34)%N then Some ([], s1)
    else if (c =? 92)%N then
      match s1 with
      | [] => None
      | e :: s2 =>
        if (e =? 117)%N then
          match s2 with
          | h1 :: h2 :: h3 :: h4 :: s6 =>
            match hexDigit h1, hexDigit h2, hexDigit h3, hexDigit h4 with
            | Some d1, Some d2, Some d3, Some d4 =>
              match parseStringBody s6 with
              | Some (v, r) => Some ((d1 * 4096 + d2 * 256 + d3 * 16 + d4)%N :: v, r)
              | None => None
              end
            | _, _, _, _ => None
            end
          | _ => None
          end
        else
          match simpleEscape e with
          | Some x =>
            match parseStringBody s2 with
            | Some (v, r) => Some (x :: v, r)
            | None => None
            end
          | None => None
          end
      end
    else if (c <? 32)%N then None
    else
      match parseStringBody s1 with
      | Some (v, r) => Some (c :: v, r)
      | None => None
      end
  end.

(** One or more digits. *)
Definition digits1 (s : jstr) : option (jstr * jstr) :=
  match takeWhile isDigit s with
  | [] => None
  | ds => Some (ds, dropWhile isDigit s)
  end.

(** A JSON number: an optional minus sign, an integer part (a single 0, or a
    non-zero digit and more digits), an optional fraction (a dot and digits)
    and an optional exponent (e or E, an optional sign, digits): the literal
    and the text left. *)
Definition parseNumber (s : jstr) : option (jstr * jstr) :=
  let (sign, s1) :=
    match s with
    | 45%N :: r => ([45%N], r)
    | _ => ([], s)
    end in
  match
    match s1 with
    | 48%N :: r => Some ([48%N], r)
    | _ => digits1 s1
    end
  with
  | None => None
  | Some (int, s2) =>
    match
      match s2 with
      | 46%N :: r =>
        match digits1 r with
        | Some (ds, r') => Some (46%N :: ds, r')
        | None => None
        end
      | _ => Some ([], s2)
      end
    with
    | None => None
    | Some (frac, s3) =>
      match
        match s3 with
        | e :: r =>
          if (e =? 101)%N || (e =? 69)%N then
            let (esign, r1) :=
              match r with
              | c :: r' => if (c =? 43)%N || (c =? 45)%N then ([c], r') else ([], r)
              | [] => ([], r)
              end in
            match digits1 r1 with
            | Some (ds, r2) => Some (e :: esign ++ ds, r2)
            | None => None
            end
          else Some ([], s3)
        | [] => Some ([], s3)
        end
      with
      | None => None
      | Some (ex, s4) => Some (sign ++ int ++ frac ++ ex, s4)
      end
    end
  end.

(** The character [c] after optional whitespace: the text after it. *)
Definition expect (c : N) (s : jstr) : option jstr :=
  match skipWs s with
  | d :: r => if (d =? c)%N then Some r else None
  | [] => None
  end.

(** Recursive descent with a step budget: [parseValue] reads one value after
    optional whitespace, [parseElements] the elements of an array after its
    opening bracket (at least one) and the closing bracket, [parseMembers]
    the members of an object after its opening brace (at least one) and the
    closing brace. *)
Fixpoint parseValue (fuel : nat) (s : jstr) {struct fuel} : option (value * jstr) :=
  match fuel with
  | O => None
  | S n =>
    match skipWs s with
    | [] => None
    | c :: r =>
      if (c =? 34)%N then
        match parseStringBody r with
        | Some (v, r') => Some (JString v, r')
        | None => None
        end
      else if (c =? 91)%N then
        match expect 93 r with
        | Some r' => Some (JArray [], r')
        | None =>
          match parseElements n r with
          | Some (vs, r') => Some (JArray vs, r')
          | None => None
          end
        end
      else if (c =? 123)%N then
        match expect 125 r with
        | Some r' => Some (JObject [], r')
        | None =>
          match parseMembers n r with
          | Some (ms, r') => Some (JObject ms, r')
          | None => None
          end
        end
      else if startsWith (c :: r) (str "true") then Some (JBool true, skipn 4 (c :: r))
      else if startsWith (c :: r) (str "false") then Some (JBool false, skipn 5 (c :: r))
      else if startsWith (c :: r) (str "null") then Some (JNull, skipn 4 (c :: r))
      else
        match parseNumber (c :: r) with
        | Some (lit, r') => Some (JNumber lit, r')
        | None => None
        end
    end
  end
with parseElements (fuel : nat) (s : jstr) {struct fuel} : option (list value * jstr) :=
  match fuel with
  | O => None
  | S n =>
    match parseValue n s with
    | None => None
    | Some (v, r) =>
      match expect 93 r with
      | Some r' => Some ([v], r')
      | None =>
        match expect 44 r with
        | Some r' =>
          match parseElements n r' with
          | Some (vs, r'') => Some (v :: vs, r'')
          | None => None
          end
        | None => None
        end
      end
    end
  end
with parseMembers (fuel : nat) (s : jstr) {struct fuel} : option (list (jstr * value) * jstr) :=
  match fuel with
  | O => None
  | S n =>
    match expect 34 s with
    | None => None
    | Some r =>
      match parseStringBody r with
      | None => None
      | Some (k, r1) =>
        match expect 58 r1 with
        | None => None
        | Some r2 =>
          match parseValue n r2 with
          | None => None
          | Some (v, r3) =>
            match expect 125 r3 with
            | Some r4 => Some ([(k, v)], r4)
            | None =>
              match expect 44 r3 with
              | Some r4 =>
                match parseMembers n r4 with
                | Some (ms, r5) => Some ((k, v) :: ms, r5)
                | None => None
                end
              | None => None
              end
            end
          end
        end
      end
    end
  end.

(** [JSON.parse(text)]; [None] is the [SyntaxError] it throws.  A call of
    [parseValue], [parseElements] or [parseMembers] that goes one level down
    has read at least one more character every second level, so twice the
    length of the text bounds the depth (lemma [parse_fuel_enough]). *)
Definition parse (text : jstr) : option value :=
  match parseValue (2 * length text + 2) text with
  | Some (v, r) =>
    match skipWs r with
    | [] => Some v
    | _ :: _ => None
    end
  | None => None
  end.

Definition hasKey (k : jstr) (ms : list (jstr * value)) : bool :=
  existsb (fun m => eqb k (fst m)) ms.

Section ToString.

(** The string ECMAScript's [Number::toString] gives for the double nearest
    to a JSON number literal.  Floating point arithmetic is outside the
    model: the conversion is a parameter of the development. *)
Variable Number_toString : jstr -> jstr.

(** [String(v)] for a value built by [JSON.parse]; [None] is the [TypeError]
    of [OrdinaryToPrimitive].  An array prints as its elements joined by
    commas, [null] elements as the empty string; an object prints as
    [[object Object]] unless it has an own member "toString" (a JSON value is
    never callable, and [Object.prototype.valueOf] returns the object). *)
Fixpoint toString (v : value) : option jstr :=
  match v with
  | JNull => Some (str "null")
  | JBool true => Some (str "true")
  | JBool false => Some (str "false")
  | JNumber lit => Some (Number_toString lit)
  | JString s => Some s
  | JArray items =>
    (fix joinItems (l : list value) : option jstr :=
       match l with
       | [] => Some []
       | x :: l' =>
         match (match x with JNull => Some [] | _ => toString x end) with
         | None => None
         | Some sx =>
           match l' with
           | [] => Some sx
           | _ :: _ =>
             match joinItems l' with
             | Some rest => Some (sx ++ str "," ++ rest)
             | None => None
             end
           end
         end
       end) items
  | JObject ms =>
    if hasKey (str "toString") ms then None else Some (str "[object Object]")
  end.

End ToString.

End Json.

(** ** [utils/config.js]: class [ConfigManager] *)

(** The options object, with the fields the modelled methods read.
    [dryRun] and [enableFeatureBranch] hold whether the option is exactly
    [true]; an absent option is [None]. *)
Record Options := {
  dryRun : bool;
  githubToken : option jstr;
  acceptedReleases : option (list jstr);
  acceptedBackports : option (list jstr);
  enableFeatureBranch : bool;
  staleDays : option Z
}.

(** A [ConfigManager]: the repository identity and run id taken from the
    event context, and the options. *)
Record ConfigManager := {
  owner : jstr;
  repo : jstr;
  runId : N;
  options : Options
}.

Definition isDryRun (cfg : ConfigManager) : bool := dryRun (options cfg).

(** [this.options.acceptedReleases || []] *)
Definition getAcceptedReleases (cfg : ConfigManager) : list jstr :=
  default [] (acceptedReleases (options cfg)).

Definition getAcceptedBackports (cfg : ConfigManager) : list jstr :=
  default [] (acceptedBackports (options cfg)).

Definition getStaleDays (cfg : ConfigManager) : option Z := staleDays (options cfg).

(** What [parseYamlValue] returns when it does not return [null]: a string,
    or an array of strings. *)
Inductive YamlValue :=
| Scalar (v : jstr)
| ArrayOf (vs : list jstr).

(** [Array.isArray(value)] *)
Definition isArray (v : YamlValue) : bool :=
  match v with ArrayOf _ => true | Scalar _ => false end.

(** What [validateReleaseValue] returns: a boolean for a single value, an
    array of [{ value, valid }] for an array. *)
Inductive Validation :=
| ValidOne (valid : bool)
| ValidEach (items : list (jstr * bool)).

Definition validateAgainst (accepted : list jstr) (value : YamlValue) : Validation :=
  match value with
  | ArrayOf vs => ValidEach (List.map (fun v => (v, arrayIncludes accepted v)) vs)
  | Scalar v => ValidOne (arrayIncludes accepted v)
  end.

Definition validateReleaseValue (cfg : ConfigManager) (value : YamlValue) : Validation :=
  validateAgainst (getAcceptedReleases cfg) value.

Definition validateBackportValue (cfg : ConfigManager) (value : YamlValue) : Validation :=
  validateAgainst (getAcceptedBackports cfg) value.

(** An element of the array [getValidValues] returns: a value of the
    validated array, or the boolean [true] itself when the argument is not an
    array. *)
Inductive Prim :=
| PStr (s : jstr)
| PBool (b : bool).

(** How a template literal prints it. *)
Definition primToString (p : Prim) : jstr :=
  match p with
  | PStr s => s
  | PBool true => str "true"
  | PBool false => str "false"
  end.

Definition getInvalidValues (r : Validation) : list jstr :=
  match r with
  | ValidEach items => List.map fst (List.filter (fun item => negb (snd item)) items)
  | ValidOne _ => []
  end.

Definition getValidValues (r : Validation) : list Prim :=
  match r with
  | ValidEach items => List.map (fun item => PStr (fst item)) (List.filter snd items)
  | ValidOne b => if b then [PBool b] else []
  end.

(** *** [parseYamlFromText]

    The regular expression is: three backquotes, [yaml], whitespace (greedy),
    a line feed, a lazy capture of any characters, a line feed, whitespace,
    three backquotes. *)

Definition fence : jstr := str "```".
Definition fenceYaml : jstr := str "```yaml".

(** The closing part at the head of [r]: a line feed, whitespace, the fence.
    The fence is no whitespace, so the greedy whitespace run never has to
    give characters back. *)
Definition closesHere (r : jstr) : bool :=
  match r with
  | c :: r' => (c =? 10)%N && startsWith (dropWhile isWhiteSpace r') fence
  | [] => false
  end.

(** The lazy capture group followed by the closing part: the shortest
    capture first. *)
Fixpoint lazyCapture (r : jstr) : option jstr :=
  if closesHere r then Some []
  else
    match r with
    | c :: r' =>
      match lazyCapture r' with
      | Some cap => Some (c :: cap)
      | None => None
      end
    | [] => None
    end.

(** The text after the opening fence: greedy whitespace followed by a line
    feed, then the capture.  The longest whitespace run is tried first; when
    the rest fails, the run gives back one character at a time. *)
Fixpoint openCapture (r : jstr) : option jstr :=
  match r with
  | c :: r' =>
    if isWhiteSpace c then
      match openCapture r' with
      | Some cap => Some cap
      | None => if (c =? 10)%N then lazyCapture r' else None
      end
    else None
  | [] => None
  end.

(** The first match of the expression, scanning the start positions from the
    left: its capture group. *)
Fixpoint firstYamlBlock (text : jstr) : option jstr :=
  match (if startsWith text fenceYaml then openCapture (skipn 7 text) else None) with
  | Some cap => Some cap
  | None =>
    match text with
    | _ :: text' => firstYamlBlock text'
    | [] => None
    end
  end.

(** [parseYamlFromText(text)]: the capture of the first match ([matches[0]]),
    or [null]. *)
Definition parseYamlFromText (text : jstr) : option jstr :=
  match text with
  | [] => None
  | _ :: _ => firstYamlBlock text
  end.

(** *** [parseYamlValue] *)

(** The field names the callers pass.  The name is spliced into the source of
    the regular expression; none of these contains a character that is special
    there. *)
Inductive Field := Release | Backport | NeedsFeatureBranch.

Definition fieldName (f : Field) : jstr :=
  match f with
  | Release => str "release"
  | Backport => str "backport"
  | NeedsFeatureBranch => str "needs_feature_branch"
  end.

Definition notLineTerminator (c : N) : bool := negb (isLineTerminator c).

(** After [field:] the expression goes on with greedy whitespace, a capture
    of one or more characters other than line terminators (greedy), and the
    end of a line.  The whitespace class contains the line terminators, so the
    run can cross lines; the longest run is tried first. *)
Fixpoint valueCapture (s : jstr) : option jstr :=
  match s with
  | [] => None
  | c :: s' =>
    if isWhiteSpace c then
      match valueCapture s' with
      | Some v => Some v
      | None => if isLineTerminator c then None else Some (takeWhile notLineTerminator s)
      end
    else Some (takeWhile notLineTerminator s)
  end.

(** The first match in multiline mode: the start positions are the start of
    the text and the positions after a line terminator. *)
Fixpoint matchField (lineStart : bool) (name : jstr) (text : jstr) : option jstr :=
  match
    (if lineStart && startsWith text (name ++ str ":")
     then valueCapture (skipn (length name + 1) text) else None)
  with
  | Some v => Some v
  | None =>
    match text with
    | c :: text' => matchField (isLineTerminator c) name text'
    | [] => None
    end
  end.

(** [.replace(/#.*$/, '')]: without the multiline flag the end is the end of
    the text, and the dot matches no line terminator. *)
Fixpoint stripComment (s : jstr) : jstr :=
  match s with
  | [] => []
  | c :: s' =>
    if (c =? 35)%N && forallb notLineTerminator s' then []
    else c :: stripComment s'
  end.

(** The constant [rawValue] of [parseYamlValue]: [None] when the expression
    does not match. *)
Definition rawValueOf (yamlContent : jstr) (field : Field) : option jstr :=
  match matchField true (fieldName field) yamlContent with
  | Some m => Some (trim (stripComment (trim m)))
  | None => None
  end.

Definition isQuote (c : N) : bool := (c =? 34)%N || (c =? 39)%N.

(** The alternative of the quote expression that is anchored at the end. *)
Definition dropLastQuote (s : jstr) : jstr :=
  match rev s with
  | c :: r => if isQuote c then rev r else s
  | [] => s
  end.

(** [.replace(/^["']|["']$/g, '')]: a quote at the start goes, and a quote at
    the end (of what follows the first character) goes. *)
Definition stripQuotes (s : jstr) : jstr :=
  match s with
  | c :: s' => if isQuote c then dropLastQuote s' else c :: dropLastQuote s'
  | [] => []
  end.

(** The quote normalisation of [parseYamlArrayValue]: every single quote that
    has a later single quote opens a pair, and both become double quotes. *)
Fixpoint normalizeQuotes (inside : bool) (s : jstr) : jstr :=
  match s with
  | [] => []
  | c :: s' =>
    if (c =? 39)%N then
      if inside then 34%N :: normalizeQuotes false s'
      else if existsb (N.eqb 39) s' then 34%N :: normalizeQuotes true s'
      else c :: normalizeQuotes false s'
    else c :: normalizeQuotes inside s'
  end.

(** [l.map(f)] where [f] can throw. *)
Fixpoint mapM {A B} (f : A -> option B) (l : list A) : option (list B) :=
  match l with
  | [] => Some []
  | x :: l' =>
    match f x with
    | Some y =>
      match mapM f l' with
      | Some ys => Some (y :: ys)
      | None => None
      end
    | None => None
    end
  end.

(** ** The repository seen through the REST API

    Modelled from the spec: the REST service of the hosting platform (the
    [github.rest] object that [GitHubClient] calls), which is not part of the
    sources.  The model keeps the state the modelled methods read or change
    (labels and activity of every issue or pull request, issue comments,
    check runs, a clock) and a script of faults: each REST call takes the
    next entry of the script and, when it holds an error, throws it instead
    of acting.  An empty script means every call is answered.  A list
    endpoint answers with the complete list (paging is not modelled), and the
    labels of an issue are a set. *)

(** A thrown value: [error.status] and [error.message]. *)
Record Exn := {
  exn_status : option N;
  exn_message : jstr
}.

(** [new Error(message)] *)
Definition mkError (message : jstr) : Exn :=
  {| exn_status := None; exn_message := message |}.

(** An error response of the REST service. *)
Definition httpError (status : N) (message : jstr) : Exn :=
  {| exn_status := Some status; exn_message := message |}.

Definition notFound : Exn := httpError 404 (str "Not Found").

(** An issue or pull request: its labels, and what the activity endpoints
    report, every date in milliseconds since the epoch.  A commit without
    [commit.committer.date] and a review without [submitted_at] are [None]. *)
Record Issue := {
  issue_labels : list jstr;
  updated_at : Z;
  created_at : Z;
  commit_dates : list (option Z);
  review_comment_dates : list Z;
  review_dates : list (option Z);
  timeline : list (jstr * Z)
}.

Record Comment := {
  comment_id : N;
  comment_issue : N;
  comment_body : jstr;
  comment_created_at : Z
}.

Record CheckOutput := {
  out_title : jstr;
  out_summary : jstr;
  out_text : jstr
}.

Record CheckRun := {
  check_id : N;
  check_name : jstr;
  check_head_sha : jstr;
  check_details_url : jstr;
  check_status : jstr;
  check_conclusion : option jstr;
  check_output : option CheckOutput
}.

Record World := {
  issues : gmap N Issue;
  comments : list Comment;
  checks : list CheckRun;
  nextId : N;
  clock : Z;
  faults : list (option Exn)
}.

Definition setLabels (l : list jstr) (i : Issue) : Issue :=
  {| issue_labels := l; updated_at := updated_at i; created_at := created_at i;
     commit_dates := commit_dates i; review_comment_dates := review_comment_dates i;
     review_dates := review_dates i; timeline := timeline i |}.

Definition setIssues (m : gmap N Issue) (w : World) : World :=
  {| issues := m; comments := comments w; checks := checks w;
     nextId := nextId w; clock := clock w; faults := faults w |}.

Definition setComments (cs : list Comment) (w : World) : World :=
  {| issues := issues w; comments := cs; checks := checks w;
     nextId := nextId w; clock := clock w; faults := faults w |}.

Definition setChecks (cs : list CheckRun) (w : World) : World :=
  {| issues := issues w; comments := comments w; checks := cs;
     nextId := nextId w; clock := clock w; faults := faults w |}.

Definition setNextId (n : N) (w : World) : World :=
  {| issues := issues w; comments := comments w; checks := checks w;
     nextId := n; clock := clock w; faults := faults w |}.

Definition setClock (t : Z) (w : World) : World :=
  {| issues := issues w; comments := comments w; checks := checks w;
     nextId := nextId w; clock := t; faults := faults w |}.

Definition setFaults (fs : list (option Exn)) (w : World) : World :=
  {| issues := issues w; comments := comments w; checks := checks w;
     nextId := nextId w; clock := clock w; faults := fs |}.

(** The [result] object of an automation class.  The three classes keep
    different fields; the record has their union ([summary] is used by
    [RepositoryAutomation], [stalePRsFound] by [StaleDetection]). *)
Record Result := {
  labelsAdded : list jstr;
  actions : list jstr;
  summary : jstr;
  stalePRsFound : N
}.

Definition emptyResult : Result :=
  {| labelsAdded := []; actions := []; summary := []; stalePRsFound := 0 |}.

Record State := {
  world : World;
  result : Result
}.

Definition setWorld (w : World) (s : State) : State :=
  {| world := w; result := result s |}.

Definition setResult (r : Result) (s : State) : State :=
  {| world := world s; result := r |}.

(** ** Computations: state and exceptions *)

Inductive Outcome (A : Type) :=
| Ok (a : A)
| Throw (e : Exn).
Arguments Ok {A} a.
Arguments Throw {A} e.

Definition M (A : Type) : Type := State -> Outcome A * State.

Definition ret {A} (a : A) : M A := fun s => (Ok a, s).

Definition bind {A B} (m : M A) (f : A -> M B) : M B :=
  fun s =>
    match m s with
    | (Ok a, s') => f a s'
    | (Throw e, s') => (Throw e, s')
    end.

Definition throw {A} (e : Exn) : M A := fun s => (Throw e, s).

(** [try { m } catch (e) { h e }]: what [m] did to the state before it
    threw stays done. *)
Definition tryCatch {A} (m : M A) (h : Exn -> M A) : M A :=
  fun s =>
    match m s with
    | (Ok a, s') => (Ok a, s')
    | (Throw e, s') => h e s'
    end.

Declare Scope js_scope.
Delimit Scope js_scope with js.
Notation "'let*' x := m 'in' k" := (bind m (fun x => k))
  (at level 10, x name, m at level 100, k at level 200) : js_scope.
Notation "m >> k" := (bind m (fun _ => k))
  (at level 90, right associativity) : js_scope.
Open Scope js_scope.

(** [for (const x of l) { await f(x) }] *)
Fixpoint forEachM {A} (f : A -> M unit) (l : list A) : M unit :=
  match l with
  | [] => ret tt
  | x :: l' => f x >> forEachM f l'
  end.

(** One call of the REST service. *)
Definition rest {A} (call : World -> Outcome A * World) : M A :=
  fun s =>
    match faults (world s) with
    | Some e :: fs => (Throw e, setWorld (setFaults fs (world s)) s)
    | None :: fs =>
      let (o, w) := call (setFaults fs (world s)) in (o, setWorld w s)
    | [] =>
      let (o, w) := call (world s) in (o, setWorld w s)
    end.

Definition modifyResult (f : Result -> Result) : M unit :=
  fun s => (Ok tt, setResult (f (result s)) s).

(** [this.result.labelsAdded.push(...labels)] *)
Definition pushLabelsAdded (labels : list jstr) : M unit :=
  modifyResult (fun r =>
    {| labelsAdded := labelsAdded r ++ labels; actions := actions r;
       summary := summary r; stalePRsFound := stalePRsFound r |}).

(** [this.result.actions.push(action)] *)
Definition pushAction (action : jstr) : M unit :=
  modifyResult (fun r =>
    {| labelsAdded := labelsAdded r; actions := actions r ++ [action];
       summary := summary r; stalePRsFound := stalePRsFound r |}).

(** [this.result.summary = text] *)
Definition setSummary (text : jstr) : M unit :=
  modifyResult (fun r =>
    {| labelsAdded := labelsAdded r; actions := actions r;
       summary := text; stalePRsFound := stalePRsFound r |}).

(** [this.result.stalePRsFound++] *)
Definition countStalePR : M unit :=
  modifyResult (fun r =>
    {| labelsAdded := labelsAdded r; actions := actions r;
       summary := summary r; stalePRsFound := (stalePRsFound r + 1)%N |}).

(** *** The endpoints *)

Module Rest.

(** [issues.addLabels]: the labels of an issue are a set; the new ones go
    after the ones it has. *)
Fixpoint addNew (have new : list jstr) : list jstr :=
  match new with
  | [] => have
  | l :: new' => addNew (if arrayIncludes have l then have else have ++ [l]) new'
  end.

Definition addLabels (issueNumber : N) (labels : list jstr) (w : World)
  : Outcome unit * World :=
  match issues w !! issueNumber with
  | Some i =>
    (Ok tt, setIssues (<[issueNumber := setLabels (addNew (issue_labels i) labels) i]> (issues w)) w)
  | None => (Throw notFound, w)
  end.

Definition listLabelsOnIssue (issueNumber : N) (w : World)
  : Outcome (list jstr) * World :=
  match issues w !! issueNumber with
  | Some i => (Ok (issue_labels i), w)
  | None => (Throw notFound, w)
  end.

(** [pulls.get]: the fields of the answer that are read. *)
Definition pullsGet (pullNumber : N) (w : World) : Outcome Issue * World :=
  match issues w !! pullNumber with
  | Some i => (Ok i, w)
  | None => (Throw notFound, w)
  end.

Definition createComment (issueNumber : N) (body : jstr) (w : World)
  : Outcome unit * World :=
  match issues w !! issueNumber with
  | Some _ =>
    (Ok tt,
     setNextId (nextId w + 1)%N
       (setComments
          (comments w ++
           [{| comment_id := nextId w; comment_issue := issueNumber;
               comment_body := body; comment_created_at := clock w |}]) w))
  | None => (Throw notFound, w)
  end.

Definition listComments (issueNumber : N) (w : World)
  : Outcome (list Comment) * World :=
  match issues w !! issueNumber with
  | Some _ =>
    (Ok (List.filter (fun c => (comment_issue c =? issueNumber)%N) (comments w)), w)
  | None => (Throw notFound, w)
  end.

Definition deleteComment (commentId : N) (w : World) : Outcome unit * World :=
  if existsb (fun c => (comment_id c =? commentId)%N) (comments w)
  then (Ok tt,
        setComments (List.filter (fun c => negb (comment_id c =? commentId)%N) (comments w)) w)
  else (Throw notFound, w).

(** [checks.create] with status [in_progress]: the id of the new check run. *)
Definition checksCreate (name headSha detailsUrl : jstr) (w : World)
  : Outcome N * World :=
  (Ok (nextId w),
   setNextId (nextId w + 1)%N
     (setChecks
        (checks w ++
         [{| check_id := nextId w; check_name := name; check_head_sha := headSha;
             check_details_url := detailsUrl; check_status := str "in_progress";
             check_conclusion := None; check_output := None |}]) w)).

Definition updateCheck (st concl : jstr) (output : CheckOutput) (c : CheckRun) : CheckRun :=
  {| check_id := check_id c; check_name := check_name c;
     check_head_sha := check_head_sha c; check_details_url := check_details_url c;
     check_status := st; check_conclusion := Some concl;
     check_output := Some output |}.

Definition checksUpdate (checkRunId : N) (st concl : jstr) (output : CheckOutput)
  (w : World) : Outcome unit * World :=
  if existsb (fun c => (check_id c =? checkRunId)%N) (checks w)
  then (Ok tt,
        setChecks
          (List.map (fun c => if (check_id c =? checkRunId)%N
                              then updateCheck st concl output c else c)
             (checks w)) w)
  else (Throw notFound, w).

Definition listCommits (pullNumber : N) (w : World) : Outcome (list (option Z)) * World :=
  match issues w !! pullNumber with
  | Some i => (Ok (commit_dates i), w)
  | None => (Throw notFound, w)
  end.

Definition listReviewComments (pullNumber : N) (w : World) : Outcome (list Z) * World :=
  match issues w !! pullNumber with
  | Some i => (Ok (review_comment_dates i), w)
  | None => (Throw notFound, w)
  end.

Definition listReviews (pullNumber : N) (w : World) : Outcome (list (option Z)) * World :=
  match issues w !! pullNumber with
  | Some i => (Ok (review_dates i), w)
  | None => (Throw notFound, w)
  end.

Definition listEventsForTimeline (issueNumber : N) (w : World)
  : Outcome (list (jstr * Z)) * World :=
  match issues w !! issueNumber with
  | Some i => (Ok (timeline i), w)
  | None => (Throw notFound, w)
  end.

End Rest.

(** The double quote character. *)
Definition dquote : jstr := [34%N].
(** The line feed of a string literal. *)
Definition lf : jstr := [10%N].
(** The backquote character. *)
Definition backquote : jstr := [96%N].

(** ** Objects passed between the classes *)

(** The [added] and [skipped] fields of what [addLabels] returns; [skipped]
    is [false] ([None]) or an array. *)
Record AddResult := {
  added : list jstr;
  skipped : option (list jstr)
}.

(** The id in [checkRun.data.id]: a number, or the string of a dry run. *)
Inductive CheckId :=
| DryRunCheckId
| CheckNumber (id : N).

(** The fields of a pull request object that are read. *)
Record PullRequest := {
  number : N;
  title : jstr;
  body : option jstr;
  draft : bool;
  head_sha : jstr;
  pr_state : jstr;
  pr_labels : list jstr
}.

(** The [features] object of the orchestrator. *)
Record Features := {
  releaseLabeling : bool;
  backportLabeling : bool;
  featureBranch : bool;
  staleDetection : bool
}.

(** What [processReleaseLabel] and [processBackportLabel] return. *)
Record LabelResult := {
  labels : list jstr;
  error : option jstr
}.

Definition noLabel : LabelResult := {| labels := []; error := None |}.

(** ** The event and the rest of [ConfigManager] *)

(** The fields of [context.payload.workflow_run] that are read. *)
Record WorkflowRun := {
  wr_conclusion : jstr;
  wr_head_branch : option jstr
}.

(** The fields of the [context] object that are read.  A payload field is
    read only under the event name that carries it. *)
Record Context := {
  eventName : jstr;
  payload_action : jstr;
  issue_number : N;
  payload_pull_request : PullRequest;
  payload_workflow_run : WorkflowRun
}.

Definition getGithubToken (cfg : ConfigManager) : option jstr := githubToken (options cfg).

Definition isFeatureBranchEnabled (cfg : ConfigManager) : bool :=
  enableFeatureBranch (options cfg).

Definition isReleaseLabelingEnabled (cfg : ConfigManager) : bool :=
  (0 <? length (getAcceptedReleases cfg))%nat.

Definition isBackportLabelingEnabled (cfg : ConfigManager) : bool :=
  (0 <? length (getAcceptedBackports cfg))%nat.

(** A number read as a condition: zero is false. *)
Definition truthyDays (d : option Z) : bool :=
  match d with
  | Some d => negb (d =? 0)%Z
  | None => false
  end.

(** A string read as a condition: the empty string is false. *)
Definition truthyString (s : option jstr) : bool :=
  match s with
  | Some (_ :: _) => true
  | _ => false
  end.

Definition isStaleDetectionEnabled (cfg : ConfigManager) (context : Context) : bool :=
  truthyDays (getStaleDays cfg) || eqb (eventName context) (str "schedule").

(** [validate()]: [Throw] is the error thrown, [Ok true] the value returned. *)
Definition validate (cfg : ConfigManager) (context : Context) : Outcome bool :=
  if negb (truthyString (Some (owner cfg))) || negb (truthyString (Some (repo cfg))) then
    Throw (mkError (str "Repository owner and name are required"))
  else if negb (truthyString (getGithubToken cfg)) then
    Throw (mkError (str "GitHub token is required"))
  else if isStaleDetectionEnabled cfg context && truthyDays (getStaleDays cfg) &&
          match getStaleDays cfg with Some d => (d <? 1)%Z | None => false end then
    Throw (mkError (str "Stale detection days must be 1 or greater"))
  else Ok true.

(** [detectEnabledFeatures()]; the entry [triage], which is always [true],
    is left out. *)
Definition detectEnabledFeatures (cfg : ConfigManager) (context : Context) : Features :=
  let options := options cfg in
  {| releaseLabeling :=
       match acceptedReleases options with
       | Some l => (0 <? length l)%nat
       | None => false
       end;
     backportLabeling :=
       match acceptedBackports options with
       | Some l => (0 <? length l)%nat
       | None => false
       end;
     featureBranch := enableFeatureBranch options;
     staleDetection :=
       truthyDays (staleDays options) || eqb (eventName context) (str "schedule") |}.

(** Modelled from the spec: the endpoint [pulls.list] of the REST service.
    The world keeps no pull request objects, so what the endpoint answers is
    given from outside: the open pull requests, and the pull requests of a
    head branch, most recently updated first. *)
Record Pulls := {
  openPulls : list PullRequest;
  pullsOfBranch : jstr -> list PullRequest
}.

Definition pullsList (answer : list PullRequest) (w : World)
  : Outcome (list PullRequest) * World :=
  (Ok answer, w).


(** ** The variants without arrays

    The sources hold a second [config.js] and a second [label-automation.js]
    that know single values only; their labels are [release ] and
    [backport ] followed by the value, with a space. *)

Module Legacy.

(** [parseYamlValue(yamlContent, field)]: the quotes are stripped before the
    test for an empty value. *)
Definition parseYamlValue (yamlContent : jstr) (field : Field) : option jstr :=
  match yamlContent with
  | [] => None
  | _ :: _ =>
    match matchField true (fieldName field) yamlContent with
    | None => None
    | Some m =>
      let rawValue := stripQuotes (trim (stripComment (trim m))) in
      match rawValue with
      | [] => None
      | _ :: _ => Some rawValue
      end
    end
  end.

Definition validateReleaseValue (cfg : ConfigManager) (value : jstr) : bool :=
  arrayIncludes (getAcceptedReleases cfg) value.

Definition validateBackportValue (cfg : ConfigManager) (value : jstr) : bool :=
  arrayIncludes (getAcceptedBackports cfg) value.

(** What [processReleaseLabel] and [processBackportLabel] return. *)
Record LabelResult := {
  label : option jstr;
  error : option jstr
}.

Definition processReleaseLabel (cfg : ConfigManager) (yamlContent : jstr)
  (hasExistingLabel : bool) : LabelResult :=
  match parseYamlValue yamlContent Release with
  | None => {| label := None; error := None |}
  | Some releaseValue =>
    if hasExistingLabel then {| label := None; error := None |}
    else if validateReleaseValue cfg releaseValue then
      {| label := Some (str "release " ++ releaseValue); error := None |}
    else
      let acceptedReleases := getAcceptedReleases cfg in
      {| label := None;
         error := Some (crossMark ++ str " Invalid release value: " ++
                        dquote ++ releaseValue ++ dquote ++
                        str ". Accepted values: " ++ join (str ", ") acceptedReleases) |}
  end.

Definition processBackportLabel (cfg : ConfigManager) (yamlContent : jstr)
  (hasExistingLabel : bool) : LabelResult :=
  match parseYamlValue yamlContent Backport with
  | None => {| label := None; error := None |}
  | Some backportValue =>
    if hasExistingLabel then {| label := None; error := None |}
    else if validateBackportValue cfg backportValue then
      {| label := Some (str "backport " ++ backportValue); error := None |}
    else
      let acceptedBackports := getAcceptedBackports cfg in
      {| label := None;
         error := Some (crossMark ++ str " Invalid backport value: " ++
                        dquote ++ backportValue ++ dquote ++
                        str ". Accepted values: " ++ join (str ", ") acceptedBackports) |}
  end.

End Legacy.


(** ** Sample data

    A repository with one pull request, number 7, used to run the model on
    concrete inputs. *)

Module Sample.

(** A number conversion that prints the literal as it is written; it agrees
    with [Number::toString] on literals such as 2 and 1.5. *)
Definition numberAsWritten (literal : jstr) : jstr := literal.

Definition opts : Options :=
  {| dryRun := false;
     githubToken := Some (str "token");
     acceptedReleases := Some [str "1.5"; str "1.6"];
     acceptedBackports := Some [str "1.4"];
     enableFeatureBranch := true;
     staleDays := Some 2%Z |}.

Definition cfg : ConfigManager :=
  {| owner := str "acme"; repo := str "widgets"; runId := 42; options := opts |}.

(** The same configuration with release 1.6 as the only accepted release. *)
Definition cfgOnly16 : ConfigManager :=
  {| owner := str "acme"; repo := str "widgets"; runId := 42;
     options :=
       {| dryRun := false;
          githubToken := Some (str "token");
          acceptedReleases := Some [str "1.6"];
          acceptedBackports := Some [str "1.4"];
          enableFeatureBranch := true;
          staleDays := Some 2%Z |} |}.

Definition features : Features :=
  {| releaseLabeling := true; backportLabeling := true;
     featureBranch := true; staleDetection := true |}.

(** The YAML block of the scenarios: release 1.5 and backport 1.4. *)
Definition yaml : jstr := str "release: 1.5" ++ lf ++ str "backport: 1.4".

Definition description : jstr :=
  str "Adds a widget." ++ lf ++ lf ++ fenceYaml ++ lf ++ yaml ++ lf ++ fence ++ lf.

Definition pr : PullRequest :=
  {| number := 7;
     title := str "Add widget";
     body := Some description;
     draft := false;
     head_sha := str "abc123";
     pr_state := str "open";
     pr_labels := [str "bug"] |}.

Definition day : Z := 86400000.

(** Updated at day 10; one commit at day 11, the latest activity. *)
Definition issue : Issue :=
  {| issue_labels := [str "bug"];
     updated_at := (10 * day)%Z;
     created_at := (9 * day)%Z;
     commit_dates := [Some (11 * day)%Z; None];
     review_comment_dates := [];
     review_dates := [Some (10 * day + 5)%Z];
     timeline := [(str "labeled", (9 * day)%Z); (str "assigned", (12 * day)%Z)] |}.

Definition github : World :=
  {| issues := {[ 7%N := issue ]};
     comments := [];
     checks := [];
     nextId := 100;
     clock := (13 * day)%Z;
     faults := [] |}.

Definition start : State := {| world := github; result := emptyResult |}.

(** The pull request with a release label put there by hand. *)
Definition issueWithRelease : Issue := setLabels [str "bug"; str "release-2.0"] issue.

(** A comment that a failed validation left on pull request 7, and a comment
    of a reviewer. *)
Definition errorCommentLeft : Comment :=
  {| comment_id := 50; comment_issue := 7;
     comment_body := str "## " ++ policeLight ++
                     str " YAML Validation Error: release and backport" ++ lf ++ lf ++
                     str "- bad value";
     comment_created_at := (12 * day)%Z |}.

Definition reviewComment : Comment :=
  {| comment_id := 51; comment_issue := 7;
     comment_body := str "Looks good to me";
     comment_created_at := (12 * day + 1)%Z |}.

Definition afterFailure : State :=
  {| world := setComments [errorCommentLeft; reviewComment] github; result := emptyResult |}.

(** The label endpoint refuses the next call. *)
Definition refused : State :=
  {| world := setFaults [Some (httpError 403 (str "Forbidden"))] github;
     result := emptyResult |}.

Definition workflowRun : WorkflowRun :=
  {| wr_conclusion := str "success"; wr_head_branch := Some (str "feature/widget") |}.

Definition pullRequestEvent : Context :=
  {| eventName := str "pull_request"; payload_action := str "edited"; issue_number := 7;
     payload_pull_request := pr; payload_workflow_run := workflowRun |}.

Definition draftPr : PullRequest :=
  {| number := 7; title := str "Add widget"; body := Some description; draft := true;
     head_sha := str "abc123"; pr_state := str "open"; pr_labels := [str "bug"] |}.

Definition draftEvent : Context :=
  {| eventName := str "pull_request"; payload_action := str "opened"; issue_number := 7;
     payload_pull_request := draftPr; payload_workflow_run := workflowRun |}.

(** A pull request whose description has no YAML block. *)
Definition plainPr : PullRequest :=
  {| number := 7; title := str "Add widget"; body := Some (str "Adds a widget.");
     draft := false; head_sha := str "abc123"; pr_state := str "open";
     pr_labels := [str "bug"] |}.

Definition plainEvent : Context :=
  {| eventName := str "pull_request"; payload_action := str "edited"; issue_number := 7;
     payload_pull_request := plainPr; payload_workflow_run := workflowRun |}.

Definition issueOpened : Context :=
  {| eventName := str "issues"; payload_action := str "opened"; issue_number := 7;
     payload_pull_request := pr; payload_workflow_run := workflowRun |}.

Definition workflowRunEvent : Context :=
  {| eventName := str "workflow_run"; payload_action := str "completed"; issue_number := 7;
     payload_pull_request := pr; payload_workflow_run := workflowRun |}.

Definition pulls : Pulls :=
  {| openPulls := [pr; draftPr]; pullsOfBranch := fun _ => [pr] |}.

(** Configurations: stale detection with a negative number of days, and
    without stale detection. *)
Definition cfgNegativeDays : ConfigManager :=
  {| owner := str "acme"; repo := str "widgets"; runId := 42;
     options :=
       {| dryRun := false;
          githubToken := Some (str "token");
          acceptedReleases := Some [str "1.5"; str "1.6"];
          acceptedBackports := Some [str "1.4"];
          enableFeatureBranch := true;
          staleDays := Some (-3)%Z |} |}.

Definition cfgNoStale : ConfigManager :=
  {| owner := str "acme"; repo := str "widgets"; runId := 42;
     options :=
       {| dryRun := false;
          githubToken := Some (str "token");
          acceptedReleases := Some [str "1.5"; str "1.6"];
          acceptedBackports := Some [str "1.4"];
          enableFeatureBranch := true;
          staleDays := None |} |}.


(** The configuration of a dry run. *)
Definition cfgDry : ConfigManager :=
  {| owner := str "acme"; repo := str "widgets"; runId := 42;
     options :=
       {| dryRun := true;
          githubToken := Some (str "token");
          acceptedReleases := Some [str "1.5"; str "1.6"];
          acceptedBackports := Some [str "1.4"];
          enableFeatureBranch := true;
          staleDays := Some 1%Z |} |}.


End Sample.

Section Automation.

Variable Number_toString : jstr -> jstr.

(** [parseYamlArrayValue(arrayString)]: [None] is the [null] of both the
    non-array result and the [catch] block. *)
Definition parseYamlArrayValue (arrayString : jstr) : option (list jstr) :=
  match Json.parse (normalizeQuotes false arrayString) with
  | Some (Json.JArray items) =>
    match mapM (fun item => option_map trim (Json.toString Number_toString item)) items with
    | Some l => Some (List.filter (fun item => negb (length item =? 0)) l)
    | None => None
    end
  | Some _ => None
  | None => None
  end.

(** [parseYamlValue(yamlContent, field)] *)
Definition parseYamlValue (yamlContent : jstr) (field : Field) : option YamlValue :=
  match yamlContent with
  | [] => None
  | _ :: _ =>
    match rawValueOf yamlContent field with
    | None => None
    | Some [] => None
    | Some rawValue =>
      if startsWith rawValue (str "[") && endsWith rawValue (str "]") then
        option_map ArrayOf (parseYamlArrayValue rawValue)
      else
        match stripQuotes rawValue with
        | [] => None
        | v => Some (Scalar v)
        end
    end
  end.

(** ** [utils/github-client.js]: class [GitHubClient] *)

(** The [ConfigManager] that the client and the automation classes share. *)
Variable cfg : ConfigManager.

Definition getLabels (issueNumber : N) : M (list jstr) :=
  tryCatch (rest (Rest.listLabelsOnIssue issueNumber)) (fun error => throw error).

Definition labelList (labels : list jstr) : jstr :=
  str "[" ++ join (str ", ") labels ++ str "]".

Definition handle422Error (error : Exn) (issueNumber : N) (labels : list jstr)
  (action : jstr) : M AddResult :=
  tryCatch
    (let* currentLabels := getLabels issueNumber in
     let alreadyHasLabels := List.filter (arrayIncludes currentLabels) labels in
     if (0 <? length alreadyHasLabels)%nat
     then ret {| added := []; skipped := Some alreadyHasLabels |}
     else throw (mkError
            (crossMark ++ str " Failed to " ++ action ++ str " labels " ++ labelList labels ++
             str " to #" ++ ofN issueNumber ++
             str ": One or more labels don't exist in the repository.")))
    (fun listError =>
       throw (mkError
         (crossMark ++ str " Error checking existing labels on #" ++ ofN issueNumber ++
          str ": " ++ exn_message listError))).

Definition handleLabelError (error : Exn) (issueNumber : N) (labels : list jstr)
  (action : jstr) : M AddResult :=
  match exn_status error with
  | Some 403%N =>
    throw (mkError
      (crossMark ++ str " Permission denied: Unable to " ++ action ++ str " labels " ++
       labelList labels ++ str " to #" ++ ofN issueNumber ++
       str ". Repository administrators should add a CUSTOM_GITHUB_TOKEN secret with appropriate permissions."))
  | Some 422%N => handle422Error error issueNumber labels action
  | _ =>
    throw (mkError
      (crossMark ++ str " Unexpected error " ++ action ++ str "ing labels " ++
       labelList labels ++ str " to #" ++ ofN issueNumber ++ str ": " ++ exn_message error))
  end.

Definition addLabels (issueNumber : N) (labels : list jstr) : M AddResult :=
  if isDryRun cfg then ret {| added := labels; skipped := None |}
  else
    tryCatch
      (rest (Rest.addLabels issueNumber labels) >>
       ret {| added := labels; skipped := None |})
      (fun error => handleLabelError error issueNumber labels (str "add")).

(** [hasLabels]: the object it returns, as the list of its entries.  A name
    that ends in a star is a prefix pattern. *)
Definition hasLabels (issueNumber : N) (labelNames : list jstr) : M (list (jstr * bool)) :=
  let* currentLabels := getLabels issueNumber in
  ret (List.map
         (fun labelName =>
            if endsWith labelName (str "*")
            then
              let prefix := removelast labelName in
              (labelName, existsb (fun label => startsWith label prefix) currentLabels)
            else (labelName, arrayIncludes currentLabels labelName))
         labelNames).

(** [labelChecks[name]], read as a condition. *)
Definition labelCheck (labelChecks : list (jstr * bool)) (name : jstr) : bool :=
  match List.find (fun entry => eqb name (fst entry)) labelChecks with
  | Some entry => snd entry
  | None => false
  end.

Definition getPR (prNumber : N) : M Issue :=
  tryCatch (rest (Rest.pullsGet prNumber)) (fun error => throw error).

Definition createCheckRun (name headSha detailsUrl : jstr) : M CheckId :=
  if isDryRun cfg then ret DryRunCheckId
  else
    tryCatch
      (let* id := rest (Rest.checksCreate name headSha detailsUrl) in
       ret (CheckNumber id))
      (fun error => throw error).

Definition updateCheckRun (checkRunId : CheckId) (st concl : jstr)
  (output : CheckOutput) : M unit :=
  if isDryRun cfg then ret tt
  else
    tryCatch
      (rest (match checkRunId with
             | CheckNumber id => Rest.checksUpdate id st concl output
             | DryRunCheckId => fun w => (Throw notFound, w)
             end))
      (fun error => throw error).

Definition createComment (issueNumber : N) (body : jstr) : M unit :=
  if isDryRun cfg then ret tt
  else tryCatch (rest (Rest.createComment issueNumber body)) (fun error => throw error).

Definition listComments (issueNumber : N) : M (list Comment) :=
  tryCatch (rest (Rest.listComments issueNumber)) (fun error => throw error).

Definition deleteComment (commentId : N) : M unit :=
  if isDryRun cfg then ret tt
  else tryCatch (rest (Rest.deleteComment commentId)) (fun error => throw error).

(** [cleanupWorkflowComments]: every failure inside is caught and logged. *)
Definition cleanupWorkflowComments (issueNumber : N) (identifier : jstr) : M unit :=
  tryCatch
    (let* comments := listComments issueNumber in
     let workflowComments :=
       List.filter (fun comment => includes (comment_body comment) identifier) comments in
     forEachM (fun comment => deleteComment (comment_id comment)) workflowComments)
    (fun error => ret tt).

Definition listPRCommits (prNumber : N) : M (list (option Z)) :=
  tryCatch (rest (Rest.listCommits prNumber)) (fun error => ret []).

Definition listPRReviewComments (prNumber : N) : M (list Z) :=
  tryCatch (rest (Rest.listReviewComments prNumber)) (fun error => ret []).

Definition listPRReviews (prNumber : N) : M (list (option Z)) :=
  tryCatch (rest (Rest.listReviews prNumber)) (fun error => ret []).

Definition listTimelineEvents (issueNumber : N) : M (list (jstr * Z)) :=
  tryCatch (rest (Rest.listEventsForTimeline issueNumber)) (fun error => ret []).

(** ** [label-automation.js]: class [LabelAutomation] *)

Definition quoted (v : jstr) : jstr := dquote ++ v ++ dquote.

Definition processReleaseLabel (yamlContent : jstr) (hasExistingLabel : bool) : LabelResult :=
  match parseYamlValue yamlContent Release with
  | None => noLabel
  | Some releaseValue =>
    if hasExistingLabel then noLabel
    else
      let validationResult := validateReleaseValue cfg releaseValue in
      match releaseValue with
      | ArrayOf _ =>
        let invalidValues := getInvalidValues validationResult in
        let validValues := getValidValues validationResult in
        if (0 <? length invalidValues)%nat then
          let acceptedReleases := getAcceptedReleases cfg in
          {| labels := [];
             error := Some (crossMark ++ str " Invalid release values: " ++
                            join (str ", ") (List.map quoted invalidValues) ++
                            str ". Accepted values: " ++ join (str ", ") acceptedReleases) |}
        else if (0 <? length validValues)%nat then
          {| labels := List.map (fun v => str "release-" ++ primToString v) validValues;
             error := None |}
        else noLabel
      | Scalar v =>
        match validationResult with
        | ValidOne true => {| labels := [str "release-" ++ v]; error := None |}
        | ValidOne false =>
          let acceptedReleases := getAcceptedReleases cfg in
          {| labels := [];
             error := Some (crossMark ++ str " Invalid release value: " ++ quoted v ++
                            str ". Accepted values: " ++ join (str ", ") acceptedReleases) |}
        | ValidEach _ => {| labels := [str "release-" ++ v]; error := None |}
        end
      end
  end.

Definition processBackportLabel (yamlContent : jstr) (hasExistingLabel : bool) : LabelResult :=
  match parseYamlValue yamlContent Backport with
  | None => noLabel
  | Some backportValue =>
    if hasExistingLabel then noLabel
    else
      let validationResult := validateBackportValue cfg backportValue in
      match backportValue with
      | ArrayOf _ =>
        let invalidValues := getInvalidValues validationResult in
        let validValues := getValidValues validationResult in
        if (0 <? length invalidValues)%nat then
          let acceptedBackports := getAcceptedBackports cfg in
          {| labels := [];
             error := Some (crossMark ++ str " Invalid backport values: " ++
                            join (str ", ") (List.map quoted invalidValues) ++
                            str ". Accepted values: " ++ join (str ", ") acceptedBackports) |}
        else if (0 <? length validValues)%nat then
          {| labels := List.map (fun v => str "backport-" ++ primToString v) validValues;
             error := None |}
        else noLabel
      | Scalar v =>
        match validationResult with
        | ValidOne true => {| labels := [str "backport-" ++ v]; error := None |}
        | ValidOne false =>
          let acceptedBackports := getAcceptedBackports cfg in
          {| labels := [];
             error := Some (crossMark ++ str " Invalid backport value: " ++ quoted v ++
                            str ". Accepted values: " ++ join (str ", ") acceptedBackports) |}
        | ValidEach _ => {| labels := [str "backport-" ++ v]; error := None |}
        end
      end
  end.

(** [if (r.error) errors.push(r.error) else if (r.labels && r.labels.length > 0)
    labelsToAdd.push(...r.labels)]: what one category adds to
    [validationErrors] and to [labelsToAdd]. *)
Definition collectResult (r : LabelResult) (acc : list jstr * list jstr)
  : list jstr * list jstr :=
  match error r with
  | Some (c :: e) => (fst acc ++ [c :: e], snd acc)
  | _ => if (0 <? length (labels r))%nat then (fst acc, snd acc ++ labels r) else acc
  end.

(** The arrays [validationErrors] and [labelsToAdd] of
    [processReleaseBackportLabeling] when it reaches the test of the errors,
    from the labels the pull request has. *)
Definition collectLabels (features : Features) (yamlContent : jstr)
  (currentLabels : list jstr) : list jstr * list jstr :=
  let hasExistingReleaseLabel :=
    existsb (fun label => startsWith label (str "release-")) currentLabels in
  let hasExistingBackportLabel :=
    existsb (fun label => startsWith label (str "backport-")) currentLabels in
  let acc := ([], []) in
  let acc :=
    if releaseLabeling features
    then collectResult (processReleaseLabel yamlContent hasExistingReleaseLabel) acc
    else acc in
  if backportLabeling features
  then collectResult (processBackportLabel yamlContent hasExistingBackportLabel) acc
  else acc.

Definition markerReleaseBackport : jstr :=
  policeLight ++ str " YAML Validation Error: release and backport".

Definition markerFeatureBranch : jstr :=
  policeLight ++ str " YAML Validation Error: feature branch".

Definition bulleted (errors : list jstr) : jstr :=
  join lf (List.map (fun e => str "- " ++ e) errors).

Definition howToFixSteps : jstr :=
  str "1. Update your PR description YAML block with valid values" ++ lf ++
  str "2. The workflow will automatically re-run when you edit the description" ++ lf ++ lf.

Definition validFormatBlock : jstr :=
  fenceYaml ++ lf ++
  str "release: 1.5    # Valid releases: " ++ join (str ", ") (getAcceptedReleases cfg) ++ lf ++
  str "backport: 1.4   # Valid backports: " ++ join (str ", ") (getAcceptedBackports cfg) ++ lf ++
  fence.

Definition attribution : jstr :=
  str "_This comment was posted by the repository automation workflow._".

(** The comment [handleValidationErrors] posts. *)
Definition errorComment (errors : list jstr) : jstr :=
  str "## " ++ markerReleaseBackport ++ lf ++ lf ++
  bulleted errors ++ lf ++ lf ++
  str "### How to fix:" ++ lf ++ howToFixSteps ++
  str "### Valid YAML format:" ++ lf ++
  validFormatBlock ++ lf ++ lf ++
  attribution.

Definition validationFailedOutput (errors : list jstr) : CheckOutput :=
  {| out_title := str "YAML Validation Failed";
     out_summary := str "Found " ++ ofN (N.of_nat (length errors)) ++
                    str " validation error(s) in PR description YAML block.";
     out_text := bulleted errors ++ lf ++ lf ++
                 str "**How to fix:**" ++ lf ++ howToFixSteps ++
                 str "**Valid YAML format:**" ++ lf ++
                 validFormatBlock |}.

Definition handleValidationErrors (prNumber : N) (checkRunId : CheckId)
  (errors : list jstr) : M unit :=
  updateCheckRun checkRunId (str "completed") (str "failure") (validationFailedOutput errors) >>
  createComment prNumber (errorComment errors).

Definition detailsUrl : jstr :=
  str "https://github.com/" ++ owner cfg ++ str "/" ++ repo cfg ++
  str "/actions/runs/" ++ ofN (runId cfg).

Definition labelsAddedOutput (labelsToAdd : list jstr) : CheckOutput :=
  {| out_title := str "YAML Validation Successful";
     out_summary := str "Successfully validated YAML and added " ++
                    ofN (N.of_nat (length labelsToAdd)) ++ str " label(s).";
     out_text := str "**Labels added:**" ++ lf ++
                 join lf (List.map (fun label => str "- " ++ backquote ++ label ++ backquote)
                            labelsToAdd) ++ lf ++ lf ++
                 str "**YAML validation passed** - all values are within accepted ranges." |}.

Definition noLabelsOutput : CheckOutput :=
  {| out_title := str "No YAML Validation Required";
     out_summary := str "No release/backport labels to add - validation skipped.";
     out_text := str "This PR does not require any release/backport labels based on the YAML configuration." |}.

Definition assignmentFailedOutput (error : Exn) : CheckOutput :=
  {| out_title := str "Label Assignment Failed";
     out_summary := str "YAML validation passed but failed to add labels.";
     out_text := str "**Error:** " ++ exn_message error |}.

(** [processReleaseBackportLabeling].  The check run is created first; when
    that call throws, [checkRun] is still [null] and the [catch] block only
    throws again, so the [try] is entered here after the creation. *)
Definition processReleaseBackportLabeling (prData : PullRequest) (yamlContent : jstr)
  (features : Features) : M unit :=
  let prNumber := number prData in
  let headSha := head_sha prData in
  let* checkRun := createCheckRun (str "YAML Validation (Release/Backport)") headSha detailsUrl in
  tryCatch
    (let* currentLabels := getLabels prNumber in
     let (validationErrors, labelsToAdd) := collectLabels features yamlContent currentLabels in
     if (0 <? length validationErrors)%nat then
       handleValidationErrors prNumber checkRun validationErrors
     else
       cleanupWorkflowComments prNumber markerReleaseBackport >>
       if (0 <? length labelsToAdd)%nat then
         let* result := addLabels prNumber labelsToAdd in
         pushLabelsAdded (added result) >>
         pushAction (str "Added release/backport labels: " ++ join (str ", ") labelsToAdd) >>
         updateCheckRun checkRun (str "completed") (str "success") (labelsAddedOutput labelsToAdd)
       else
         updateCheckRun checkRun (str "completed") (str "success") noLabelsOutput)
    (fun error =>
       updateCheckRun checkRun (str "completed") (str "failure") (assignmentFailedOutput error) >>
       throw error).

Definition featureBranchPresentOutput : CheckOutput :=
  {| out_title := str "Feature Branch Label Already Present";
     out_summary := str "Feature-branch label already exists on this PR - skipping automatic assignment.";
     out_text := str "This PR already has the feature-branch label. Automatic assignment is skipped to preserve manual labeling." |}.

Definition featureBranchNoFieldOutput : CheckOutput :=
  {| out_title := str "No YAML Validation Required";
     out_summary := str "No needs_feature_branch field found in YAML code blocks - validation skipped.";
     out_text := str "This PR does not contain any needs_feature_branch field that needs validation." |}.

Definition featureBranchAddedOutput : CheckOutput :=
  {| out_title := str "YAML Validation Successful";
     out_summary := str "Successfully validated YAML and added feature-branch label.";
     out_text := str "**Label added:**" ++ lf ++ str "- " ++ backquote ++ str "feature-branch" ++
                 backquote ++ lf ++ lf ++
                 str "**YAML validation passed** - needs_feature_branch value is valid." |}.

Definition featureBranchFalseOutput : CheckOutput :=
  {| out_title := str "YAML Validation Successful";
     out_summary := str "Successfully validated YAML - no feature-branch label needed.";
     out_text := str "**YAML validation passed** - needs_feature_branch is false or empty, no label added." |}.

Definition executionFailedOutput (error : Exn) : CheckOutput :=
  {| out_title := str "Workflow Execution Failed";
     out_summary := str "An unexpected error occurred during workflow execution.";
     out_text := str "**Error:** " ++ exn_message error ++ lf ++ lf ++
                 str "**Troubleshooting:**" ++ lf ++
                 str "Check the workflow logs for detailed error information." |}.

Definition featureBranchFormatBlock : jstr :=
  fenceYaml ++ lf ++
  str "needs_feature_branch: true    # Valid values: true, false (case-insensitive)" ++ lf ++
  str "needs_feature_branch: false   # Quotes are optional: " ++ dquote ++ str "true" ++ dquote ++
  str ", 'false', etc." ++ lf ++
  fence.

(** The message of the invalid-value branch of [processFeatureBranchLabeling]. *)
Definition featureBranchErrorMsg (featureBranchValue : jstr) : jstr :=
  crossMark ++ str " Invalid needs_feature_branch value: " ++ quoted featureBranchValue ++
  str ". Accepted values: true, false (case-insensitive, with optional quotes)".

Definition featureBranchErrorComment (errorMsg : jstr) : jstr :=
  str "## " ++ markerFeatureBranch ++ lf ++ lf ++
  str "- " ++ errorMsg ++ lf ++ lf ++
  str "### How to fix:" ++ lf ++ howToFixSteps ++
  str "### Valid YAML format:" ++ lf ++
  featureBranchFormatBlock ++ lf ++ lf ++
  attribution.

Definition featureBranchFailedOutput (errorMsg : jstr) : CheckOutput :=
  {| out_title := str "YAML Validation Failed";
     out_summary := str "Found validation error in PR description YAML block.";
     out_text := str "- " ++ errorMsg ++ lf ++ lf ++
                 str "**How to fix:**" ++ lf ++ howToFixSteps ++
                 str "**Valid YAML format:**" ++ lf ++
                 featureBranchFormatBlock |}.

Definition handleFeatureBranchValidationError (prNumber : N) (checkRunId : CheckId)
  (errorMsg : jstr) : M unit :=
  updateCheckRun checkRunId (str "completed") (str "failure") (featureBranchFailedOutput errorMsg) >>
  createComment prNumber (featureBranchErrorComment errorMsg).

(** The [TypeError] of calling [toLowerCase] on an array. *)
Definition notAFunction : Exn :=
  mkError (str "featureBranchValue.toLowerCase is not a function").

(** [processFeatureBranchLabeling]; the [try] is entered after the creation
    of the check run, as in [processReleaseBackportLabeling]. *)
Definition processFeatureBranchLabeling (prData : PullRequest) (yamlContent : jstr) : M unit :=
  let prNumber := number prData in
  let headSha := head_sha prData in
  let* checkRun := createCheckRun (str "YAML Validation (Feature Branch)") headSha detailsUrl in
  tryCatch
    (let* currentLabels := getLabels prNumber in
     let hasFeatureBranchLabel := arrayIncludes currentLabels (str "feature-branch") in
     if hasFeatureBranchLabel then
       cleanupWorkflowComments prNumber markerFeatureBranch >>
       updateCheckRun checkRun (str "completed") (str "success") featureBranchPresentOutput
     else
       match parseYamlValue yamlContent NeedsFeatureBranch with
       | None =>
         cleanupWorkflowComments prNumber markerFeatureBranch >>
         updateCheckRun checkRun (str "completed") (str "success") featureBranchNoFieldOutput
       | Some (ArrayOf _) => throw notAFunction
       | Some (Scalar featureBranchValue) =>
         let lowerValue := toLowerCase featureBranchValue in
         if eqb lowerValue (str "true") then
           let* result := addLabels prNumber [str "feature-branch"] in
           pushLabelsAdded (added result) >>
           pushAction (str "Added feature-branch label to PR #" ++ ofN prNumber) >>
           cleanupWorkflowComments prNumber markerFeatureBranch >>
           updateCheckRun checkRun (str "completed") (str "success") featureBranchAddedOutput
         else if eqb lowerValue (str "false") || eqb lowerValue [] then
           cleanupWorkflowComments prNumber markerFeatureBranch >>
           updateCheckRun checkRun (str "completed") (str "success") featureBranchFalseOutput
         else
           handleFeatureBranchValidationError prNumber checkRun
             (featureBranchErrorMsg featureBranchValue)
       end)
    (fun error =>
       updateCheckRun checkRun (str "completed") (str "failure") (executionFailedOutput error) >>
       throw error).

(** ** [triage-management.js]: class [RepositoryAutomation] *)

Definition handleReadyForReviewLabel (prNumber : N) (hasLabel : bool) : M unit :=
  if negb hasLabel then
    let* result := addLabels prNumber [str "ready for review"] in
    if (0 <? length (added result))%nat then
      pushLabelsAdded (added result) >>
      pushAction (str "Added " ++ dquote ++ str "ready for review" ++ dquote ++
                  str " label to PR #" ++ ofN prNumber ++ str " (has release label, not draft)")
    else ret tt
  else ret tt.

Definition handleTriageLabel (prNumber : N) (hasLabel hasReleaseLabel : bool) : M unit :=
  if negb hasLabel then
    let* result := addLabels prNumber [str "triage"] in
    if (0 <? length (added result))%nat then
      pushLabelsAdded (added result) >>
      let reason := if negb hasReleaseLabel then str "no release/backport label" else str "is draft" in
      pushAction (str "Added triage label to PR #" ++ ofN prNumber ++ str " (" ++ reason ++ str ")")
    else ret tt
  else ret tt.

(** [await new Promise(resolve => setTimeout(resolve, 10000))] *)
Definition sleep (ms : Z) : M unit :=
  fun s => (Ok tt, setWorld (setClock (clock (world s) + ms) (world s)) s).

(** [yamlContent && this.config.parseYamlValue(yamlContent, field)], read as
    a condition. *)
Definition hasYamlField (yamlContent : option jstr) (field : Field) : bool :=
  match yamlContent with
  | Some (c :: y) =>
    match parseYamlValue (c :: y) field with
    | Some _ => true
    | None => false
    end
  | _ => false
  end.

Definition handlePullRequestEvent (prData : PullRequest) : M unit :=
  let prNumber := number prData in
  if draft prData then ret tt
  else
    (if negb (isDryRun cfg) then sleep 10000 else ret tt) >>
    tryCatch
      (let* currentLabels := getLabels prNumber in
       let* labelChecks :=
         hasLabels prNumber [str "release *"; str "backport *"; str "triage"; str "ready for review"] in
       let hasReleaseLabel := labelCheck labelChecks (str "release *") in
       let hasBackportLabel := labelCheck labelChecks (str "backport *") in
       let hasTriageLabel := labelCheck labelChecks (str "triage") in
       let hasReadyForReviewLabel := labelCheck labelChecks (str "ready for review") in
       let yamlContent := parseYamlFromText (default [] (body prData)) in
       let hasReleaseYaml := hasYamlField yamlContent Release in
       let hasBackportYaml := hasYamlField yamlContent Backport in
       if (hasReleaseLabel || hasReleaseYaml) && negb (draft prData) then
         handleReadyForReviewLabel prNumber hasReadyForReviewLabel
       else if negb hasBackportLabel && negb hasBackportYaml then
         handleTriageLabel prNumber hasTriageLabel (hasReleaseLabel || hasReleaseYaml)
       else ret tt)
      (fun error =>
         setSummary (str "Failed to process PR #" ++ ofN prNumber ++ str ": " ++ exn_message error) >>
         throw error).

(** ** [stale-detection.js]: class [StaleDetection] *)

(** [this.config.getStaleDays() || 1] *)
Definition staleDaysOf : Z :=
  match getStaleDays cfg with
  | Some d => if (d =? 0)%Z then 1%Z else d
  | None => 1%Z
  end.

(** [this.staleDays * 24 * 60 * 60 * 1000] *)
Definition staleThresholdMs : Z := (staleDaysOf * 24 * 60 * 60 * 1000)%Z.

Definition markPRAsStale (prNumber : N) (hoursSinceActivity : Z) : M unit :=
  tryCatch
    (let* result := addLabels prNumber [str "stale"] in
     if (0 <? length (added result))%nat then
       pushLabelsAdded (added result) >>
       pushAction (str "Added stale label to PR #" ++ ofN prNumber ++ str " (inactive for " ++
                   ofZ hoursSinceActivity ++ str " hours)") >>
       countStalePR
     else ret tt)
    (fun error => throw error).

(** The dates that are there. *)
Definition present (l : list (option Z)) : list Z :=
  omap (fun d => d) l.

(** [Math.max(...activities)] on a non-empty array. *)
Definition maxDate (first : Z) (others : list Z) : Z :=
  fold_left Z.max others first.

(** [new Date()] *)
Definition currentTime : M Z := fun s => (Ok (clock (world s)), s).

Definition getLastActivityDate (prNumber : N) : M Z :=
  let* fromDetails :=
    tryCatch (let* prDetails := getPR prNumber in ret [updated_at prDetails])
             (fun error => ret []) in
  let* commits := listPRCommits prNumber in
  let fromCommits := present commits in
  let* fromComments :=
    tryCatch (let* comments := listComments prNumber in ret (List.map comment_created_at comments))
             (fun error => ret []) in
  let* reviewComments := listPRReviewComments prNumber in
  let* reviews := listPRReviews prNumber in
  let fromReviews := present reviews in
  let* timeline := listTimelineEvents prNumber in
  let fromTimeline :=
    List.map snd
      (List.filter (fun event => eqb (fst event) (str "labeled") || eqb (fst event) (str "unlabeled"))
         timeline) in
  let activities :=
    fromDetails ++ fromCommits ++ fromComments ++ reviewComments ++ fromReviews ++ fromTimeline in
  match activities with
  | first :: others => ret (maxDate first others)
  | [] =>
    tryCatch (let* prDetails := getPR prNumber in ret (created_at prDetails))
             (fun error => currentTime)
  end.

Definition processPR (pr : PullRequest) (now : Z) : M unit :=
  let prNumber := number pr in
  if draft pr then ret tt
  else
    let hasStaleLabel := existsb (fun label => eqb label (str "stale")) (pr_labels pr) in
    if hasStaleLabel then ret tt
    else
      let* lastActivity := getLastActivityDate prNumber in
      let timeSinceLastActivity := (now - lastActivity)%Z in
      let hoursSinceActivity := (timeSinceLastActivity / (1000 * 60 * 60))%Z in
      if (staleThresholdMs <? timeSinceLastActivity)%Z
      then markPRAsStale prNumber hoursSinceActivity
      else ret tt.

(** ** The rest of the client and of the three classes *)

(** [findPRByBranch(branchName)]: the first pull request of the answer, or
    [null]. *)
Definition findPRByBranch (pulls : Pulls) (branchName : jstr) : M (option PullRequest) :=
  tryCatch
    (let* prs := rest (pullsList (pullsOfBranch pulls branchName)) in
     ret (hd_error prs))
    (fun error => throw error).

Definition listOpenPRs (pulls : Pulls) : M (list PullRequest) :=
  tryCatch (rest (pullsList (openPulls pulls))) (fun error => throw error).

(** [this.result.actions.push(...actions)] *)
Definition pushActions (more : list jstr) : M unit :=
  modifyResult (fun r =>
    {| labelsAdded := labelsAdded r; actions := actions r ++ more;
       summary := summary r; stalePRsFound := stalePRsFound r |}).

(** A class instance made for one call: its methods work on a [result] of
    its own, which starts empty and is what the call returns; the [result] of
    the caller is not touched, whether the call returns or throws. *)
Definition withOwnResult {A} (m : M A) : M Result :=
  fun s =>
    match m (setResult emptyResult s) with
    | (Ok _, s') => (Ok (result s'), setResult (result s) s')
    | (Throw e, s') => (Throw e, setResult (result s) s')
    end.

(** [StaleDetection.execute()].  The field [processedPRs] of the result is
    the value of the computation. *)
Definition StaleDetection_execute (pulls : Pulls) : M N :=
  tryCatch
    (let* now := currentTime in
     let* pullRequests := listOpenPRs pulls in
     let processedPRs := N.of_nat (length pullRequests) in
     forEachM (fun pr => tryCatch (processPR pr now) (fun error => ret tt)) pullRequests >>
     ret processedPRs)
    (fun error => throw error).

(** [LabelAutomation.extractPRData()] *)
Definition extractPRData (context : Context) (pulls : Pulls) : M (option PullRequest) :=
  if eqb (eventName context) (str "pull_request") then
    ret (Some (payload_pull_request context))
  else if eqb (eventName context) (str "workflow_run") then
    let workflowRun := payload_workflow_run context in
    let headBranch := wr_head_branch workflowRun in
    if negb (truthyString headBranch) || eqb (default [] headBranch) (str "main") then ret None
    else
      let* pr := findPRByBranch pulls (default [] headBranch) in
      match pr with
      | None => ret None
      | Some pr => if eqb (pr_state pr) (str "closed") then ret None else ret (Some pr)
      end
  else ret None.

(** [LabelAutomation.execute(features)] *)
Definition LabelAutomation_execute (context : Context) (pulls : Pulls)
  (features : Features) : M unit :=
  tryCatch
    (let* prData := extractPRData context pulls in
     match prData with
     | None => ret tt
     | Some prData =>
       if draft prData then ret tt
       else
         let yamlContent := parseYamlFromText (default [] (body prData)) in
         if negb (truthyString yamlContent) then
           (if featureBranch features
            then cleanupWorkflowComments (number prData) markerFeatureBranch
            else ret tt) >>
           (if releaseLabeling features || backportLabeling features
            then cleanupWorkflowComments (number prData) markerReleaseBackport
            else ret tt)
         else
           (if releaseLabeling features || backportLabeling features
            then processReleaseBackportLabeling prData (default [] yamlContent) features
            else ret tt) >>
           (if featureBranch features
            then processFeatureBranchLabeling prData (default [] yamlContent)
            else ret tt)
     end)
    (fun error => throw error).

(** [handleIssueEvent()] *)
Definition handleIssueEvent (context : Context) : M unit :=
  if negb (eqb (payload_action context) (str "opened")) then ret tt
  else
    let issueNumber := issue_number context in
    tryCatch
      (let* result := addLabels issueNumber [str "triage"] in
       (if (0 <? length (added result))%nat then
          pushLabelsAdded (added result) >>
          pushAction (str "Added triage label to issue #" ++ ofN issueNumber)
        else ret tt) >>
       setSummary (str "Successfully processed issue #" ++ ofN issueNumber))
      (fun error =>
         setSummary (str "Failed to process issue #" ++ ofN issueNumber ++ str ": " ++
                     exn_message error) >>
         throw error).

(** [handleWorkflowRunEvent()] *)
Definition handleWorkflowRunEvent (context : Context) (pulls : Pulls) : M unit :=
  let workflowRun := payload_workflow_run context in
  if negb (eqb (wr_conclusion workflowRun) (str "success")) then ret tt
  else
    let headBranch := wr_head_branch workflowRun in
    if negb (truthyString headBranch) || eqb (default [] headBranch) (str "main") then ret tt
    else
      let* pr := findPRByBranch pulls (default [] headBranch) in
      match pr with
      | None => ret tt
      | Some pr =>
        if eqb (pr_state pr) (str "closed") then ret tt
        else handlePullRequestEvent pr
      end.

(** [handleTriageProtection(issueNumber, eventType)] *)
Definition handleTriageProtection (issueNumber : N) (eventType : jstr) : M unit :=
  tryCatch
    (let* labelChecks := hasLabels issueNumber [str "release *"; str "backport *"] in
     let hasReleaseLabel := labelCheck labelChecks (str "release *") in
     let hasBackportLabel := labelCheck labelChecks (str "backport *") in
     if negb hasReleaseLabel && negb hasBackportLabel then
       let* result := addLabels issueNumber [str "triage"] in
       if (0 <? length (added result))%nat then
         pushLabelsAdded (added result) >>
         pushAction (str "Re-added triage label to " ++ eventType ++ str " #" ++
                     ofN issueNumber ++ str " (no release/backport labels found)")
       else ret tt
     else ret tt)
    (fun error =>
       setSummary (str "Failed to handle triage protection for " ++ eventType ++ str " #" ++
                   ofN issueNumber ++ str ": " ++ exn_message error) >>
       throw error).

(** [executeTriageAutomation()] *)
Definition executeTriageAutomation (context : Context) (pulls : Pulls) : M unit :=
  if eqb (eventName context) (str "issues") then handleIssueEvent context
  else if eqb (eventName context) (str "workflow_run") then handleWorkflowRunEvent context pulls
  else if eqb (eventName context) (str "pull_request") then
    handlePullRequestEvent (payload_pull_request context)
  else ret tt.

(** [executeLabelAutomation()].  The module is there, so [require] does not
    throw, and no error of the model has the code [MODULE_NOT_FOUND]: the
    [catch] block throws the error again. *)
Definition executeLabelAutomation (context : Context) (pulls : Pulls)
  (features : Features) : M unit :=
  tryCatch
    (if eqb (eventName context) (str "pull_request") ||
        eqb (eventName context) (str "workflow_run")
     then
       let* labelResult := withOwnResult (LabelAutomation_execute context pulls features) in
       pushLabelsAdded (labelsAdded labelResult) >>
       pushActions (actions labelResult)
     else ret tt)
    (fun error => throw error).

(** [executeStaleDetection()] *)
Definition executeStaleDetection (context : Context) (pulls : Pulls)
  (features : Features) : M unit :=
  tryCatch
    (if eqb (eventName context) (str "schedule") || staleDetection features
     then
       let* staleResult :=
         withOwnResult (StaleDetection_execute pulls) in
       pushLabelsAdded (labelsAdded staleResult) >>
       pushActions (actions staleResult)
     else ret tt)
    (fun error => throw error).

(** [RepositoryAutomation.execute()], with the features the constructor
    detected.  The field [featuresEnabled] of the result is not kept. *)
Definition RepositoryAutomation_execute (context : Context) (pulls : Pulls) : M unit :=
  let features := detectEnabledFeatures cfg context in
  tryCatch
    ((fun s => (validate cfg context, s)) >>
     executeTriageAutomation context pulls >>
     (if releaseLabeling features || backportLabeling features || featureBranch features
      then executeLabelAutomation context pulls features
      else ret tt) >>
     (if staleDetection features
      then executeStaleDetection context pulls features
      else ret tt))
    (fun error =>
       setSummary (str "Failed: " ++ exn_message error) >>
       throw error).

(** The summary the exported [execute] writes at the end. *)
Definition finalSummary (r : Result) : jstr :=
  if (0 <? length (actions r))%nat then
    str "Completed " ++ ofN (N.of_nat (length (actions r))) ++ str " action(s): " ++
    join (str "; ") (actions r)
  else
    match summary r with
    | [] => str "No actions needed"
    | text => text
    end.

(** The exported function [execute(context, github, options)]: a new
    [RepositoryAutomation], whose result starts empty. *)
Definition execute (context : Context) (pulls : Pulls) : M unit :=
  modifyResult (fun _ => emptyResult) >>
  RepositoryAutomation_execute context pulls >>
  modifyResult (fun r =>
    {| labelsAdded := labelsAdded r; actions := actions r;
       summary := finalSummary r; stalePRsFound := stalePRsFound r |}).


(** ** Notions used in the statements *)

(** The REST service answers every call of the run that starts in [s]. *)
Definition answered (s : State) : Prop := faults (world s) = [].

(** What [cleanupWorkflowComments] can do to a state: remove comments. *)
Definition commentsRemoved (s s' : State) : Prop :=
  issues (world s') = issues (world s) /\
  checks (world s') = checks (world s) /\
  nextId (world s') = nextId (world s) /\
  clock (world s') = clock (world s) /\
  faults (world s') = faults (world s) /\
  result s' = result s /\
  (forall c, c ∈ comments (world s') -> c ∈ comments (world s)).

(** The patterns [handlePullRequestEvent] asks [hasLabels] for. *)
Definition smartPatterns : list jstr :=
  [str "release *"; str "backport *"; str "triage"; str "ready for review"].

(** [ensure l present]: the labels to add so that [l] is on a pull request
    with labels [have]. *)
Definition missing (l : jstr) (have : list jstr) : list jstr :=
  if bool_decide (l ∈ have) then [] else [l].

(** The activity dates [getLastActivityDate] collects after the date of the
    last update, in the order it pushes them. *)
Definition otherActivity (n : N) (i : Issue) (cs : list Comment) : list Z :=
  present (commit_dates i) ++
  List.map comment_created_at (List.filter (fun c => (comment_issue c =? n)%N) cs) ++
  review_comment_dates i ++
  present (review_dates i) ++
  List.map snd
    (List.filter (fun event => eqb (fst event) (str "labeled") ||
                               eqb (fst event) (str "unlabeled")) (timeline i)).

(** The check run [c] is the one this run created, and it is the last one. *)
Definition createdCheck (id : CheckId) (c : CheckRun) (s : State) : Prop :=
  exists before, id = CheckNumber (check_id c) /\ checks (world s) = before ++ [c].

(** The check run that [processFeatureBranchLabeling] creates in state [s]. *)
Definition featureBranchCheck (prData : PullRequest) (s : State) : CheckRun :=
  {| check_id := nextId (world s);
     check_name := str "YAML Validation (Feature Branch)";
     check_head_sha := head_sha prData;
     check_details_url := detailsUrl;
     check_status := str "in_progress";
     check_conclusion := None;
     check_output := None |}.

(** The computation changes neither the issues and pull requests (so no
    label) nor the [result] object, from any state and whatever the REST
    service answers. *)
Definition keepsLabels {A} (m : M A) : Prop :=
  forall s, issues (world (snd (m s))) = issues (world s) /\ result (snd (m s)) = result s.

(** A character that a scalar value can hold without the parser touching
    it: no whitespace, no number sign, no quote, no opening bracket. *)
Definition plainChar (c : N) : bool :=
  negb (isWhiteSpace c || (c =? 35)%N || isQuote c || (c =? 91)%N).


(** A computation leaves a service that answers every call in that
    condition. *)
Definition staysAnswered {A} (m : M A) : Prop :=
  forall s, answered s -> answered (snd (m s)).


(** Every state a computation can leave is related by [R] to the state it
    started in, whatever the REST service answers. *)
Definition stateStep (R : State -> State -> Prop) {A} (m : M A) : Prop :=
  forall s, R s (snd (m s)).

(** Nothing but the fault script differs. *)
Definition sameData (s s' : State) : Prop :=
  issues (world s') = issues (world s) /\
  comments (world s') = comments (world s) /\
  checks (world s') = checks (world s) /\
  nextId (world s') = nextId (world s) /\
  clock (world s') = clock (world s) /\
  result s' = result s.

(** Comments may be gone; the rest is as it was. *)
Definition deletesOnly (s s' : State) : Prop :=
  issues (world s') = issues (world s) /\
  checks (world s') = checks (world s) /\
  nextId (world s') = nextId (world s) /\
  clock (world s') = clock (world s) /\
  result s' = result s /\
  forall c, c ∈ comments (world s') -> c ∈ comments (world s).

Definition sameComments (s s' : State) : Prop :=
  comments (world s') = comments (world s).

(** The computation returns normally from every state, whatever the REST
    service answers. *)
Definition neverThrows {A} (m : M A) : Prop :=
  forall s, exists a, fst (m s) = Ok a.

(** The comments [cleanupWorkflowComments] is to delete: those of the issue
    whose body contains the identifier. *)
Definition isWorkflowComment (n : N) (identifier : jstr) (c : Comment) : bool :=
  (comment_issue c =? n)%N && includes (comment_body c) identifier.


(** Labels of issues may have changed; the rest is as it was. *)
Definition labelsOnly (s s' : State) : Prop :=
  comments (world s') = comments (world s) /\
  checks (world s') = checks (world s) /\
  nextId (world s') = nextId (world s) /\
  clock (world s') = clock (world s) /\
  result s' = result s.

(** What [k] pull requests marked as stale add to the result. *)
Definition staleReported (k : nat) (s s' : State) : Prop :=
  labelsAdded (result s') = labelsAdded (result s) ++ repeat (str "stale") k /\
  stalePRsFound (result s') = (stalePRsFound (result s) + N.of_nat k)%N /\
  length (actions (result s')) = (length (actions (result s)) + k)%nat /\
  summary (result s') = summary (result s).

(** The pull requests [processPR] looks into: no draft, no [stale] label. *)
Definition staleCandidate (pr : PullRequest) : bool :=
  negb (draft pr) && negb (existsb (fun label => eqb label (str "stale")) (pr_labels pr)).


(** The labels the automation is written to add. *)
Definition knownLabel (l : jstr) : bool :=
  eqb l (str "triage") || eqb l (str "ready for review") || eqb l (str "stale") ||
  eqb l (str "feature-branch") ||
  startsWith l (str "release-") || startsWith l (str "backport-").

(** From [s] to [s'], the labels reported and the labels put on issues are
    known labels, and no issue appears. *)
Definition addsKnownLabels (s s' : State) : Prop :=
  (exists more,
     labelsAdded (result s') = labelsAdded (result s) ++ more /\
     forallb knownLabel more = true) /\
  (forall n i', issues (world s') !! n = Some i' ->
     exists i, issues (world s) !! n = Some i /\
               forall l, In l (issue_labels i') -> In l (issue_labels i) \/ knownLabel l = true).


(** The date [getLastActivityDate] finds for a pull request when every
    lookup is answered. *)
Definition lastActivityIn (s : State) (n : N) : option Z :=
  match issues (world s) !! n with
  | Some i => Some (maxDate (updated_at i) (otherActivity n i (comments (world s))))
  | None => None
  end.

(** The pull requests that a run at time [now] is to mark: candidates whose
    last activity is older than the threshold. *)
Definition isStaleAt (s : State) (now : Z) (pr : PullRequest) : bool :=
  staleCandidate pr &&
  match lastActivityIn s (number pr) with
  | Some date => (staleThresholdMs <? now - date)%Z
  | None => false
  end.


(** The repository is as it was: issues and labels, comments, check runs,
    the id counter and the clock. *)
Definition sameRepository (s s' : State) : Prop :=
  issues (world s') = issues (world s) /\
  comments (world s') = comments (world s) /\
  checks (world s') = checks (world s) /\
  nextId (world s') = nextId (world s) /\
  clock (world s') = clock (world s).


(** * Properties *)

(** ** [JSON.parse]: the step budget is enough *)

Lemma dropWhile_length (p : N -> bool) (s : jstr) : length (dropWhile p s) <= length s.
Proof. induction s as [|c s IH]; simpl; [lia|]. destruct (p c); simpl; lia. Qed.

Lemma parseStringBody_length (s v r : jstr) :
  Json.parseStringBody s = Some (v, r) -> length r <= length s.
Proof.
  remember (length s) as k eqn:Hk. revert s v r Hk.
  induction k as [k IH] using lt_wf_ind. intros s v r Hk H.
  destruct s as [|c s1]; [discriminate|]. simpl in H, Hk.
  destruct (c =? 34)%N; [injection H as _ <-; lia|].
  destruct (c =? 92)%N.
  - destruct s1 as [|e s2]; [discriminate|]. simpl in Hk.
    destruct (e =? 117)%N.
    + destruct s2 as [|h1 [|h2 [|h3 [|h4 s6]]]]; try discriminate. simpl in Hk.
      destruct (Json.hexDigit h1), (Json.hexDigit h2), (Json.hexDigit h3), (Json.hexDigit h4);
        try discriminate.
      destruct (Json.parseStringBody s6) as [[v' r']|] eqn:Hrec; [|discriminate].
      injection H as _ <-.
      assert (length r' <= length s6) by (eapply (IH (length s6)); [lia | reflexivity | exact Hrec]).
      lia.
    + destruct (Json.simpleEscape e); [|discriminate].
      destruct (Json.parseStringBody s2) as [[v' r']|] eqn:Hrec; [|discriminate].
      injection H as _ <-.
      assert (length r' <= length s2) by (eapply (IH (length s2)); [lia | reflexivity | exact Hrec]).
      lia.
  - destruct (c <? 32)%N; [discriminate|].
    destruct (Json.parseStringBody s1) as [[v' r']|] eqn:Hrec; [|discriminate].
    injection H as _ <-.
    assert (length r' <= length s1) by (eapply (IH (length s1)); [lia | reflexivity | exact Hrec]).
    lia.
Qed.

Lemma digits1_length (s ds r : jstr) :
  Json.digits1 s = Some (ds, r) -> length r <= length s.
Proof.
  unfold Json.digits1. destruct (takeWhile Json.isDigit s); [discriminate|].
  intros H. injection H as _ <-. apply dropWhile_length.
Qed.

Lemma parseNumber_length (s lit r : jstr) :
  Json.parseNumber s = Some (lit, r) -> length r <= length s.
Proof.
  unfold Json.parseNumber.
  set (signed := match s with 45%N :: r0 => ([45%N], r0) | _ => ([], s) end).
  assert (Hsign : length (snd signed) <= length s).
  { unfold signed. destruct s as [|c s']; [simpl; lia|].
    destruct c as [|p]; [simpl; lia|].
    repeat (destruct p as [p|p|]; try (simpl; lia)). }
  destruct signed as [sign s1]. simpl in Hsign.
  set (intPart := match s1 with 48%N :: r0 => Some ([48%N], r0) | _ => Json.digits1 s1 end).
  assert (Hint : forall i s2, intPart = Some (i, s2) -> length s2 <= length s1).
  { unfold intPart. intros i s2 H. destruct s1 as [|c s1']; [discriminate|].
    destruct c as [|p]; [apply digits1_length in H; exact H|].
    repeat (destruct p as [p|p|];
            try (apply digits1_length in H; exact H);
            try (injection H as _ <-; simpl; lia)). }
  destruct intPart as [[int s2]|]; [|discriminate].
  specialize (Hint int s2 eq_refl).
  set (fracPart := match s2 with
                   | 46%N :: r0 =>
                     match Json.digits1 r0 with
                     | Some (ds, r') => Some (46%N :: ds, r')
                     | None => None
                     end
                   | _ => Some ([], s2)
                   end).
  assert (Hfrac : forall f s3, fracPart = Some (f, s3) -> length s3 <= length s2).
  { unfold fracPart. intros f s3 H. destruct s2 as [|c s2']; [injection H as _ <-; lia|].
    destruct c as [|p]; [injection H as _ <-; lia|].
    repeat (destruct p as [p|p|]; try (injection H as _ <-; lia)).
    destruct (Json.digits1 s2') as [[ds r']|] eqn:Hd; [|discriminate].
    injection H as _ <-. apply digits1_length in Hd. simpl. lia. }
  destruct fracPart as [[frac s3]|]; [|discriminate].
  specialize (Hfrac frac s3 eq_refl).
  destruct s3 as [|e r0].
  - intros H. injection H as _ <-. simpl. lia.
  - destruct ((e =? 101)%N || (e =? 69)%N).
    + set (esigned := match r0 with
                      | c :: r' => if (c =? 43)%N || (c =? 45)%N then ([c], r') else ([], r0)
                      | [] => ([], r0)
                      end).
      assert (Hes : length (snd esigned) <= length r0).
      { unfold esigned. destruct r0 as [|c r']; [simpl; lia|].
        destruct ((c =? 43)%N || (c =? 45)%N); simpl; lia. }
      destruct esigned as [esign r1]. simpl in Hes.
      destruct (Json.digits1 r1) as [[ds r2]|] eqn:Hd; [|discriminate].
      intros H. injection H as _ <-. apply digits1_length in Hd. simpl in Hfrac. lia.
    + intros H. injection H as _ <-. lia.
Qed.

Lemma expect_length (c : N) (s r : jstr) :
  Json.expect c s = Some r -> S (length r) <= length s.
Proof.
  unfold Json.expect. pose proof (dropWhile_length Json.isWs s) as Hws.
  fold (Json.skipWs s) in Hws. destruct (Json.skipWs s) as [|d r0]; [discriminate|].
  destruct (d =? c)%N; [|discriminate]. intros H. injection H as <-. simpl in Hws. lia.
Qed.

Lemma parseValue_S (n : nat) (s : jstr) :
  Json.parseValue (S n) s =
  match Json.skipWs s with
  | [] => None
  | c :: r =>
    if (c =? 34)%N then
      match Json.parseStringBody r with
      | Some (v, r') => Some (Json.JString v, r')
      | None => None
      end
    else if (c =? 91)%N then
      match Json.expect 93 r with
      | Some r' => Some (Json.JArray [], r')
      | None =>
        match Json.parseElements n r with
        | Some (vs, r') => Some (Json.JArray vs, r')
        | None => None
        end
      end
    else if (c =? 123)%N then
      match Json.expect 125 r with
      | Some r' => Some (Json.JObject [], r')
      | None =>
        match Json.parseMembers n r with
        | Some (ms, r') => Some (Json.JObject ms, r')
        | None => None
        end
      end
    else if startsWith (c :: r) (str "true") then Some (Json.JBool true, skipn 4 (c :: r))
    else if startsWith (c :: r) (str "false") then Some (Json.JBool false, skipn 5 (c :: r))
    else if startsWith (c :: r) (str "null") then Some (Json.JNull, skipn 4 (c :: r))
    else
      match Json.parseNumber (c :: r) with
      | Some (lit, r') => Some (Json.JNumber lit, r')
      | None => None
      end
  end.
Proof. reflexivity. Qed.

Lemma parseElements_S (n : nat) (s : jstr) :
  Json.parseElements (S n) s =
  match Json.parseValue n s with
  | None => None
  | Some (v, r) =>
    match Json.expect 93 r with
    | Some r' => Some ([v], r')
    | None =>
      match Json.expect 44 r with
      | Some r' =>
        match Json.parseElements n r' with
        | Some (vs, r'') => Some (v :: vs, r'')
        | None => None
        end
      | None => None
      end
    end
  end.
Proof. reflexivity. Qed.

Lemma parseMembers_S (n : nat) (s : jstr) :
  Json.parseMembers (S n) s =
  match Json.expect 34 s with
  | None => None
  | Some r =>
    match Json.parseStringBody r with
    | None => None
    | Some (k, r1) =>
      match Json.expect 58 r1 with
      | None => None
      | Some r2 =>
        match Json.parseValue n r2 with
        | None => None
        | Some (v, r3) =>
          match Json.expect 125 r3 with
          | Some r4 => Some ([(k, v)], r4)
          | None =>
            match Json.expect 44 r3 with
            | Some r4 =>
              match Json.parseMembers n r4 with
              | Some (ms, r5) => Some ((k, v) :: ms, r5)
              | None => None
              end
            | None => None
            end
          end
        end
      end
    end
  end.
Proof. reflexivity. Qed.

(** A result obtained with some budget is obtained with every budget above
    twice the number of characters read. *)
Lemma fuel_enough (n : nat) :
  (forall s v r,
     Json.parseValue n s = Some (v, r) ->
     length r <= length s /\
     forall m, 2 * (length s - length r) + 1 <= m -> Json.parseValue m s = Some (v, r)) /\
  (forall s vs r,
     Json.parseElements n s = Some (vs, r) ->
     length r <= length s /\
     forall m, 2 * (length s - length r) + 2 <= m -> Json.parseElements m s = Some (vs, r)) /\
  (forall s ms r,
     Json.parseMembers n s = Some (ms, r) ->
     length r <= length s /\
     forall m, 2 * (length s - length r) + 2 <= m -> Json.parseMembers m s = Some (ms, r)).
Proof.
  induction n as [|n (IHV & IHE & IHM)]; [repeat split; discriminate|].
  split; [|split].
  - intros s v r H. rewrite parseValue_S in H.
    pose proof (dropWhile_length Json.isWs s) as Hws. fold (Json.skipWs s) in Hws.
    destruct (Json.skipWs s) as [|c r0] eqn:Hs; [discriminate|]. simpl in Hws.
    destruct (c =? 34)%N eqn:C1.
    { destruct (Json.parseStringBody r0) as [[x r']|] eqn:Hstr; [|discriminate].
      injection H as <- <-. pose proof (parseStringBody_length _ _ _ Hstr).
      split; [lia|]. intros [|m] Hm; [lia|].
      rewrite parseValue_S, Hs, C1, Hstr. reflexivity. }
    destruct (c =? 91)%N eqn:C2.
    { destruct (Json.expect 93 r0) as [r'|] eqn:Hex.
      - injection H as <- <-. pose proof (expect_length _ _ _ Hex).
        split; [lia|]. intros [|m] Hm; [lia|].
        rewrite parseValue_S, Hs, C1, C2, Hex. reflexivity.
      - destruct (Json.parseElements n r0) as [[vs r']|] eqn:Hel; [|discriminate].
        injection H as <- <-. destruct (IHE _ _ _ Hel) as [Hlen Hfuel].
        split; [lia|]. intros [|m] Hm; [lia|].
        rewrite parseValue_S, Hs, C1, C2, Hex, (Hfuel m) by lia. reflexivity. }
    destruct (c =? 123)%N eqn:C3.
    { destruct (Json.expect 125 r0) as [r'|] eqn:Hex.
      - injection H as <- <-. pose proof (expect_length _ _ _ Hex).
        split; [lia|]. intros [|m] Hm; [lia|].
        rewrite parseValue_S, Hs, C1, C2, C3, Hex. reflexivity.
      - destruct (Json.parseMembers n r0) as [[ms r']|] eqn:Hmem; [|discriminate].
        injection H as <- <-. destruct (IHM _ _ _ Hmem) as [Hlen Hfuel].
        split; [lia|]. intros [|m] Hm; [lia|].
        rewrite parseValue_S, Hs, C1, C2, C3, Hex, (Hfuel m) by lia. reflexivity. }
    destruct (startsWith (c :: r0) (str "true")) eqn:C4.
    { injection H as <- <-. pose proof (length_skipn 4 (c :: r0)) as Hk. simpl length in Hk.
      split; [lia|]. intros [|m] Hm; [lia|].
      rewrite parseValue_S, Hs, C1, C2, C3, C4. reflexivity. }
    destruct (startsWith (c :: r0) (str "false")) eqn:C5.
    { injection H as <- <-. pose proof (length_skipn 5 (c :: r0)) as Hk. simpl length in Hk.
      split; [lia|]. intros [|m] Hm; [lia|].
      rewrite parseValue_S, Hs, C1, C2, C3, C4, C5. reflexivity. }
    destruct (startsWith (c :: r0) (str "null")) eqn:C6.
    { injection H as <- <-. pose proof (length_skipn 4 (c :: r0)) as Hk. simpl length in Hk.
      split; [lia|]. intros [|m] Hm; [lia|].
      rewrite parseValue_S, Hs, C1, C2, C3, C4, C5, C6. reflexivity. }
    destruct (Json.parseNumber (c :: r0)) as [[lit r']|] eqn:Hnum; [|discriminate].
    injection H as <- <-. pose proof (parseNumber_length _ _ _ Hnum) as Hk. simpl in Hk.
    split; [lia|]. intros [|m] Hm; [lia|].
    rewrite parseValue_S, Hs, C1, C2, C3, C4, C5, C6, Hnum. reflexivity.
  - intros s vs r H. rewrite parseElements_S in H.
    destruct (Json.parseValue n s) as [[v r0]|] eqn:Hv; [|discriminate].
    destruct (IHV _ _ _ Hv) as [Hlen Hfuel].
    destruct (Json.expect 93 r0) as [r'|] eqn:Hex.
    + injection H as <- <-. pose proof (expect_length _ _ _ Hex).
      split; [lia|]. intros [|m] Hm; [lia|].
      rewrite parseElements_S, (Hfuel m) by lia. rewrite Hex. reflexivity.
    + destruct (Json.expect 44 r0) as [r'|] eqn:Hex2; [|discriminate].
      destruct (Json.parseElements n r') as [[vs' r'']|] eqn:Hel; [|discriminate].
      injection H as <- <-. pose proof (expect_length _ _ _ Hex2).
      destruct (IHE _ _ _ Hel) as [Hlen2 Hfuel2].
      split; [lia|]. intros [|m] Hm; [lia|].
      rewrite parseElements_S, (Hfuel m) by lia. rewrite Hex, Hex2, (Hfuel2 m) by lia.
      reflexivity.
  - intros s ms r H. rewrite parseMembers_S in H.
    destruct (Json.expect 34 s) as [r0|] eqn:Hq; [|discriminate].
    destruct (Json.parseStringBody r0) as [[k r1]|] eqn:Hk; [|discriminate].
    destruct (Json.expect 58 r1) as [r2|] eqn:Hc; [|discriminate].
    destruct (Json.parseValue n r2) as [[v r3]|] eqn:Hv; [|discriminate].
    pose proof (expect_length _ _ _ Hq). pose proof (parseStringBody_length _ _ _ Hk).
    pose proof (expect_length _ _ _ Hc). destruct (IHV _ _ _ Hv) as [Hlen Hfuel].
    destruct (Json.expect 125 r3) as [r4|] eqn:Hex.
    + injection H as <- <-. pose proof (expect_length _ _ _ Hex).
      split; [lia|]. intros [|m] Hm; [lia|].
      rewrite parseMembers_S, Hq, Hk, Hc, (Hfuel m) by lia. rewrite Hex. reflexivity.
    + destruct (Json.expect 44 r3) as [r4|] eqn:Hex2; [|discriminate].
      destruct (Json.parseMembers n r4) as [[ms' r5]|] eqn:Hmem; [|discriminate].
      injection H as <- <-. pose proof (expect_length _ _ _ Hex2).
      destruct (IHM _ _ _ Hmem) as [Hlen2 Hfuel2].
      split; [lia|]. intros [|m] Hm; [lia|].
      rewrite parseMembers_S, Hq, Hk, Hc, (Hfuel m) by lia.
      rewrite Hex, Hex2, (Hfuel2 m) by lia. reflexivity.
Qed.

(** [Json.parse] gives the value that any budget gives: when some budget
    reads a value up to the end of the text, [Json.parse] returns it, and
    when [Json.parse] returns a value, every larger budget returns it. *)
Lemma parse_fuel_enough (text : jstr) (v : Json.value) :
  (Json.parse text = Some v <->
   exists n r, Json.parseValue n text = Some (v, r) /\ Json.skipWs r = []).
Proof.
  unfold Json.parse. split.
  - destruct (Json.parseValue (2 * length text + 2) text) as [[v' r]|] eqn:H; [|discriminate].
    destruct (Json.skipWs r) eqn:Hr; [|discriminate].
    intros Hv. injection Hv as <-. exists (2 * length text + 2), r. split; assumption.
  - intros (n & r & H & Hr).
    destruct (fuel_enough n) as (HV & _ & _). destruct (HV _ _ _ H) as [Hlen Hfuel].
    rewrite (Hfuel (2 * length text + 2)) by lia. rewrite Hr. reflexivity.
Qed.

(** ** Strings and lists *)

Lemma eqb_eq (a b : jstr) : eqb a b = true <-> a = b.
Proof. unfold eqb. apply bool_decide_eq_true. Qed.

Lemma eqb_refl (a : jstr) : eqb a a = true.
Proof. apply eqb_eq. reflexivity. Qed.

Lemma arrayIncludes_elem (l : list jstr) (v : jstr) :
  arrayIncludes l v = bool_decide (v ∈ l).
Proof.
  unfold arrayIncludes. induction l as [|x l IH]; simpl.
  - reflexivity.
  - rewrite IH. unfold eqb.
    destruct (decide (v = x)) as [->|Hne].
    + rewrite bool_decide_eq_true_2 by reflexivity. simpl.
      symmetry. apply bool_decide_eq_true_2. apply list_elem_of_here.
    + rewrite (bool_decide_eq_false_2 (v = x)) by assumption. simpl.
      apply bool_decide_ext. rewrite elem_of_cons.
      split; [intros H; right; exact H | intros [H|H]; [contradiction | exact H]].
Qed.

Lemma startsWith_app (p s : jstr) : startsWith (p ++ s) p = true.
Proof. induction p as [|c p IH]; simpl; [reflexivity|]. rewrite N.eqb_refl. exact IH. Qed.

Lemma startsWith_prefix (s p : jstr) :
  startsWith s p = true <-> exists r, s = p ++ r.
Proof.
  revert s. induction p as [|a p IH]; intros s; simpl.
  - split; [intros _; exists s; reflexivity | reflexivity].
  - destruct s as [|b s].
    + split; [discriminate | intros [r Hr]; discriminate].
    + rewrite andb_true_iff, N.eqb_eq, IH. split.
      * intros [-> [r ->]]. exists r. reflexivity.
      * intros [r Hr]. injection Hr as -> ->. split; [reflexivity | exists r; reflexivity].
Qed.

(** ** The validator *)

Lemma invalid_of_array (accepted vs : list jstr) :
  getInvalidValues (validateAgainst accepted (ArrayOf vs)) =
  List.filter (fun v => negb (bool_decide (v ∈ accepted))) vs.
Proof.
  simpl. induction vs as [|v vs IH]; simpl; [reflexivity|].
  rewrite <- arrayIncludes_elem.
  destruct (arrayIncludes accepted v); simpl; rewrite IH; reflexivity.
Qed.

Lemma valid_of_array (accepted vs : list jstr) :
  getValidValues (validateAgainst accepted (ArrayOf vs)) =
  List.map PStr (List.filter (fun v => bool_decide (v ∈ accepted)) vs).
Proof.
  simpl. induction vs as [|v vs IH]; simpl; [reflexivity|].
  rewrite <- arrayIncludes_elem.
  destruct (arrayIncludes accepted v); simpl; rewrite IH; reflexivity.
Qed.

Lemma no_invalid_all_valid (accepted vs : list jstr) :
  List.filter (fun v => negb (bool_decide (v ∈ accepted))) vs = [] ->
  List.filter (fun v => bool_decide (v ∈ accepted)) vs = vs.
Proof.
  induction vs as [|v vs IH]; simpl; [reflexivity|].
  destruct (bool_decide (v ∈ accepted)); simpl; [|discriminate].
  intros H. rewrite IH by exact H. reflexivity.
Qed.

Lemma length_pos_nonempty {A} (l : list A) :
  (0 <? length l)%nat = match l with [] => false | _ :: _ => true end.
Proof. destruct l; reflexivity. Qed.

(** C2. For an array-valued release (resp. backport) field with no label of
    the category on the pull request: when some element is outside the
    allowlist the rule proposes no label and returns one message that lists
    the invalid elements, each in double quotes and joined by a comma, and
    the whole allowlist; when every element is in the allowlist it proposes
    ["<category>-<v>"] for each element, in the order of the array,
    duplicates kept. *)
Theorem array_field_all_or_nothing (yamlContent : jstr) (vs : list jstr) :
  let invalidFor (accepted : list jstr) :=
    List.filter (fun v => negb (bool_decide (v ∈ accepted))) vs in
  (parseYamlValue yamlContent Release = Some (ArrayOf vs) ->
   processReleaseLabel yamlContent false =
   match invalidFor (getAcceptedReleases cfg) with
   | [] => {| labels := List.map (app (str "release-")) vs; error := None |}
   | bad =>
     {| labels := [];
        error := Some (crossMark ++ str " Invalid release values: " ++
                       join (str ", ") (List.map (fun v => dquote ++ v ++ dquote) bad) ++
                       str ". Accepted values: " ++
                       join (str ", ") (getAcceptedReleases cfg)) |}
   end) /\
  (parseYamlValue yamlContent Backport = Some (ArrayOf vs) ->
   processBackportLabel yamlContent false =
   match invalidFor (getAcceptedBackports cfg) with
   | [] => {| labels := List.map (app (str "backport-")) vs; error := None |}
   | bad =>
     {| labels := [];
        error := Some (crossMark ++ str " Invalid backport values: " ++
                       join (str ", ") (List.map (fun v => dquote ++ v ++ dquote) bad) ++
                       str ". Accepted values: " ++
                       join (str ", ") (getAcceptedBackports cfg)) |}
   end).
Proof.
  intros invalidFor. split; intros Hparse.
  - unfold processReleaseLabel. rewrite Hparse. unfold validateReleaseValue.
    unfold invalidFor.
    destruct (List.filter _ vs) as [|b bad] eqn:Hbad.
    + rewrite invalid_of_array, valid_of_array, Hbad, (no_invalid_all_valid _ _ Hbad).
      rewrite List.map_map. destruct vs as [|v vs']; reflexivity.
    + rewrite invalid_of_array, Hbad. reflexivity.
  - unfold processBackportLabel. rewrite Hparse. unfold validateBackportValue.
    unfold invalidFor.
    destruct (List.filter _ vs) as [|b bad] eqn:Hbad.
    + rewrite invalid_of_array, valid_of_array, Hbad, (no_invalid_all_valid _ _ Hbad).
      rewrite List.map_map. destruct vs as [|v vs']; reflexivity.
    + rewrite invalid_of_array, Hbad. reflexivity.
Qed.

(** C3. When the pull request carries a label with the prefix of the
    category, the rule of that category returns no label and no error,
    whatever the YAML text and the allowlist are; in the combined rule the
    category then contributes nothing. *)
Theorem manual_label_is_kept (yamlContent : jstr) (currentLabels : list jstr)
  (features : Features) :
  ((exists l, l ∈ currentLabels /\ startsWith l (str "release-") = true) ->
   processReleaseLabel yamlContent
     (existsb (fun label => startsWith label (str "release-")) currentLabels) = noLabel /\
   collectLabels features yamlContent currentLabels =
   collectLabels {| releaseLabeling := false;
                    backportLabeling := backportLabeling features;
                    featureBranch := featureBranch features;
                    staleDetection := staleDetection features |} yamlContent currentLabels) /\
  ((exists l, l ∈ currentLabels /\ startsWith l (str "backport-") = true) ->
   processBackportLabel yamlContent
     (existsb (fun label => startsWith label (str "backport-")) currentLabels) = noLabel /\
   collectLabels features yamlContent currentLabels =
   collectLabels {| releaseLabeling := releaseLabeling features;
                    backportLabeling := false;
                    featureBranch := featureBranch features;
                    staleDetection := staleDetection features |} yamlContent currentLabels).
Proof.
  split; intros [l [Hin Hpre]].
  - assert (Hex : existsb (fun label => startsWith label (str "release-")) currentLabels = true).
    { apply existsb_exists. exists l. split; [apply list_elem_of_In; exact Hin | exact Hpre]. }
    assert (Hno : processReleaseLabel yamlContent true = noLabel).
    { unfold processReleaseLabel. destruct (parseYamlValue yamlContent Release); reflexivity. }
    unfold collectLabels. rewrite Hex, Hno. simpl.
    split; [reflexivity|]. destruct (releaseLabeling features); reflexivity.
  - assert (Hex : existsb (fun label => startsWith label (str "backport-")) currentLabels = true).
    { apply existsb_exists. exists l. split; [apply list_elem_of_In; exact Hin | exact Hpre]. }
    assert (Hno : processBackportLabel yamlContent true = noLabel).
    { unfold processBackportLabel. destruct (parseYamlValue yamlContent Backport); reflexivity. }
    unfold collectLabels. rewrite Hex, Hno. simpl.
    split; [reflexivity|]. destruct (backportLabeling features); reflexivity.
Qed.

(** ** The field parser *)

Lemma rawValueOf_empty (field : Field) : rawValueOf [] field = None.
Proof. destruct field; reflexivity. Qed.

Lemma dropLastQuote_spec (s : jstr) :
  exists core trail,
    s = core ++ trail /\
    (trail = [] \/ exists q, isQuote q = true /\ trail = [q]) /\
    (trail = [] -> forall q r, core = r ++ [q] -> isQuote q = false) /\
    dropLastQuote s = core.
Proof.
  unfold dropLastQuote. destruct (rev s) as [|c r] eqn:Hrev.
  - exists s, []. rewrite app_nil_r. repeat split; [left; reflexivity|].
    intros _ q r' ->. rewrite rev_app_distr in Hrev. discriminate.
  - assert (Hs : s = rev r ++ [c]).
    { rewrite <- (rev_involutive s), Hrev. reflexivity. }
    destruct (isQuote c) eqn:Hq.
    + exists (rev r), [c]. repeat split; [exact Hs | right; exists c; split; [exact Hq | reflexivity] |].
      intros Habs. discriminate.
    + exists s, []. rewrite app_nil_r. repeat split; [left; reflexivity|].
      intros _ q r' Hs'. rewrite Hs in Hs'. apply app_inj_tail in Hs' as [_ <-]. exact Hq.
Qed.

Lemma stripQuotes_spec (raw : jstr) :
  exists lead core trail,
    raw = lead ++ core ++ trail /\
    (lead = [] \/ exists q, isQuote q = true /\ lead = [q]) /\
    (trail = [] \/ exists q, isQuote q = true /\ trail = [q]) /\
    (lead = [] -> forall q r, core ++ trail = q :: r -> isQuote q = false) /\
    (trail = [] -> forall q r, core = r ++ [q] -> isQuote q = false) /\
    stripQuotes raw = core.
Proof.
  destruct raw as [|c s]; simpl.
  - exists [], [], []. repeat split; try (left; reflexivity).
    + intros _ q r H. discriminate.
    + intros _ q r H. destruct r; discriminate.
  - destruct (dropLastQuote_spec s) as [core [trail [Hs [Htrail [Hend Hdrop]]]]].
    destruct (isQuote c) eqn:Hq.
    + exists [c], core, trail. rewrite Hdrop. repeat split.
      * rewrite Hs. reflexivity.
      * right. exists c. split; [exact Hq | reflexivity].
      * exact Htrail.
      * intros Habs. discriminate.
      * exact Hend.
    + exists [], (c :: core), trail. rewrite Hdrop. repeat split.
      * rewrite Hs. reflexivity.
      * left. reflexivity.
      * exact Htrail.
      * intros _ q r H. simpl in H. injection H as <- _. exact Hq.
      * intros Ht q r H. destruct r as [|c' r'].
        -- simpl in H. injection H as <- Hcore. exact Hq.
        -- simpl in H. injection H as _ Hcore. exact (Hend Ht q r' Hcore).
Qed.

(** C8, as the code has it. A field whose value has array syntax and does not
    parse gives [null], and so does a field that is missing: the parser has
    one result for both. *)
Theorem malformed_array_is_null (yamlContent : jstr) (field : Field) :
  (forall raw,
     rawValueOf yamlContent field = Some raw ->
     startsWith raw (str "[") && endsWith raw (str "]") = true ->
     parseYamlArrayValue raw = None ->
     parseYamlValue yamlContent field = None) /\
  (rawValueOf yamlContent field = None ->
   parseYamlValue yamlContent field = None).
Proof.
  split.
  - intros raw Hraw Hsyntax Hfail. unfold parseYamlValue.
    destruct yamlContent as [|c y]; [reflexivity|].
    rewrite Hraw. destruct raw as [|r0 raw']; [reflexivity|].
    rewrite Hsyntax, Hfail. reflexivity.
  - intros Hraw. unfold parseYamlValue.
    destruct yamlContent as [|c y]; [reflexivity|].
    rewrite Hraw. reflexivity.
Qed.

(** C9, as the code has it. For a value without array syntax the parser
    removes one quote character at the start when there is one, and one quote
    character at the end of what follows when there is one; each of them may
    be a double or a single quote, and the two need not be the same.  What is
    left is the scalar; when nothing is left the result is [null]. *)
Theorem scalar_quotes_stripped (yamlContent : jstr) (field : Field) (raw : jstr) :
  rawValueOf yamlContent field = Some raw ->
  raw <> [] ->
  startsWith raw (str "[") && endsWith raw (str "]") = false ->
  exists lead core trail,
    raw = lead ++ core ++ trail /\
    (lead = [] \/ exists q, isQuote q = true /\ lead = [q]) /\
    (trail = [] \/ exists q, isQuote q = true /\ trail = [q]) /\
    (lead = [] -> forall q r, core ++ trail = q :: r -> isQuote q = false) /\
    (trail = [] -> forall q r, core = r ++ [q] -> isQuote q = false) /\
    parseYamlValue yamlContent field =
    match core with [] => None | _ :: _ => Some (Scalar core) end.
Proof.
  intros Hraw Hne Hsyntax.
  destruct (stripQuotes_spec raw) as [lead [core [trail [H1 [H2 [H3 [H4 [H5 H6]]]]]]]].
  exists lead, core, trail. repeat split; try assumption.
  unfold parseYamlValue.
  destruct yamlContent as [|c y]; [rewrite rawValueOf_empty in Hraw; discriminate|].
  rewrite Hraw. destruct raw as [|r0 raw']; [contradiction|].
  rewrite Hsyntax, H6. destruct core; reflexivity.
Qed.

(** ** Runs in which the REST service answers every call *)

Lemma setWorld_same (s : State) : setWorld (world s) s = s.
Proof. destruct s; reflexivity. Qed.

Lemma bind_ok {A B} (m : M A) (f : A -> M B) (s s' : State) (a : A) :
  m s = (Ok a, s') -> bind m f s = f a s'.
Proof. intros H. unfold bind. rewrite H. reflexivity. Qed.

Lemma bind_throw {A B} (m : M A) (f : A -> M B) (s s' : State) (e : Exn) :
  m s = (Throw e, s') -> bind m f s = (Throw e, s').
Proof. intros H. unfold bind. rewrite H. reflexivity. Qed.

Lemma tryCatch_ok {A} (m : M A) (h : Exn -> M A) (s s' : State) (a : A) :
  m s = (Ok a, s') -> tryCatch m h s = (Ok a, s').
Proof. intros H. unfold tryCatch. rewrite H. reflexivity. Qed.

Lemma tryCatch_throw {A} (m : M A) (h : Exn -> M A) (s s' : State) (e : Exn) :
  m s = (Throw e, s') -> tryCatch m h s = h e s'.
Proof. intros H. unfold tryCatch. rewrite H. reflexivity. Qed.

Lemma rest_answered {A} (call : World -> Outcome A * World) (s : State) :
  answered s ->
  rest call s = (fst (call (world s)), setWorld (snd (call (world s))) s).
Proof.
  intros H. unfold rest. rewrite H. destruct (call (world s)); reflexivity.
Qed.

Lemma getLabels_run (n : N) (s : State) (i : Issue) :
  answered s -> issues (world s) !! n = Some i ->
  getLabels n s = (Ok (issue_labels i), s).
Proof.
  intros Ha Hi. unfold getLabels. apply tryCatch_ok.
  rewrite rest_answered by exact Ha. unfold Rest.listLabelsOnIssue. rewrite Hi.
  simpl. rewrite setWorld_same. reflexivity.
Qed.

Lemma getPR_run (n : N) (s : State) (i : Issue) :
  answered s -> issues (world s) !! n = Some i ->
  getPR n s = (Ok i, s).
Proof.
  intros Ha Hi. unfold getPR. apply tryCatch_ok.
  rewrite rest_answered by exact Ha. unfold Rest.pullsGet. rewrite Hi.
  simpl. rewrite setWorld_same. reflexivity.
Qed.

Lemma listComments_run (n : N) (s : State) (i : Issue) :
  answered s -> issues (world s) !! n = Some i ->
  listComments n s =
  (Ok (List.filter (fun c => (comment_issue c =? n)%N) (comments (world s))), s).
Proof.
  intros Ha Hi. unfold listComments. apply tryCatch_ok.
  rewrite rest_answered by exact Ha. unfold Rest.listComments. rewrite Hi.
  simpl. rewrite setWorld_same. reflexivity.
Qed.

Lemma createCheckRun_run (name sha url : jstr) (s : State) :
  isDryRun cfg = false -> answered s ->
  createCheckRun name sha url s =
  (Ok (CheckNumber (nextId (world s))),
   setWorld (snd (Rest.checksCreate name sha url (world s))) s).
Proof.
  intros Hd Ha. unfold createCheckRun. rewrite Hd. apply tryCatch_ok.
  erewrite bind_ok; [reflexivity|].
  rewrite rest_answered by exact Ha. reflexivity.
Qed.

Lemma updateCheckRun_run (id : N) (st concl : jstr) (out : CheckOutput) (s : State) :
  isDryRun cfg = false -> answered s ->
  existsb (fun c => (check_id c =? id)%N) (checks (world s)) = true ->
  updateCheckRun (CheckNumber id) st concl out s =
  (Ok tt,
   setWorld
     (setChecks
        (List.map (fun c => if (check_id c =? id)%N
                            then Rest.updateCheck st concl out c else c)
           (checks (world s))) (world s)) s).
Proof.
  intros Hd Ha Hex. unfold updateCheckRun. rewrite Hd. apply tryCatch_ok.
  rewrite rest_answered by exact Ha. unfold Rest.checksUpdate. rewrite Hex. reflexivity.
Qed.

Lemma createComment_run (n : N) (text : jstr) (s : State) (i : Issue) :
  isDryRun cfg = false -> answered s -> issues (world s) !! n = Some i ->
  createComment n text s =
  (Ok tt,
   setWorld
     (setNextId (nextId (world s) + 1)%N
        (setComments
           (comments (world s) ++
            [{| comment_id := nextId (world s); comment_issue := n;
                comment_body := text; comment_created_at := clock (world s) |}])
           (world s))) s).
Proof.
  intros Hd Ha Hi. unfold createComment. rewrite Hd. apply tryCatch_ok.
  rewrite rest_answered by exact Ha. unfold Rest.createComment. rewrite Hi. reflexivity.
Qed.

Lemma addLabels_run (n : N) (new : list jstr) (s : State) (i : Issue) :
  isDryRun cfg = false -> answered s -> issues (world s) !! n = Some i ->
  addLabels n new s =
  (Ok {| added := new; skipped := None |},
   setWorld (setIssues (<[n := setLabels (Rest.addNew (issue_labels i) new) i]> (issues (world s)))
               (world s)) s).
Proof.
  intros Hd Ha Hi. unfold addLabels. rewrite Hd. apply tryCatch_ok.
  erewrite bind_ok; [reflexivity|].
  rewrite rest_answered by exact Ha. unfold Rest.addLabels. rewrite Hi. reflexivity.
Qed.

Lemma addLabels_dry (n : N) (new : list jstr) (s : State) :
  isDryRun cfg = true ->
  addLabels n new s = (Ok {| added := new; skipped := None |}, s).
Proof. intros Hd. unfold addLabels. rewrite Hd. reflexivity. Qed.

(** [addLabels] in either mode, when the service answers. *)
Lemma addLabels_any (n : N) (new : list jstr) (s : State) (i : Issue) :
  answered s -> issues (world s) !! n = Some i ->
  exists s',
    addLabels n new s = (Ok {| added := new; skipped := None |}, s') /\
    answered s' /\ result s' = result s /\
    comments (world s') = comments (world s) /\
    checks (world s') = checks (world s) /\
    (isDryRun cfg = true -> s' = s) /\
    (isDryRun cfg = false ->
     issues (world s') =
     <[n := setLabels (Rest.addNew (issue_labels i) new) i]> (issues (world s))).
Proof.
  intros Ha Hi. destruct (isDryRun cfg) eqn:Hd.
  - exists s. split; [apply addLabels_dry; exact Hd|].
    repeat split; try assumption; intros; discriminate.
  - eexists. split; [apply addLabels_run; eassumption|].
    repeat split; try assumption; intros; discriminate.
Qed.

Lemma commentsRemoved_refl (s : State) : commentsRemoved s s.
Proof. unfold commentsRemoved. repeat split; auto. Qed.

Lemma commentsRemoved_trans (s1 s2 s3 : State) :
  commentsRemoved s1 s2 -> commentsRemoved s2 s3 -> commentsRemoved s1 s3.
Proof.
  unfold commentsRemoved.
  intros (A1 & A2 & A3 & A4 & A5 & A6 & A7) (B1 & B2 & B3 & B4 & B5 & B6 & B7).
  repeat split; try congruence. auto.
Qed.

Lemma deleteComment_removes (id : N) (s : State) :
  answered s ->
  exists o s', deleteComment id s = (o, s') /\ commentsRemoved s s'.
Proof.
  intros Ha. unfold deleteComment. destruct (isDryRun cfg).
  - exists (Ok tt), s. split; [reflexivity | apply commentsRemoved_refl].
  - unfold tryCatch. rewrite rest_answered by exact Ha. unfold Rest.deleteComment.
    destruct (existsb _ (comments (world s))); simpl.
    + eexists _, _. split; [reflexivity|].
      unfold commentsRemoved; simpl. repeat split; try reflexivity.
      intros c Hc. apply list_elem_of_In in Hc. apply filter_In in Hc as [Hc _].
      apply list_elem_of_In. exact Hc.
    + eexists _, _. split; [reflexivity|].
      rewrite setWorld_same. apply commentsRemoved_refl.
Qed.

Lemma forEach_delete_removes (l : list Comment) (s : State) :
  answered s ->
  exists o s',
    forEachM (fun comment => deleteComment (comment_id comment)) l s = (o, s') /\
    commentsRemoved s s'.
Proof.
  revert s. induction l as [|c l IH]; intros s Ha; simpl.
  - exists (Ok tt), s. split; [reflexivity | apply commentsRemoved_refl].
  - destruct (deleteComment_removes (comment_id c) s Ha) as (o & s1 & Hdel & Hrem).
    unfold bind. rewrite Hdel. destruct o as [[]|e].
    + assert (Ha1 : answered s1).
      { unfold answered. destruct Hrem as (_ & _ & _ & _ & Hf & _). rewrite Hf. exact Ha. }
      destruct (IH s1 Ha1) as (o2 & s2 & Hrest & Hrem2).
      exists o2, s2. split; [exact Hrest | eapply commentsRemoved_trans; eassumption].
    + exists (Throw e), s1. split; [reflexivity | exact Hrem].
Qed.

Lemma cleanup_run (n : N) (identifier : jstr) (s : State) (i : Issue) :
  answered s -> issues (world s) !! n = Some i ->
  exists s', cleanupWorkflowComments n identifier s = (Ok tt, s') /\ commentsRemoved s s'.
Proof.
  intros Ha Hi. unfold cleanupWorkflowComments.
  unfold tryCatch, bind. rewrite (listComments_run n s i Ha Hi).
  destruct (forEach_delete_removes
              (List.filter (fun comment => includes (comment_body comment) identifier)
                 (List.filter (fun c => (comment_issue c =? n)%N) (comments (world s))))
              s Ha) as (o & s' & Hrun & Hrem).
  rewrite Hrun. destruct o as [[]|e]; exists s'; split; auto.
Qed.

(** ** The release/backport rule *)

Lemma existsb_last_check (id : N) (cs : list CheckRun) (c : CheckRun) :
  check_id c = id ->
  existsb (fun c => (check_id c =? id)%N) (cs ++ [c]) = true.
Proof.
  intros <-. rewrite existsb_app. simpl. rewrite N.eqb_refl.
  rewrite orb_true_r. reflexivity.
Qed.

Lemma keeps_ret {A} (a : A) : keepsLabels (ret a).
Proof. intros s. split; reflexivity. Qed.

Lemma keeps_throw {A} (e : Exn) : keepsLabels (@throw A e).
Proof. intros s. split; reflexivity. Qed.

Lemma keeps_bind {A B} (m : M A) (f : A -> M B) :
  keepsLabels m -> (forall a, keepsLabels (f a)) -> keepsLabels (bind m f).
Proof.
  intros Hm Hf s. unfold bind. specialize (Hm s).
  destruct (m s) as [[a|e] s1]; simpl in Hm.
  - destruct (Hf a s1) as [H1 H2]. destruct Hm as [H3 H4]. split; congruence.
  - exact Hm.
Qed.

Lemma keeps_tryCatch {A} (m : M A) (h : Exn -> M A) :
  keepsLabels m -> (forall e, keepsLabels (h e)) -> keepsLabels (tryCatch m h).
Proof.
  intros Hm Hh s. unfold tryCatch. specialize (Hm s).
  destruct (m s) as [[a|e] s1]; simpl in Hm.
  - exact Hm.
  - destruct (Hh e s1) as [H1 H2]. destruct Hm as [H3 H4]. split; congruence.
Qed.

Lemma keeps_rest {A} (call : World -> Outcome A * World) :
  (forall w, issues (snd (call w)) = issues w) -> keepsLabels (rest call).
Proof.
  intros Hcall s. unfold rest. destruct (faults (world s)) as [|[e|] fs].
  - specialize (Hcall (world s)). destruct (call (world s)); split; [exact Hcall | reflexivity].
  - split; reflexivity.
  - specialize (Hcall (setFaults fs (world s))).
    destruct (call (setFaults fs (world s))); split; [exact Hcall | reflexivity].
Qed.

Lemma keeps_createCheckRun (name sha url : jstr) : keepsLabels (createCheckRun name sha url).
Proof.
  unfold createCheckRun. destruct (isDryRun cfg); [apply keeps_ret|].
  apply keeps_tryCatch; [|intros e; apply keeps_throw].
  apply keeps_bind; [|intros a; apply keeps_ret].
  apply keeps_rest. reflexivity.
Qed.

Lemma keeps_updateCheckRun (id : CheckId) (st concl : jstr) (out : CheckOutput) :
  keepsLabels (updateCheckRun id st concl out).
Proof.
  unfold updateCheckRun. destruct (isDryRun cfg); [apply keeps_ret|].
  apply keeps_tryCatch; [|intros e; apply keeps_throw].
  apply keeps_rest. intros w. destruct id; [reflexivity|].
  unfold Rest.checksUpdate. destruct (existsb _ _); reflexivity.
Qed.

Lemma keeps_createComment (n : N) (text : jstr) : keepsLabels (createComment n text).
Proof.
  unfold createComment. destruct (isDryRun cfg); [apply keeps_ret|].
  apply keeps_tryCatch; [|intros e; apply keeps_throw].
  apply keeps_rest. intros w. unfold Rest.createComment.
  destruct (issues w !! n); reflexivity.
Qed.

(** What [getLabels] returns is the label list of the issue, and the call
    changes neither issues nor result. *)
Lemma getLabels_reads (n : N) (s s' : State) (l : list jstr) :
  getLabels n s = (Ok l, s') ->
  (exists i, issues (world s) !! n = Some i /\ l = issue_labels i) /\
  issues (world s') = issues (world s) /\ result s' = result s.
Proof.
  unfold getLabels, tryCatch, rest, throw, Rest.listLabelsOnIssue.
  destruct (faults (world s)) as [|[e|] fs]; simpl.
  - destruct (issues (world s) !! n) as [i|]; [|discriminate].
    intros H. injection H as <- <-. split; [exists i; auto | split; reflexivity].
  - discriminate.
  - destruct (issues (world s) !! n) as [i|]; [|discriminate].
    intros H. injection H as <- <-. split; [exists i; auto | split; reflexivity].
Qed.

Lemma getLabels_keeps (n : N) : keepsLabels (getLabels n).
Proof.
  unfold getLabels. apply keeps_tryCatch; [|intros e; apply keeps_throw].
  apply keeps_rest. intros w. unfold Rest.listLabelsOnIssue.
  destruct (issues w !! n); reflexivity.
Qed.

Lemma includes_unfold (s p : jstr) :
  includes s p =
  startsWith s p || match s with _ :: s' => includes s' p | [] => false end.
Proof. destruct s; reflexivity. Qed.

Lemma includes_skip (a s p : jstr) : includes s p = true -> includes (a ++ s) p = true.
Proof.
  intros H. induction a as [|x a IH]; [exact H|].
  simpl app. rewrite includes_unfold, IH. apply orb_true_r.
Qed.

Lemma includes_head (p s : jstr) : includes (p ++ s) p = true.
Proof. rewrite includes_unfold, startsWith_app. reflexivity. Qed.

Lemma startsWith_more (s p b : jstr) :
  startsWith s p = true -> startsWith (s ++ b) p = true.
Proof.
  intros H. apply startsWith_prefix in H as [r ->]. rewrite <- app_assoc. apply startsWith_app.
Qed.

Lemma includes_more (s p b : jstr) : includes s p = true -> includes (s ++ b) p = true.
Proof.
  induction s as [|c s IH]; rewrite includes_unfold; intros H.
  - rewrite orb_false_r in H. rewrite includes_unfold.
    rewrite (startsWith_more [] p b H). reflexivity.
  - change ((c :: s) ++ b) with (c :: (s ++ b)). rewrite includes_unfold.
    apply orb_true_iff in H as [H|H].
    + change (c :: (s ++ b)) with ((c :: s) ++ b).
      rewrite (startsWith_more (c :: s) p b H). reflexivity.
    + rewrite (IH H). apply orb_true_r.
Qed.

(** Every error has its line in the list of the comment and of the check
    run. *)
Lemma bulleted_has_each (errors : list jstr) (e : jstr) :
  e ∈ errors -> includes (bulleted errors) (str "- " ++ e) = true.
Proof.
  intros He. apply list_elem_of_In in He. unfold bulleted.
  induction errors as [|x errors IH]; [contradiction|].
  cbn [List.map]. destruct He as [->|He].
  - destruct (List.map (fun e0 => str "- " ++ e0) errors) as [|y ys].
    + cbn [join]. rewrite <- (app_nil_r (str "- " ++ e)) at 1. apply includes_head.
    + cbn [join]. apply includes_head.
  - specialize (IH He).
    destruct (List.map (fun e0 => str "- " ++ e0) errors) as [|y ys] eqn:Hmap.
    + destruct errors; [contradiction | discriminate].
    + change (join lf ((str "- " ++ x) :: y :: ys))
        with ((str "- " ++ x) ++ lf ++ join lf (y :: ys)).
      apply includes_skip, includes_skip. exact IH.
Qed.

(** The comment of [handleValidationErrors] opens with the heading and one
    line per error, and so contains every error. *)
Lemma errorComment_shape (errors : list jstr) :
  startsWith (errorComment errors)
    (str "## " ++ [55357%N; 57000%N] ++ str " YAML Validation Error: release and backport" ++
     lf ++ lf ++ join lf (List.map (fun e => str "- " ++ e) errors) ++ lf ++ lf ++
     str "### How to fix:") = true /\
  forall e, e ∈ errors -> includes (errorComment errors) (str "- " ++ e) = true.
Proof.
  split.
  - apply startsWith_prefix. eexists.
    unfold errorComment, markerReleaseBackport, policeLight, bulleted.
    rewrite <- !app_assoc. reflexivity.
  - intros e He. unfold errorComment.
    apply includes_skip, includes_skip, includes_skip, includes_skip.
    apply includes_more. apply bulleted_has_each. exact He.
Qed.

(** The comment contains the marker that [cleanupWorkflowComments] is called
    with. *)
Lemma errorComment_has_marker (errors : list jstr) :
  includes (errorComment errors) markerReleaseBackport = true.
Proof. unfold errorComment. apply includes_skip. apply includes_head. Qed.

(** The text of the failed check run opens with the same lines. *)
Lemma validationFailedOutput_shape (errors : list jstr) :
  startsWith (out_text (validationFailedOutput errors))
    (join lf (List.map (fun e => str "- " ++ e) errors) ++ lf ++ lf ++
     str "**How to fix:**") = true /\
  forall e, e ∈ errors ->
    includes (out_text (validationFailedOutput errors)) (str "- " ++ e) = true.
Proof.
  split.
  - apply startsWith_prefix. eexists.
    unfold validationFailedOutput, out_text, bulleted.
    rewrite <- !app_assoc. reflexivity.
  - intros e He. unfold validationFailedOutput, out_text.
    apply includes_more. apply bulleted_has_each. exact He.
Qed.

(** With validation errors the rule changes no label and no result field,
    also when calls of the REST service fail. *)
Lemma errors_keep_labels (prData : PullRequest) (yamlContent : jstr)
  (features : Features) (s : State) (i : Issue) :
  issues (world s) !! number prData = Some i ->
  fst (collectLabels features yamlContent (issue_labels i)) <> [] ->
  issues (world (snd (processReleaseBackportLabeling prData yamlContent features s))) =
  issues (world s) /\
  result (snd (processReleaseBackportLabeling prData yamlContent features s)) = result s.
Proof.
  intros Hi Hne.
  remember (processReleaseBackportLabeling prData yamlContent features s) as out eqn:Hout.
  unfold processReleaseBackportLabeling in Hout. unfold bind at 1 in Hout.
  destruct (keeps_createCheckRun (str "YAML Validation (Release/Backport)")
              (head_sha prData) detailsUrl s) as [K1 K2].
  destruct (createCheckRun _ _ _ s) as [[id|e] s1]; simpl in K1, K2.
  2:{ subst out. simpl. split; assumption. }
  assert (Hhandler : forall e, @keepsLabels unit
            (updateCheckRun id (str "completed") (str "failure") (assignmentFailedOutput e) >>
             throw e)).
  { intros e. apply keeps_bind; [apply keeps_updateCheckRun | intros _; apply keeps_throw]. }
  unfold tryCatch in Hout. unfold bind at 1 in Hout.
  destruct (getLabels_keeps (number prData) s1) as [G1 G2].
  destruct (getLabels (number prData) s1) as [[l|e] s2] eqn:Hget; simpl in G1, G2.
  - apply getLabels_reads in Hget as [(i' & Hi' & ->) _].
    rewrite K1, Hi in Hi'. injection Hi' as <-.
    destruct (collectLabels features yamlContent (issue_labels i)) as [errs labs].
    simpl in Hne. destruct errs as [|e0 errs]; [contradiction|].
    change (0 <? length (e0 :: errs))%nat with true in Hout. cbv iota in Hout.
    assert (Hval : keepsLabels (handleValidationErrors (number prData) id (e0 :: errs))).
    { unfold handleValidationErrors.
      apply keeps_bind; [apply keeps_updateCheckRun | intros _; apply keeps_createComment]. }
    destruct (Hval s2) as [V1 V2].
    destruct (handleValidationErrors (number prData) id (e0 :: errs) s2) as [[[]|e] s3];
      simpl in V1, V2.
    + subst out. simpl. split; congruence.
    + destruct (Hhandler e s3) as [H1 H2]. subst out. split; congruence.
  - destruct (Hhandler e s2) as [H1 H2]. subst out. split; congruence.
Qed.

(** The run of the rule when there are validation errors. *)
Lemma errors_run (prData : PullRequest) (yamlContent : jstr)
  (features : Features) (s : State) (i : Issue) :
  answered s ->
  issues (world s) !! number prData = Some i ->
  fst (collectLabels features yamlContent (issue_labels i)) <> [] ->
  let errors := fst (collectLabels features yamlContent (issue_labels i)) in
  exists s',
    processReleaseBackportLabeling prData yamlContent features s = (Ok tt, s') /\
    issues (world s') = issues (world s) /\
    result s' = result s /\
    (isDryRun cfg = true -> s' = s) /\
    (isDryRun cfg = false ->
     (exists before,
        checks (world s') =
        before ++
        [{| check_id := nextId (world s);
            check_name := str "YAML Validation (Release/Backport)";
            check_head_sha := head_sha prData;
            check_details_url := detailsUrl;
            check_status := str "completed";
            check_conclusion := Some (str "failure");
            check_output := Some (validationFailedOutput errors) |}]) /\
     comments (world s') =
     comments (world s) ++
     [{| comment_id := (nextId (world s) + 1)%N;
         comment_issue := number prData;
         comment_body := errorComment errors;
         comment_created_at := clock (world s) |}]).
Proof.
  intros Ha Hi Hne errors.
  assert (Hpos : (0 <? length errors)%nat = true).
  { rewrite length_pos_nonempty. subst errors. revert Hne.
    destruct (fst (collectLabels features yamlContent (issue_labels i)));
      [intros H; contradiction | reflexivity]. }
  unfold processReleaseBackportLabeling.
  destruct (isDryRun cfg) eqn:Hd.
  - exists s.
    assert (Hrun : processReleaseBackportLabeling prData yamlContent features s = (Ok tt, s)).
    { unfold processReleaseBackportLabeling, createCheckRun. rewrite Hd.
      erewrite bind_ok by reflexivity.
      apply tryCatch_ok.
      erewrite bind_ok by (apply getLabels_run; eassumption).
      fold errors.
      destruct (collectLabels features yamlContent (issue_labels i)) as [errs labs] eqn:Hc.
      simpl in errors. subst errors. rewrite Hpos.
      unfold handleValidationErrors, updateCheckRun, createComment. rewrite Hd. reflexivity. }
    unfold processReleaseBackportLabeling in Hrun. rewrite Hrun.
    repeat split; try reflexivity; intros; discriminate.
  - set (s1 := setWorld (snd (Rest.checksCreate (str "YAML Validation (Release/Backport)")
                                 (head_sha prData) detailsUrl (world s))) s).
    assert (Ha1 : answered s1) by exact Ha.
    assert (Hi1 : issues (world s1) !! number prData = Some i) by exact Hi.
    erewrite bind_ok by (apply createCheckRun_run; [exact Hd | exact Ha]).
    fold s1.
    eexists. split.
    + apply tryCatch_ok.
      erewrite bind_ok by (apply getLabels_run; eassumption).
      destruct (collectLabels features yamlContent (issue_labels i)) as [errs labs] eqn:Hc.
      simpl in errors. subst errors. rewrite Hpos.
      unfold handleValidationErrors.
      erewrite bind_ok.
      2:{ apply updateCheckRun_run; [exact Hd | exact Ha1 |].
          simpl. apply existsb_last_check. reflexivity. }
      eapply createComment_run; [exact Hd | exact Ha | exact Hi].
    + simpl. repeat split; try reflexivity.
      * intros; discriminate.
      * rewrite map_app. simpl. rewrite N.eqb_refl.
        eexists. reflexivity.
Qed.

(** C1. When the combined list of validation errors is not empty, the run
    leaves the labels of every issue and pull request as they were and
    records no added label, also when calls of the REST service fail.  When
    the service answers, the run returns normally; outside a dry run it
    completes the check run it created with conclusion [failure] and posts
    one comment that carries all the errors, and in a dry run nothing
    changes.  The comment opens with the heading of the validation error
    (the police car light U+1F6A8 written as its two code units), a blank
    line and one line, a hyphen and the message, for every error; the text
    of the check run opens with the same lines; so each error is contained
    in both. *)
Theorem validation_errors_fail_closed (prData : PullRequest) (yamlContent : jstr)
  (features : Features) (s : State) (i : Issue) :
  issues (world s) !! number prData = Some i ->
  fst (collectLabels features yamlContent (issue_labels i)) <> [] ->
  let errors := fst (collectLabels features yamlContent (issue_labels i)) in
  let run := processReleaseBackportLabeling prData yamlContent features in
  (issues (world (snd (run s))) = issues (world s) /\
   labelsAdded (result (snd (run s))) = labelsAdded (result s)) /\
  (answered s ->
   exists s',
     run s = (Ok tt, s') /\
     (isDryRun cfg = true -> s' = s) /\
     (isDryRun cfg = false ->
      (exists before,
         checks (world s') =
         before ++
         [{| check_id := nextId (world s);
             check_name := str "YAML Validation (Release/Backport)";
             check_head_sha := head_sha prData;
             check_details_url := detailsUrl;
             check_status := str "completed";
             check_conclusion := Some (str "failure");
             check_output := Some (validationFailedOutput errors) |}]) /\
      comments (world s') =
      comments (world s) ++
      [{| comment_id := (nextId (world s) + 1)%N;
          comment_issue := number prData;
          comment_body := errorComment errors;
          comment_created_at := clock (world s) |}] /\
      startsWith (errorComment errors)
        (str "## " ++ [55357%N; 57000%N] ++
         str " YAML Validation Error: release and backport" ++ lf ++ lf ++
         join lf (List.map (fun e => str "- " ++ e) errors) ++ lf ++ lf ++
         str "### How to fix:") = true /\
      startsWith (out_text (validationFailedOutput errors))
        (join lf (List.map (fun e => str "- " ++ e) errors) ++ lf ++ lf ++
         str "**How to fix:**") = true /\
      (forall e, e ∈ errors ->
         includes (errorComment errors) (str "- " ++ e) = true /\
         includes (out_text (validationFailedOutput errors)) (str "- " ++ e) = true))).
Proof.
  intros Hi Hne errors run. split.
  - destruct (errors_keep_labels prData yamlContent features s i Hi Hne) as [H1 H2].
    split; [exact H1|]. unfold run. rewrite H2. reflexivity.
  - intros Ha.
    destruct (errors_run prData yamlContent features s i Ha Hi Hne)
      as (s' & Hrun & _ & _ & Hdry & Hwet).
    exists s'. split; [exact Hrun|]. split; [exact Hdry|].
    intros Hd. destruct (Hwet Hd) as [Hchecks Hcomments].
    destruct (errorComment_shape errors) as [Hhead Hall].
    destruct (validationFailedOutput_shape errors) as [Htext Hall'].
    split; [exact Hchecks|]. split; [exact Hcomments|].
    split; [exact Hhead|]. split; [exact Htext|].
    intros e He. split; [apply Hall | apply Hall']; exact He.
Qed.


(** The run of the rule when there is no validation error: no comment is
    created, and the proposed labels are handed to [addLabels]. *)
Lemma success_run (prData : PullRequest) (yamlContent : jstr)
  (features : Features) (s : State) (i : Issue) :
  answered s ->
  issues (world s) !! number prData = Some i ->
  fst (collectLabels features yamlContent (issue_labels i)) = [] ->
  let proposed := snd (collectLabels features yamlContent (issue_labels i)) in
  exists s',
    processReleaseBackportLabeling prData yamlContent features s = (Ok tt, s') /\
    labelsAdded (result s') = labelsAdded (result s) ++ proposed /\
    (forall c, c ∈ comments (world s') -> c ∈ comments (world s)) /\
    (isDryRun cfg = true -> issues (world s') = issues (world s)) /\
    (isDryRun cfg = false ->
     exists i', issues (world s') !! number prData = Some i' /\
                issue_labels i' = Rest.addNew (issue_labels i) proposed).
Proof.
  intros Ha Hi Hnone proposed.
  destruct (collectLabels features yamlContent (issue_labels i)) as [errs labs] eqn:Hc.
  simpl in Hnone, proposed. subst errs proposed.
  unfold processReleaseBackportLabeling.
  destruct (isDryRun cfg) eqn:Hd.
  - unfold createCheckRun at 1. rewrite Hd. erewrite bind_ok by reflexivity.
    destruct (cleanup_run (number prData) markerReleaseBackport s i Ha Hi)
      as (s2 & Hclean & Hrem).
    destruct Hrem as (R1 & R2 & R3 & R4 & R5 & R6 & R7).
    destruct labs as [|l labs].
    + eexists. split.
      * apply tryCatch_ok.
        erewrite bind_ok by (apply getLabels_run; eassumption).
        rewrite Hc. change (0 <? length (@nil jstr))%nat with false. cbv iota.
        erewrite bind_ok by exact Hclean.
        unfold updateCheckRun. rewrite Hd. reflexivity.
      * rewrite R6, app_nil_r.
        repeat split; [exact R7 | intros _; exact R1 | intros; discriminate].
    + eexists. split.
      * apply tryCatch_ok.
        erewrite bind_ok by (apply getLabels_run; eassumption).
        rewrite Hc. change (0 <? length (@nil jstr))%nat with false. cbv iota.
        erewrite bind_ok by exact Hclean.
        change (0 <? length (l :: labs))%nat with true. cbv iota.
        erewrite bind_ok by (apply addLabels_dry; exact Hd).
        erewrite bind_ok by reflexivity.
        erewrite bind_ok by reflexivity.
        unfold updateCheckRun. rewrite Hd. reflexivity.
      * simpl. rewrite R6.
        repeat split; [exact R7 | intros _; exact R1 | intros; discriminate].
  - set (s1 := setWorld (snd (Rest.checksCreate (str "YAML Validation (Release/Backport)")
                                 (head_sha prData) detailsUrl (world s))) s).
    assert (Ha1 : answered s1) by exact Ha.
    assert (Hi1 : issues (world s1) !! number prData = Some i) by exact Hi.
    erewrite bind_ok by (apply createCheckRun_run; [exact Hd | exact Ha]).
    fold s1.
    destruct (cleanup_run (number prData) markerReleaseBackport s1 i Ha1 Hi1)
      as (s2 & Hclean & Hrem).
    destruct Hrem as (R1 & R2 & R3 & R4 & R5 & R6 & R7).
    assert (Ha2 : answered s2) by (unfold answered; rewrite R5; exact Ha).
    assert (Hi2 : issues (world s2) !! number prData = Some i) by (rewrite R1; exact Hi).
    destruct labs as [|l labs].
    + eexists. split.
      * apply tryCatch_ok.
        erewrite bind_ok by (apply getLabels_run; eassumption).
        rewrite Hc. change (0 <? length (@nil jstr))%nat with false. cbv iota.
        erewrite bind_ok by exact Hclean.
        apply updateCheckRun_run; [exact Hd | exact Ha2 |].
        rewrite R2. simpl. apply existsb_last_check. reflexivity.
      * simpl. rewrite R6, app_nil_r.
        repeat split; [exact R7 | intros; discriminate |].
        intros _. exists i. split; [exact Hi2 | reflexivity].
    + eexists. split.
      * apply tryCatch_ok.
        erewrite bind_ok by (apply getLabels_run; eassumption).
        rewrite Hc. change (0 <? length (@nil jstr))%nat with false. cbv iota.
        erewrite bind_ok by exact Hclean.
        change (0 <? length (l :: labs))%nat with true. cbv iota.
        erewrite bind_ok by (apply addLabels_run; eassumption).
        erewrite bind_ok by reflexivity.
        erewrite bind_ok by reflexivity.
        apply updateCheckRun_run; [exact Hd | exact Ha2 |].
        simpl. rewrite R2. simpl. apply existsb_last_check. reflexivity.
      * simpl. rewrite R6.
        repeat split; [exact R7 | intros; discriminate |].
        intros _. eexists. split; [apply lookup_insert_eq | reflexivity].
Qed.

(** C4, as the code has it. Two invocations of the rule on the same pull
    request body, configuration and label state decide the same: with no
    validation error both hand the same proposed labels to [addLabels], and
    the second creates no comment; with validation errors neither adds a
    label, and the second, outside a dry run, posts one more comment with the
    same errors and removes none of the comments that are there.  The comment
    contains the marker of the validation-error comments (the police car
    light U+1F6A8 and the words that follow it). *)
Theorem second_run_same_labels_one_more_comment (prData : PullRequest)
  (yamlContent : jstr) (features : Features) (s1 s2 : State) (i1 i2 : Issue) :
  answered s1 -> answered s2 ->
  issues (world s1) !! number prData = Some i1 ->
  issues (world s2) !! number prData = Some i2 ->
  issue_labels i2 = issue_labels i1 ->
  let errors := fst (collectLabels features yamlContent (issue_labels i1)) in
  let proposed := snd (collectLabels features yamlContent (issue_labels i1)) in
  exists s1' s2',
    processReleaseBackportLabeling prData yamlContent features s1 = (Ok tt, s1') /\
    processReleaseBackportLabeling prData yamlContent features s2 = (Ok tt, s2') /\
    (errors = [] ->
     labelsAdded (result s1') = labelsAdded (result s1) ++ proposed /\
     labelsAdded (result s2') = labelsAdded (result s2) ++ proposed /\
     (forall c, c ∈ comments (world s2') -> c ∈ comments (world s2))) /\
    (errors <> [] ->
     result s1' = result s1 /\ result s2' = result s2 /\
     issues (world s1') = issues (world s1) /\ issues (world s2') = issues (world s2) /\
     (isDryRun cfg = false ->
      comments (world s2') =
      comments (world s2) ++
      [{| comment_id := (nextId (world s2) + 1)%N;
          comment_issue := number prData;
          comment_body := errorComment errors;
          comment_created_at := clock (world s2) |}] /\
      includes (errorComment errors)
        ([55357%N; 57000%N] ++ str " YAML Validation Error: release and backport") = true)).
Proof.
  intros Ha1 Ha2 Hi1 Hi2 Hsame errors proposed.
  destruct errors as [|e errs] eqn:He.
  - assert (He1 : fst (collectLabels features yamlContent (issue_labels i1)) = []) by exact He.
    assert (He2 : fst (collectLabels features yamlContent (issue_labels i2)) = [])
      by (rewrite Hsame; exact He).
    destruct (success_run prData yamlContent features s1 i1 Ha1 Hi1 He1)
      as (s1' & Hrun1 & Hadd1 & _).
    destruct (success_run prData yamlContent features s2 i2 Ha2 Hi2 He2)
      as (s2' & Hrun2 & Hadd2 & Hsub2 & _).
    exists s1', s2'. split; [exact Hrun1|]. split; [exact Hrun2|].
    split; [|intros Habs; contradiction].
    intros _. rewrite Hsame in Hadd2. auto.
  - assert (He1 : fst (collectLabels features yamlContent (issue_labels i1)) <> []).
    { fold errors. rewrite He. discriminate. }
    assert (He2 : fst (collectLabels features yamlContent (issue_labels i2)) <> [])
      by (rewrite Hsame; exact He1).
    destruct (errors_run prData yamlContent features s1 i1 Ha1 Hi1 He1)
      as (s1' & Hrun1 & Hiss1 & Hres1 & _).
    destruct (errors_run prData yamlContent features s2 i2 Ha2 Hi2 He2)
      as (s2' & Hrun2 & Hiss2 & Hres2 & _ & Hpost2).
    exists s1', s2'. split; [exact Hrun1|]. split; [exact Hrun2|].
    split; [intros Habs; discriminate|].
    intros _.
    split; [exact Hres1|]. split; [exact Hres2|].
    split; [exact Hiss1|]. split; [exact Hiss2|].
    intros Hd. destruct (Hpost2 Hd) as [_ Hcomments].
    rewrite Hsame in Hcomments. fold errors in Hcomments. rewrite He in Hcomments.
    split; [exact Hcomments|]. exact (errorComment_has_marker (e :: errs)).
Qed.

(** ** Smart pull-request labeling *)

Lemma hasLabels_run (n : N) (s : State) (i : Issue) :
  answered s -> issues (world s) !! n = Some i ->
  hasLabels n smartPatterns s =
  (Ok [(str "release *", existsb (fun l => startsWith l (str "release ")) (issue_labels i));
       (str "backport *", existsb (fun l => startsWith l (str "backport ")) (issue_labels i));
       (str "triage", arrayIncludes (issue_labels i) (str "triage"));
       (str "ready for review", arrayIncludes (issue_labels i) (str "ready for review"))],
   s).
Proof.
  intros Ha Hi. unfold hasLabels.
  erewrite bind_ok by (apply getLabels_run; eassumption).
  reflexivity.
Qed.

Lemma labelCheck_smart (b1 b2 b3 b4 : bool) :
  let checks := [(str "release *", b1); (str "backport *", b2);
                 (str "triage", b3); (str "ready for review", b4)] in
  labelCheck checks (str "release *") = b1 /\
  labelCheck checks (str "backport *") = b2 /\
  labelCheck checks (str "triage") = b3 /\
  labelCheck checks (str "ready for review") = b4.
Proof. repeat split; vm_compute; reflexivity. Qed.

Lemma release_labels_hyphenated (yamlContent : jstr) (hasExistingLabel : bool) (l : jstr) :
  l ∈ labels (processReleaseLabel yamlContent hasExistingLabel) ->
  exists v, l = str "release-" ++ v.
Proof.
  unfold processReleaseLabel.
  destruct (parseYamlValue yamlContent Release) as [[v|vs]|]; simpl;
    [| |intros H; apply elem_of_nil in H; contradiction].
  - destruct hasExistingLabel; simpl; [intros H; apply elem_of_nil in H; contradiction|].
    destruct (arrayIncludes (getAcceptedReleases cfg) v); simpl; intros H.
    + apply list_elem_of_singleton in H. exists v. exact H.
    + apply elem_of_nil in H. contradiction.
  - destruct hasExistingLabel; simpl; [intros H; apply elem_of_nil in H; contradiction|].
    destruct (0 <? length _)%nat; simpl; [intros H; apply elem_of_nil in H; contradiction|].
    destruct (0 <? length _)%nat; simpl; [|intros H; apply elem_of_nil in H; contradiction].
    intros H. apply list_elem_of_In in H. apply in_map_iff in H as [p [<- _]].
    exists (primToString p). reflexivity.
Qed.

Lemma hyphen_is_no_space (v : jstr) :
  startsWith (str "release-" ++ v) (str "release ") = false.
Proof. reflexivity. Qed.

(** C10. Every label the release rule proposes is "release-" followed by
    the value.  The smart labeling asks [hasLabels] for the pattern
    [release *], which tests the prefix "release " with a space.  So when
    every label of the pull request that starts with "release" is one the
    release rule proposes, the check is false. *)
Theorem proposed_release_labels_not_seen (n : N) (s : State) (i : Issue) :
  (forall yamlContent hasExistingLabel l,
     l ∈ labels (processReleaseLabel yamlContent hasExistingLabel) ->
     exists v, l = str "release-" ++ v) /\
  (answered s -> issues (world s) !! n = Some i ->
   exists checks,
     hasLabels n smartPatterns s = (Ok checks, s) /\
     labelCheck checks (str "release *") =
     existsb (fun l => startsWith l (str "release ")) (issue_labels i) /\
     ((forall l, l ∈ issue_labels i -> startsWith l (str "release") = true ->
         exists yamlContent hasExistingLabel,
           l ∈ labels (processReleaseLabel yamlContent hasExistingLabel)) ->
      labelCheck checks (str "release *") = false)).
Proof.
  split; [apply release_labels_hyphenated|].
  intros Ha Hi. eexists. split; [apply hasLabels_run; eassumption|].
  destruct (labelCheck_smart
              (existsb (fun l => startsWith l (str "release ")) (issue_labels i))
              (existsb (fun l => startsWith l (str "backport ")) (issue_labels i))
              (arrayIncludes (issue_labels i) (str "triage"))
              (arrayIncludes (issue_labels i) (str "ready for review"))) as [H1 _].
  split; [exact H1|]. intros Hown. rewrite H1.
  apply not_true_is_false. intros Hex.
  apply existsb_exists in Hex as [l [Hin Hsp]].
  apply list_elem_of_In in Hin.
  assert (Hrel : startsWith l (str "release") = true).
  { apply startsWith_prefix in Hsp as [r ->]. reflexivity. }
  destruct (Hown l Hin Hrel) as (y & ex & Hl).
  apply release_labels_hyphenated in Hl as [v ->].
  rewrite hyphen_is_no_space in Hsp. discriminate.
Qed.

Lemma hasYamlField_spec (text : jstr) (field : Field) :
  hasYamlField (parseYamlFromText text) field = true <->
  exists y v, parseYamlFromText text = Some y /\ parseYamlValue y field = Some v.
Proof.
  unfold hasYamlField. destruct (parseYamlFromText text) as [[|c y]|].
  - split; [discriminate | intros (y & v & Hy & Hv)].
    injection Hy as <-. discriminate.
  - destruct (parseYamlValue (c :: y) field) as [v|] eqn:Hv.
    + split; [intros _; exists (c :: y), v; auto | reflexivity].
    + split; [discriminate | intros (y' & v' & Hy & Hv')].
      injection Hy as <-. congruence.
  - split; [discriminate | intros (y & v & Hy & _); discriminate].
Qed.

Lemma addNew_missing (l : jstr) (have : list jstr) :
  l ∉ have -> Rest.addNew have [l] = have ++ [l].
Proof.
  intros H. simpl. rewrite arrayIncludes_elem, bool_decide_eq_false_2 by exact H.
  reflexivity.
Qed.

(** The run of [handlePullRequestEvent] from the three conditions it
    computes. *)
Lemma smart_labeling_run (prData : PullRequest) (s : State) (i : Issue) :
  draft prData = false ->
  answered s ->
  issues (world s) !! number prData = Some i ->
  let have := issue_labels i in
  let yamlContent := parseYamlFromText (default [] (body prData)) in
  let hasRelease :=
    existsb (fun l => startsWith l (str "release ")) have || hasYamlField yamlContent Release in
  let hasBackport :=
    existsb (fun l => startsWith l (str "backport ")) have || hasYamlField yamlContent Backport in
  let toAdd :=
    if hasRelease then missing (str "ready for review") have
    else if negb hasBackport then missing (str "triage") have
    else [] in
  exists s',
    handlePullRequestEvent prData s = (Ok tt, s') /\
    labelsAdded (result s') = labelsAdded (result s) ++ toAdd /\
    (isDryRun cfg = true -> issues (world s') = issues (world s)) /\
    (isDryRun cfg = false ->
     exists i', issues (world s') !! number prData = Some i' /\
                issue_labels i' = have ++ toAdd /\
                forall m, m <> number prData ->
                          issues (world s') !! m = issues (world s) !! m).
Proof.
  intros Hdraft Ha Hi have yamlContent hasRelease hasBackport toAdd.
  unfold handlePullRequestEvent. rewrite Hdraft.
  set (s0 := if isDryRun cfg then s
             else setWorld (setClock (clock (world s) + 10000) (world s)) s).
  assert (Hsleep : (if negb (isDryRun cfg) then sleep 10000 else ret tt) s = (Ok tt, s0)).
  { unfold s0. destruct (isDryRun cfg); reflexivity. }
  assert (Ha0 : answered s0) by (unfold s0; destruct (isDryRun cfg); exact Ha).
  assert (Hi0 : issues (world s0) !! number prData = Some i)
    by (unfold s0; destruct (isDryRun cfg); exact Hi).
  assert (Hiss0 : issues (world s0) = issues (world s))
    by (unfold s0; destruct (isDryRun cfg); reflexivity).
  assert (Hres0 : result s0 = result s)
    by (unfold s0; destruct (isDryRun cfg); reflexivity).
  erewrite bind_ok by exact Hsleep.
  clearbody s0. clear Hsleep.
  destruct (labelCheck_smart
              (existsb (fun l => startsWith l (str "release ")) have)
              (existsb (fun l => startsWith l (str "backport ")) have)
              (arrayIncludes have (str "triage"))
              (arrayIncludes have (str "ready for review"))) as (C1 & C2 & C3 & C4).
  assert (Hbody :
    forall _ : unit,
      (let* currentLabels := getLabels (number prData) in
       let* labelChecks := hasLabels (number prData) smartPatterns in
       if (labelCheck labelChecks (str "release *") || hasYamlField yamlContent Release) &&
          negb false
       then handleReadyForReviewLabel (number prData)
              (labelCheck labelChecks (str "ready for review"))
       else if negb (labelCheck labelChecks (str "backport *")) &&
               negb (hasYamlField yamlContent Backport)
            then handleTriageLabel (number prData) (labelCheck labelChecks (str "triage"))
                   (labelCheck labelChecks (str "release *") || hasYamlField yamlContent Release)
            else ret tt) s0 =
      (if hasRelease
       then handleReadyForReviewLabel (number prData) (arrayIncludes have (str "ready for review"))
       else if negb hasBackport
            then handleTriageLabel (number prData) (arrayIncludes have (str "triage")) false
            else ret tt) s0).
  { intros _.
    erewrite bind_ok by (apply getLabels_run; eassumption).
    erewrite bind_ok by (apply hasLabels_run; eassumption).
    fold have. rewrite C1, C2, C3, C4. fold hasRelease.
    rewrite andb_true_r, <- negb_orb. fold hasBackport.
    destruct hasRelease; reflexivity. }
  assert (Hensure :
    forall (l action : jstr),
      exists s',
        (let* result := addLabels (number prData) [l] in
         if (0 <? length (added result))%nat
         then pushLabelsAdded (added result) >> pushAction action
         else ret tt) s0 = (Ok tt, s') /\
        labelsAdded (result s') = labelsAdded (result s) ++ [l] /\
        (isDryRun cfg = true -> issues (world s') = issues (world s)) /\
        (isDryRun cfg = false ->
         issues (world s') =
         <[number prData := setLabels (Rest.addNew have [l]) i]> (issues (world s)))).
  { intros l action. destruct (isDryRun cfg) eqn:Hd.
    - eexists. split.
      + erewrite bind_ok by (apply addLabels_dry; exact Hd). reflexivity.
      + simpl. rewrite Hres0, Hiss0. repeat split; intros; discriminate.
    - eexists. split.
      + erewrite bind_ok by (apply addLabels_run; eassumption). reflexivity.
      + simpl. rewrite Hres0, Hiss0. repeat split; intros; discriminate. }
  assert (Hnothing :
    exists s', (Ok tt, s0) = (Ok tt, s') /\
      labelsAdded (result s') = labelsAdded (result s) ++ [] /\
      (isDryRun cfg = true -> issues (world s') = issues (world s)) /\
      (isDryRun cfg = false ->
       exists i', issues (world s') !! number prData = Some i' /\
                  issue_labels i' = have ++ [] /\
                  forall m, m <> number prData ->
                            issues (world s') !! m = issues (world s) !! m)).
  { exists s0. rewrite Hres0, Hiss0, !app_nil_r. repeat split.
    intros _. exists i. repeat split. exact Hi. }
  assert (Hcase :
    forall (l action : jstr),
      exists s',
        (if negb (arrayIncludes have l)
         then
           let* result := addLabels (number prData) [l] in
           if (0 <? length (added result))%nat
           then pushLabelsAdded (added result) >> pushAction action
           else ret tt
         else ret tt) s0 = (Ok tt, s') /\
        labelsAdded (result s') = labelsAdded (result s) ++ missing l have /\
        (isDryRun cfg = true -> issues (world s') = issues (world s)) /\
        (isDryRun cfg = false ->
         exists i', issues (world s') !! number prData = Some i' /\
                    issue_labels i' = have ++ missing l have /\
                    forall m, m <> number prData ->
                              issues (world s') !! m = issues (world s) !! m)).
  { intros l action. unfold missing. rewrite arrayIncludes_elem.
    destruct (decide (l ∈ have)) as [Hin|Hout].
    - rewrite bool_decide_eq_true_2 by exact Hin. simpl. exact Hnothing.
    - rewrite bool_decide_eq_false_2 by exact Hout. simpl.
      destruct (Hensure l action) as (s' & Hrun & Hadd & Hdry & Hwet).
      exists s'. repeat split; try assumption.
      intros Hd. rewrite (Hwet Hd), (addNew_missing l have Hout).
      eexists. split; [apply lookup_insert_eq|]. split; [reflexivity|].
      intros m Hm. apply lookup_insert_ne. congruence. }
  unfold toAdd.
  destruct hasRelease.
  - destruct (Hcase (str "ready for review")
                (str "Added " ++ dquote ++ str "ready for review" ++ dquote ++
                 str " label to PR #" ++ ofN (number prData) ++
                 str " (has release label, not draft)"))
      as (s' & Hrun & Hrest).
    exists s'. split; [|exact Hrest].
    apply tryCatch_ok. etransitivity; [apply (Hbody tt)|]. exact Hrun.
  - destruct hasBackport; simpl.
    + destruct Hnothing as (s' & Hrun & Hrest).
      exists s'. split; [|exact Hrest].
      apply tryCatch_ok. etransitivity; [apply (Hbody tt)|]. exact Hrun.
    + destruct (Hcase (str "triage")
                  (str "Added triage label to PR #" ++ ofN (number prData) ++
                   str " (" ++ str "no release/backport label" ++ str ")"))
        as (s' & Hrun & Hrest).
      exists s'. split; [|exact Hrest].
      apply tryCatch_ok. etransitivity; [apply (Hbody tt)|]. exact Hrun.
Qed.

Lemma signal_spec (have : list jstr) (prefix text : jstr) (field : Field) :
  existsb (fun l => startsWith l prefix) have ||
  hasYamlField (parseYamlFromText text) field = true <->
  (exists l, l ∈ have /\ startsWith l prefix = true) \/
  (exists y v, parseYamlFromText text = Some y /\ parseYamlValue y field = Some v).
Proof.
  rewrite orb_true_iff, hasYamlField_spec, existsb_exists.
  split; intros [H|H]; [left | right | left | right]; try exact H.
  - destruct H as [l [Hin Hp]]. exists l. split; [apply list_elem_of_In|]; assumption.
  - destruct H as [l [Hin Hp]]. exists l. split; [apply list_elem_of_In|]; assumption.
Qed.

(** C5. For a pull request that is not a draft: when it has a label with the
    prefix "release " or the YAML block of its body has a release field, the
    label [ready for review] is added if it is missing; otherwise, when it
    has neither a label with the prefix "backport " nor a backport field,
    the label [triage] is added if it is missing; otherwise no label is added.
    The label to add is reported in [labelsAdded] and, outside a dry run, put
    on the pull request; no other issue or pull request changes. *)
Theorem smart_labeling_decision (prData : PullRequest) (s : State) (i : Issue) :
  draft prData = false ->
  answered s ->
  issues (world s) !! number prData = Some i ->
  let have := issue_labels i in
  let text := default [] (body prData) in
  let releaseSignal :=
    (exists l, l ∈ have /\ startsWith l (str "release ") = true) \/
    (exists y v, parseYamlFromText text = Some y /\ parseYamlValue y Release = Some v) in
  let backportSignal :=
    (exists l, l ∈ have /\ startsWith l (str "backport ") = true) \/
    (exists y v, parseYamlFromText text = Some y /\ parseYamlValue y Backport = Some v) in
  exists s' toAdd,
    handlePullRequestEvent prData s = (Ok tt, s') /\
    (releaseSignal -> toAdd = missing (str "ready for review") have) /\
    (~ releaseSignal -> ~ backportSignal -> toAdd = missing (str "triage") have) /\
    (~ releaseSignal -> backportSignal -> toAdd = []) /\
    labelsAdded (result s') = labelsAdded (result s) ++ toAdd /\
    (isDryRun cfg = true -> issues (world s') = issues (world s)) /\
    (isDryRun cfg = false ->
     exists i', issues (world s') !! number prData = Some i' /\
                issue_labels i' = have ++ toAdd /\
                forall m, m <> number prData ->
                          issues (world s') !! m = issues (world s) !! m).
Proof.
  intros Hdraft Ha Hi have text releaseSignal backportSignal.
  destruct (smart_labeling_run prData s i Hdraft Ha Hi) as (s' & Hrun & Hrest).
  fold have text in Hrest.
  pose proof (signal_spec have (str "release ") text Release) as Hrel.
  pose proof (signal_spec have (str "backport ") text Backport) as Hbp.
  fold releaseSignal in Hrel. fold backportSignal in Hbp.
  destruct (existsb (fun l => startsWith l (str "release ")) have ||
            hasYamlField (parseYamlFromText text) Release) eqn:Er.
  - exists s', (missing (str "ready for review") have).
    split; [exact Hrun|]. split; [reflexivity|].
    split; [intros Hn; exfalso; apply Hn, Hrel; reflexivity|].
    split; [intros Hn; exfalso; apply Hn, Hrel; reflexivity|].
    exact Hrest.
  - destruct (existsb (fun l => startsWith l (str "backport ")) have ||
              hasYamlField (parseYamlFromText text) Backport) eqn:Eb.
    + exists s', [].
      split; [exact Hrun|].
      split; [intros Hr; apply Hrel in Hr; discriminate|].
      split; [intros _ Hn; exfalso; apply Hn, Hbp; reflexivity|].
      split; [reflexivity|].
      exact Hrest.
    + exists s', (missing (str "triage") have).
      split; [exact Hrun|].
      split; [intros Hr; apply Hrel in Hr; discriminate|].
      split; [reflexivity|].
      split; [intros _ Hb; apply Hbp in Hb; discriminate|].
      exact Hrest.
Qed.

(** ** Stale detection *)

Lemma listPRCommits_run (n : N) (s : State) (i : Issue) :
  answered s -> issues (world s) !! n = Some i ->
  listPRCommits n s = (Ok (commit_dates i), s).
Proof.
  intros Ha Hi. unfold listPRCommits. apply tryCatch_ok.
  rewrite rest_answered by exact Ha. unfold Rest.listCommits. rewrite Hi.
  simpl. rewrite setWorld_same. reflexivity.
Qed.

Lemma listPRReviewComments_run (n : N) (s : State) (i : Issue) :
  answered s -> issues (world s) !! n = Some i ->
  listPRReviewComments n s = (Ok (review_comment_dates i), s).
Proof.
  intros Ha Hi. unfold listPRReviewComments. apply tryCatch_ok.
  rewrite rest_answered by exact Ha. unfold Rest.listReviewComments. rewrite Hi.
  simpl. rewrite setWorld_same. reflexivity.
Qed.

Lemma listPRReviews_run (n : N) (s : State) (i : Issue) :
  answered s -> issues (world s) !! n = Some i ->
  listPRReviews n s = (Ok (review_dates i), s).
Proof.
  intros Ha Hi. unfold listPRReviews. apply tryCatch_ok.
  rewrite rest_answered by exact Ha. unfold Rest.listReviews. rewrite Hi.
  simpl. rewrite setWorld_same. reflexivity.
Qed.

Lemma listTimelineEvents_run (n : N) (s : State) (i : Issue) :
  answered s -> issues (world s) !! n = Some i ->
  listTimelineEvents n s = (Ok (timeline i), s).
Proof.
  intros Ha Hi. unfold listTimelineEvents. apply tryCatch_ok.
  rewrite rest_answered by exact Ha. unfold Rest.listEventsForTimeline. rewrite Hi.
  simpl. rewrite setWorld_same. reflexivity.
Qed.

Lemma getLastActivityDate_run (n : N) (s : State) (i : Issue) :
  answered s -> issues (world s) !! n = Some i ->
  getLastActivityDate n s =
  (Ok (maxDate (updated_at i) (otherActivity n i (comments (world s)))), s).
Proof.
  intros Ha Hi. unfold getLastActivityDate.
  erewrite bind_ok.
  2:{ apply tryCatch_ok. erewrite bind_ok by (apply getPR_run; eassumption). reflexivity. }
  erewrite bind_ok by (apply listPRCommits_run; eassumption).
  erewrite bind_ok.
  2:{ apply tryCatch_ok. erewrite bind_ok by (eapply listComments_run; eassumption).
      reflexivity. }
  erewrite bind_ok by (apply listPRReviewComments_run; eassumption).
  erewrite bind_ok by (apply listPRReviews_run; eassumption).
  erewrite bind_ok by (apply listTimelineEvents_run; eassumption).
  reflexivity.
Qed.






(** ** The feature-branch rule *)

Lemma errorMsg_names_values (v : jstr) :
  includes (featureBranchErrorMsg v) (str "Accepted values: true, false") = true.
Proof.
  unfold featureBranchErrorMsg. do 3 apply includes_skip. reflexivity.
Qed.

Lemma errorComment_has_message (msg : jstr) :
  includes (featureBranchErrorComment msg) msg = true.
Proof.
  unfold featureBranchErrorComment. do 5 apply includes_skip. apply includes_head.
Qed.

(** The comment of [handleFeatureBranchValidationError] opens with the
    heading and the line of the message. *)
Lemma featureBranchErrorComment_shape (msg : jstr) :
  startsWith (featureBranchErrorComment msg)
    (str "## " ++ [55357%N; 57000%N] ++ str " YAML Validation Error: feature branch" ++
     lf ++ lf ++ str "- " ++ msg ++ lf ++ lf ++ str "### How to fix:") = true.
Proof.
  apply startsWith_prefix. eexists.
  unfold featureBranchErrorComment, markerFeatureBranch, policeLight.
  rewrite <- !app_assoc. reflexivity.
Qed.

Lemma complete_after_cleanup (n : N) (identifier concl : jstr) (out : CheckOutput)
  (id : CheckId) (c : CheckRun) (s : State) (i : Issue) :
  answered s -> issues (world s) !! n = Some i ->
  (isDryRun cfg = false -> createdCheck id c s) ->
  exists s',
    (cleanupWorkflowComments n identifier >>
     updateCheckRun id (str "completed") concl out) s = (Ok tt, s') /\
    issues (world s') = issues (world s) /\
    result s' = result s /\
    (forall x, x ∈ comments (world s') -> x ∈ comments (world s)) /\
    (isDryRun cfg = false ->
     exists before,
       checks (world s') = before ++ [Rest.updateCheck (str "completed") concl out c]).
Proof.
  intros Ha Hi Hcheck.
  destruct (cleanup_run n identifier s i Ha Hi) as (s2 & Hclean & Hrem).
  destruct Hrem as (R1 & R2 & R3 & R4 & R5 & R6 & R7).
  assert (Ha2 : answered s2) by (unfold answered; rewrite R5; exact Ha).
  destruct (isDryRun cfg) eqn:Hd.
  - exists s2. split.
    + erewrite bind_ok by exact Hclean. unfold updateCheckRun. rewrite Hd. reflexivity.
    + split; [exact R1|]. split; [exact R6|]. split; [exact R7 | intros; discriminate].
  - destruct (Hcheck eq_refl) as (before & -> & Hchecks).
    eexists. split.
    + erewrite bind_ok by exact Hclean.
      apply updateCheckRun_run; [exact Hd | exact Ha2 |].
      rewrite R2, Hchecks. apply existsb_last_check. reflexivity.
    + simpl. split; [exact R1|]. split; [exact R6|]. split; [exact R7|].
      intros _. rewrite R2, Hchecks, map_app. simpl. rewrite N.eqb_refl.
      eexists. reflexivity.
Qed.

(** C6, as the code has it. On a pull request without the feature-branch
    label the field is read after comment removal, trimming and the removal of
    one quote at each end; the spellings "TRUE" in double quotes, 'false' in
    single quotes, True and false give the scalars whose lower-case forms are
    true and false.  A scalar that is true in lower case adds the label, one
    that is false adds none, and both complete the check run with success; any
    other scalar adds no label, completes the check run with failure and
    posts a comment whose message names the accepted values true, false; the
    comment opens with the heading of the feature-branch validation error
    (the police car light U+1F6A8 written as its two code units) and the
    line of the message.  (A value written in array syntax is no scalar and
    is not covered.) *)
Theorem feature_branch_scalar_values (prData : PullRequest) (yamlContent : jstr)
  (s : State) (i : Issue) (v : jstr) :
  (let field := str "needs_feature_branch: " in
   parseYamlValue (field ++ dquote ++ str "TRUE" ++ dquote) NeedsFeatureBranch
     = Some (Scalar (str "TRUE")) /\
   parseYamlValue (field ++ str "'false'") NeedsFeatureBranch = Some (Scalar (str "false")) /\
   parseYamlValue (field ++ str "True") NeedsFeatureBranch = Some (Scalar (str "True")) /\
   parseYamlValue (field ++ str "false") NeedsFeatureBranch = Some (Scalar (str "false")) /\
   parseYamlValue (field ++ str "maybe") NeedsFeatureBranch = Some (Scalar (str "maybe")) /\
   toLowerCase (str "TRUE") = str "true" /\ toLowerCase (str "True") = str "true" /\
   toLowerCase (str "false") = str "false" /\
   toLowerCase (str "maybe") <> str "true" /\ toLowerCase (str "maybe") <> str "false") /\
  (answered s ->
   issues (world s) !! number prData = Some i ->
   str "feature-branch" ∉ issue_labels i ->
   parseYamlValue yamlContent NeedsFeatureBranch = Some (Scalar v) ->
   exists s',
     processFeatureBranchLabeling prData yamlContent s = (Ok tt, s') /\
     (toLowerCase v = str "true" ->
      labelsAdded (result s') = labelsAdded (result s) ++ [str "feature-branch"] /\
      (forall x, x ∈ comments (world s') -> x ∈ comments (world s)) /\
      (isDryRun cfg = false ->
       (exists i', issues (world s') !! number prData = Some i' /\
                   issue_labels i' = issue_labels i ++ [str "feature-branch"]) /\
       exists before,
         checks (world s') =
         before ++ [Rest.updateCheck (str "completed") (str "success")
                      featureBranchAddedOutput (featureBranchCheck prData s)])) /\
     (toLowerCase v = str "false" ->
      result s' = result s /\ issues (world s') = issues (world s) /\
      (forall x, x ∈ comments (world s') -> x ∈ comments (world s)) /\
      (isDryRun cfg = false ->
       exists before,
         checks (world s') =
         before ++ [Rest.updateCheck (str "completed") (str "success")
                      featureBranchFalseOutput (featureBranchCheck prData s)])) /\
     (toLowerCase v <> str "true" -> toLowerCase v <> str "false" ->
      result s' = result s /\ issues (world s') = issues (world s) /\
      includes (featureBranchErrorMsg v) (str "Accepted values: true, false") = true /\
      includes (featureBranchErrorComment (featureBranchErrorMsg v)) (featureBranchErrorMsg v) = true /\
      startsWith (featureBranchErrorComment (featureBranchErrorMsg v))
        (str "## " ++ [55357%N; 57000%N] ++ str " YAML Validation Error: feature branch" ++
         lf ++ lf ++ str "- " ++ featureBranchErrorMsg v ++ lf ++ lf ++
         str "### How to fix:") = true /\
      (isDryRun cfg = true -> s' = s) /\
      (isDryRun cfg = false ->
       (exists before,
          checks (world s') =
          before ++ [Rest.updateCheck (str "completed") (str "failure")
                       (featureBranchFailedOutput (featureBranchErrorMsg v))
                       (featureBranchCheck prData s)]) /\
       comments (world s') =
       comments (world s) ++
       [{| comment_id := (nextId (world s) + 1)%N;
           comment_issue := number prData;
           comment_body := featureBranchErrorComment (featureBranchErrorMsg v);
           comment_created_at := clock (world s) |}]))).
Proof.
  split; [repeat split; try reflexivity; vm_compute; discriminate|].
  intros Ha Hi Hnot Hparse.
  assert (Hhas : arrayIncludes (issue_labels i) (str "feature-branch") = false).
  { rewrite arrayIncludes_elem. apply bool_decide_eq_false_2. exact Hnot. }
  set (s1 := if isDryRun cfg then s
             else setWorld (snd (Rest.checksCreate (str "YAML Validation (Feature Branch)")
                                   (head_sha prData) detailsUrl (world s))) s).
  set (id := if isDryRun cfg then DryRunCheckId else CheckNumber (nextId (world s))).
  assert (Hcreate : createCheckRun (str "YAML Validation (Feature Branch)")
                      (head_sha prData) detailsUrl s = (Ok id, s1)).
  { unfold id, s1. destruct (isDryRun cfg) eqn:Hd.
    - unfold createCheckRun. rewrite Hd. reflexivity.
    - apply createCheckRun_run; [exact Hd | exact Ha]. }
  assert (Ha1 : answered s1) by (unfold s1; destruct (isDryRun cfg); exact Ha).
  assert (Hi1 : issues (world s1) !! number prData = Some i)
    by (unfold s1; destruct (isDryRun cfg); exact Hi).
  assert (Hiss1 : issues (world s1) = issues (world s))
    by (unfold s1; destruct (isDryRun cfg); reflexivity).
  assert (Hres1 : result s1 = result s)
    by (unfold s1; destruct (isDryRun cfg); reflexivity).
  assert (Hcom1 : comments (world s1) = comments (world s))
    by (unfold s1; destruct (isDryRun cfg); reflexivity).
  assert (Hnext1 : isDryRun cfg = false -> nextId (world s1) = (nextId (world s) + 1)%N)
    by (unfold s1; destruct (isDryRun cfg); [discriminate | reflexivity]).
  assert (Hclock1 : clock (world s1) = clock (world s))
    by (unfold s1; destruct (isDryRun cfg); reflexivity).
  assert (Hdry1 : isDryRun cfg = true -> s1 = s)
    by (unfold s1; destruct (isDryRun cfg); [reflexivity | discriminate]).
  assert (Hcheck1 : isDryRun cfg = false -> createdCheck id (featureBranchCheck prData s) s1).
  { intros Hd. unfold id, s1. rewrite Hd. exists (checks (world s)). split; reflexivity. }
  unfold processFeatureBranchLabeling.
  erewrite bind_ok by exact Hcreate.
  clearbody s1 id. clear Hcreate.
  destruct (decide (toLowerCase v = str "true")) as [Htrue|Hntrue].
  - (* true: add the label *)
    destruct (addLabels_any (number prData) [str "feature-branch"] s1 i Ha1 Hi1)
      as (s2 & Hadd & Ha2 & Hres2 & Hcom2 & Hchk2 & Hdry2 & Hwet2).
    set (s4 := setResult
                 {| labelsAdded := labelsAdded (result s2) ++ [str "feature-branch"];
                    actions := actions (result s2) ++
                               [str "Added feature-branch label to PR #" ++ ofN (number prData)];
                    summary := summary (result s2);
                    stalePRsFound := stalePRsFound (result s2) |} s2).
    assert (Hi4 : exists i', issues (world s4) !! number prData = Some i' /\
                    (isDryRun cfg = false ->
                     issue_labels i' = issue_labels i ++ [str "feature-branch"])).
    { simpl. destruct (isDryRun cfg) eqn:Hd.
      - exists i. rewrite (Hdry2 eq_refl). split; [exact Hi1 | discriminate].
      - rewrite (Hwet2 eq_refl). eexists. split; [apply lookup_insert_eq|]. intros _.
        apply (addNew_missing _ _ Hnot). }
    destruct Hi4 as (i4 & Hi4 & Hlab4).
    assert (Hcheck4 : isDryRun cfg = false -> createdCheck id (featureBranchCheck prData s) s4).
    { intros Hd. destruct (Hcheck1 Hd) as (before & Hid & Hchecks).
      exists before. split; [exact Hid|]. simpl. rewrite Hchk2. exact Hchecks. }
    destruct (complete_after_cleanup (number prData) markerFeatureBranch (str "success")
                featureBranchAddedOutput id _ s4 i4 Ha2 Hi4 Hcheck4)
      as (s' & Hfin & F1 & F2 & F3 & F4).
    exists s'. split.
    + apply tryCatch_ok.
      erewrite bind_ok by (apply getLabels_run; eassumption).
      rewrite Hhas, Hparse. cbv zeta. rewrite Htrue.
      change (eqb (str "true") (str "true")) with true. cbv iota.
      erewrite bind_ok by exact Hadd.
      erewrite bind_ok by reflexivity.
      erewrite bind_ok by reflexivity.
      exact Hfin.
    + split; [|split; intros Habs; [rewrite Htrue in Habs; vm_compute in Habs; discriminate
                                    | contradiction]].
      intros _. rewrite F2. split.
      * simpl. rewrite Hres2, Hres1. reflexivity.
      * split.
        -- intros x Hx. apply F3 in Hx. rewrite <- Hcom1, <- Hcom2. exact Hx.
        -- intros Hd. split; [|exact (F4 Hd)].
           exists i4. split; [rewrite F1; exact Hi4 | exact (Hlab4 Hd)].
  - destruct (decide (toLowerCase v = str "false")) as [Hfalse|Hnfalse].
    + (* false: nothing to add *)
      destruct (complete_after_cleanup (number prData) markerFeatureBranch (str "success")
                  featureBranchFalseOutput id _ s1 i Ha1 Hi1 Hcheck1)
        as (s' & Hfin & F1 & F2 & F3 & F4).
      exists s'. split.
      * apply tryCatch_ok.
        erewrite bind_ok by (apply getLabels_run; eassumption).
        rewrite Hhas, Hparse. cbv zeta. rewrite Hfalse.
        change (eqb (str "false") (str "true")) with false.
        change (eqb (str "false") (str "false")) with true. cbv iota. exact Hfin.
      * split; [intros Habs; contradiction|].
        split; [|intros _ Habs; contradiction].
        intros _. rewrite F1, F2, Hres1, Hiss1.
        split; [reflexivity|]. split; [reflexivity|].
        split; [|exact F4]. intros x Hx. rewrite <- Hcom1. exact (F3 x Hx).
    + (* anything else: a validation error *)
      assert (Hlow : eqb (toLowerCase v) (str "true") = false /\
                     eqb (toLowerCase v) (str "false") = false /\
                     eqb (toLowerCase v) [] = false).
      { unfold eqb. repeat split; apply bool_decide_eq_false_2; try assumption.
        intros Hempty. destruct v as [|c v'].
        - unfold parseYamlValue in Hparse.
          destruct yamlContent; [discriminate|].
          destruct (rawValueOf _ _) as [[|r0 raw]|]; try discriminate.
          destruct (startsWith _ _ && endsWith _ _).
          + destruct (parseYamlArrayValue _); discriminate.
          + destruct (stripQuotes _); discriminate.
        - discriminate. }
      destruct Hlow as (L1 & L2 & L3).
      destruct (isDryRun cfg) eqn:Hd.
      * exists s1. split.
        -- apply tryCatch_ok.
           erewrite bind_ok by (apply getLabels_run; eassumption).
           rewrite Hhas, Hparse. cbv zeta. rewrite L1, L2, L3. cbv iota.
           unfold handleFeatureBranchValidationError, updateCheckRun, createComment.
           rewrite Hd. reflexivity.
        -- split; [intros Habs; contradiction|].
           split; [intros Habs; contradiction|].
           intros _ _. rewrite Hres1, Hiss1.
           split; [reflexivity|]. split; [reflexivity|].
           split; [apply errorMsg_names_values|].
           split; [apply errorComment_has_message|].
           split; [apply featureBranchErrorComment_shape|].
           split; [intros _; apply Hdry1; reflexivity | intros; discriminate].
      * destruct (Hcheck1 eq_refl) as (before & Hid & Hchecks). subst id.
        eexists. split.
        -- apply tryCatch_ok.
           erewrite bind_ok by (apply getLabels_run; eassumption).
           rewrite Hhas, Hparse. cbv zeta. rewrite L1, L2, L3.
           change (false || false) with false. cbv iota.
           unfold handleFeatureBranchValidationError.
           erewrite bind_ok.
           2:{ apply updateCheckRun_run; [exact Hd | exact Ha1 |].
               rewrite Hchecks. apply existsb_last_check. reflexivity. }
           eapply createComment_run; [exact Hd | exact Ha1 | exact Hi1].
        -- split; [intros Habs; contradiction|].
           split; [intros Habs; contradiction|].
           intros _ _.
           split; [simpl; rewrite Hres1; reflexivity|].
           split; [simpl; rewrite Hiss1; reflexivity|].
           split; [apply errorMsg_names_values|].
           split; [apply errorComment_has_message|].
           split; [apply featureBranchErrorComment_shape|].
           split; [intros; discriminate|]. intros _. simpl.
           rewrite Hchecks, map_app, Hcom1, Hclock1, (Hnext1 eq_refl). simpl.
           rewrite N.eqb_refl. split; [eexists; reflexivity | reflexivity].
Qed.

(** * Further properties of the code *)

(** ** The block extractor *)

Lemma takeWhile_dropWhile (p : N -> bool) (s : jstr) :
  s = takeWhile p s ++ dropWhile p s.
Proof. induction s as [|c s IH]; simpl; [reflexivity|]. destruct (p c); simpl; congruence. Qed.

Lemma takeWhile_all (p : N -> bool) (s : jstr) : forallb p (takeWhile p s) = true.
Proof. induction s as [|c s IH]; simpl; [reflexivity|]. destruct (p c) eqn:H; simpl; [rewrite H; exact IH | reflexivity]. Qed.

Lemma dropWhile_all (p : N -> bool) (ws t : jstr) :
  forallb p ws = true -> dropWhile p (ws ++ t) = dropWhile p t.
Proof.
  induction ws as [|c ws IH]; simpl; [reflexivity|].
  intros H. apply andb_true_iff in H as [Hc Hws]. rewrite Hc. exact (IH Hws).
Qed.

Lemma closesHere_fence (r : jstr) :
  closesHere r = true ->
  exists ws rest, r = [10%N] ++ ws ++ fence ++ rest /\ forallb isWhiteSpace ws = true.
Proof.
  destruct r as [|c r]; [discriminate|]. unfold closesHere.
  intros H. apply andb_true_iff in H as [Hc Hf]. apply N.eqb_eq in Hc. subst c.
  apply startsWith_prefix in Hf as [rest Hrest].
  exists (takeWhile isWhiteSpace r), rest. split; [|apply takeWhile_all].
  rewrite <- Hrest. rewrite <- takeWhile_dropWhile. reflexivity.
Qed.

Lemma lazyCapture_unfold (r : jstr) :
  lazyCapture r =
  if closesHere r then Some []
  else match r with
       | c :: r' => match lazyCapture r' with Some cap => Some (c :: cap) | None => None end
       | [] => None
       end.
Proof. destruct r; reflexivity. Qed.

Lemma lazyCapture_first (r cap : jstr) :
  lazyCapture r = Some cap ->
  exists post,
    r = cap ++ post /\ closesHere post = true /\
    forall y1 y2, cap = y1 ++ y2 -> y2 <> [] -> closesHere (y2 ++ post) = false.
Proof.
  revert cap. induction r as [|c r IH]; intros cap; rewrite lazyCapture_unfold.
  - simpl. discriminate.
  - destruct (closesHere (c :: r)) eqn:Hc.
    + intros H. injection H as <-. exists (c :: r). split; [reflexivity|]. split; [exact Hc|].
      intros y1 y2 Hsplit Hne. symmetry in Hsplit. apply app_eq_nil in Hsplit as [_ ->].
      contradiction.
    + destruct (lazyCapture r) as [cap'|]; [|discriminate].
      intros H. injection H as <-.
      destruct (IH cap' eq_refl) as (post & Hr & Hclose & Hmin).
      exists post. split; [simpl; rewrite <- Hr; reflexivity|]. split; [exact Hclose|].
      intros y1 y2 Hsplit Hne. destruct y1 as [|d y1].
      * simpl in Hsplit. subst y2. simpl. rewrite <- Hr. exact Hc.
      * simpl in Hsplit. injection Hsplit as _ Hsplit. exact (Hmin y1 y2 Hsplit Hne).
Qed.

Lemma openCapture_spec (r cap : jstr) :
  openCapture r = Some cap ->
  exists ws, forallb isWhiteSpace ws = true /\ lazyCapture (skipn (length ws + 1) r) = Some cap /\
             firstn (length ws + 1) r = ws ++ [10%N].
Proof.
  revert cap. induction r as [|c r IH]; intros cap; simpl; [discriminate|].
  destruct (isWhiteSpace c) eqn:Hws; [|discriminate].
  destruct (openCapture r) as [cap'|] eqn:Hopen.
  - intros H. injection H as <-.
    destruct (IH cap' eq_refl) as (ws & Hall & Hlazy & Hfirst).
    exists (c :: ws). simpl. rewrite Hws, Hall. split; [reflexivity|].
    split; [exact Hlazy | rewrite Hfirst; reflexivity].
  - destruct (c =? 10)%N eqn:Hc; [|discriminate]. apply N.eqb_eq in Hc. subst c.
    intros H. exists []. simpl. split; [reflexivity|]. split; [exact H | reflexivity].
Qed.

Lemma firstYamlBlock_unfold (text : jstr) :
  firstYamlBlock text =
  match (if startsWith text fenceYaml then openCapture (skipn 7 text) else None) with
  | Some cap => Some cap
  | None => match text with _ :: text' => firstYamlBlock text' | [] => None end
  end.
Proof. destruct text; reflexivity. Qed.

Lemma firstYamlBlock_spec (text cap : jstr) :
  firstYamlBlock text = Some cap ->
  exists pre r, text = pre ++ fenceYaml ++ r /\ openCapture r = Some cap.
Proof.
  induction text as [|c text IH]; rewrite firstYamlBlock_unfold.
  - simpl. discriminate.
  - destruct (startsWith (c :: text) fenceYaml) eqn:Hs.
    + destruct (openCapture (skipn 7 (c :: text))) as [cap'|] eqn:Hopen.
      * intros H. injection H as <-.
        apply startsWith_prefix in Hs as [r Hr]. rewrite Hr in Hopen |- *.
        exists [], r. split; [reflexivity | exact Hopen].
      * intros H. destruct (IH H) as (pre & r & -> & Hr).
        exists (c :: pre), r. split; [reflexivity | exact Hr].
    + intros H. destruct (IH H) as (pre & r & -> & Hr).
      exists (c :: pre), r. split; [reflexivity | exact Hr].
Qed.

(** X1. The block [parseYamlFromText] returns lies between an opening fence
    with [yaml], whitespace and a line feed, and a closing part made of a line
    feed, whitespace and a fence; and it ends at the first such closing part:
    no proper suffix of the block, followed by what follows the block, starts
    a closing part. *)
Theorem yaml_block_is_fenced (text y : jstr) :
  parseYamlFromText text = Some y ->
  exists pre ws ws' rest,
    text = pre ++ fenceYaml ++ ws ++ [10%N] ++ y ++ [10%N] ++ ws' ++ fence ++ rest /\
    forallb isWhiteSpace ws = true /\
    forallb isWhiteSpace ws' = true /\
    forall y1 y2, y = y1 ++ y2 -> y2 <> [] ->
                  closesHere (y2 ++ [10%N] ++ ws' ++ fence ++ rest) = false.
Proof.
  unfold parseYamlFromText. destruct text as [|c text]; [discriminate|].
  intros H. apply firstYamlBlock_spec in H as (pre & r & Htext & Hopen).
  apply openCapture_spec in Hopen as (ws & Hws & Hlazy & Hfirst).
  apply lazyCapture_first in Hlazy as (post & Hr & Hclose & Hmin).
  apply closesHere_fence in Hclose as (ws' & rest & -> & Hws').
  exists pre, ws, ws', rest. split; [|split; [exact Hws | split; [exact Hws' | exact Hmin]]].
  rewrite Htext. f_equal. f_equal.
  rewrite <- (firstn_skipn (length ws + 1) r), Hfirst, Hr, <- app_assoc. reflexivity.
Qed.

Lemma startsWith_head (s p : jstr) (c d : N) :
  c <> d -> startsWith (c :: s) (d :: p) = false.
Proof.
  intros H. simpl. destruct (d =? c)%N eqn:E; [|reflexivity].
  apply N.eqb_eq in E. congruence.
Qed.

Lemma firstYamlBlock_skip (pre text : jstr) :
  forallb (fun c => negb (c =? 96)%N) pre = true ->
  firstYamlBlock (pre ++ fenceYaml ++ text) = firstYamlBlock (fenceYaml ++ text).
Proof.
  induction pre as [|c pre IH]; [reflexivity|].
  simpl forallb. intros H. apply andb_true_iff in H as [Hc Hpre].
  change ((c :: pre) ++ fenceYaml ++ text) with (c :: (pre ++ fenceYaml ++ text)).
  rewrite firstYamlBlock_unfold.
  assert (Hs : startsWith (c :: pre ++ fenceYaml ++ text) fenceYaml = false).
  { apply (startsWith_head _ (str "``yaml")). intros ->. discriminate. }
  rewrite Hs. exact (IH Hpre).
Qed.

Lemma lazyCapture_complete (y post : jstr) :
  closesHere post = true ->
  (forall y1 y2, y = y1 ++ y2 -> y2 <> [] -> closesHere (y2 ++ post) = false) ->
  lazyCapture (y ++ post) = Some y.
Proof.
  intros Hclose. induction y as [|c y IH]; intros Hmin.
  - simpl app. rewrite lazyCapture_unfold, Hclose. reflexivity.
  - change ((c :: y) ++ post) with (c :: (y ++ post)). rewrite lazyCapture_unfold.
    change (c :: (y ++ post)) with ((c :: y) ++ post).
    rewrite (Hmin [] (c :: y) eq_refl) by discriminate.
    rewrite IH; [reflexivity|].
    intros y1 y2 Hsplit Hne. apply (Hmin (c :: y1) y2); [simpl; congruence | exact Hne].
Qed.

Lemma dropWhile_stops (p : N -> bool) (c : N) (s : jstr) :
  p c = false -> dropWhile p (c :: s) = c :: s.
Proof. intros H. simpl. rewrite H. reflexivity. Qed.

Lemma last_cons {A} (x : A) (l : list A) (d : A) :
  l <> [] -> List.last (x :: l) d = List.last l d.
Proof. destruct l; [contradiction | reflexivity]. Qed.

Lemma last_app_ne {A} (l1 l2 : list A) (d : A) :
  l2 <> [] -> List.last (l1 ++ l2) d = List.last l2 d.
Proof.
  intros Hne. induction l1 as [|x l1 IH]; [reflexivity|].
  change ((x :: l1) ++ l2) with (x :: (l1 ++ l2)).
  rewrite last_cons; [exact IH|].
  intros H. apply app_eq_nil in H as [_ H]. contradiction.
Qed.

(** A text without backquote and without whitespace at its end cannot hold
    the start of a closing part. *)
Lemma no_closing_inside (y post : jstr) :
  forallb (fun c => negb (c =? 96)%N) y = true ->
  isWhiteSpace (List.last y 0%N) = false ->
  forall y1 y2, y = y1 ++ y2 -> y2 <> [] -> closesHere (y2 ++ post) = false.
Proof.
  intros Hno Hlast y1 y2 -> Hne.
  rewrite forallb_app in Hno. apply andb_true_iff in Hno as [_ Hno2].
  assert (Hlast2 : isWhiteSpace (List.last y2 0%N) = false).
  { rewrite last_app_ne in Hlast by exact Hne. exact Hlast. }
  clear Hlast y1.
  destruct y2 as [|c y2]; [contradiction|].
  change ((c :: y2) ++ post) with (c :: (y2 ++ post)). unfold closesHere.
  destruct (c =? 10)%N eqn:Hc; [|reflexivity]. rewrite andb_true_l.
  apply N.eqb_eq in Hc. subst c.
  cbn [forallb] in Hno2. apply andb_true_iff in Hno2 as [_ Hno2]. clear Hne.
  assert (Hy2 : y2 <> []).
  { intros ->. simpl in Hlast2. discriminate. }
  rewrite last_cons in Hlast2 by exact Hy2.
  revert Hy2 Hno2 Hlast2.
  induction y2 as [|d y2 IH]; intros Hy2 Hno2 Hlast2; [contradiction|].
  cbn [forallb] in Hno2. apply andb_true_iff in Hno2 as [Hd Hno2].
  change ((d :: y2) ++ post) with (d :: (y2 ++ post)). cbn [dropWhile].
  destruct (isWhiteSpace d) eqn:Hws.
  - destruct y2 as [|e y2]; [simpl in Hlast2; congruence|].
    apply IH; [discriminate | exact Hno2 |].
    rewrite last_cons in Hlast2 by discriminate. exact Hlast2.
  - apply startsWith_head. intros ->. discriminate.
Qed.

(** X2. Writing and reading back: a block [y] put between the opening fence
    line and the closing fence line is what [parseYamlFromText] returns,
    provided [y] starts and ends with a character that is no whitespace and
    has no backquote, and no backquote comes before the opening fence. *)
Theorem yaml_block_round_trip (pre rest : jstr) (c : N) (y' : jstr) :
  isWhiteSpace c = false ->
  isWhiteSpace (List.last (c :: y') 0%N) = false ->
  forallb (fun c => negb (c =? 96)%N) (c :: y') = true ->
  forallb (fun c => negb (c =? 96)%N) pre = true ->
  parseYamlFromText (pre ++ fenceYaml ++ lf ++ (c :: y') ++ lf ++ fence ++ rest)
  = Some (c :: y').
Proof.
  intros Hfirst Hlast Hno Hpre.
  assert (Hlazy : lazyCapture ((c :: y') ++ lf ++ fence ++ rest) = Some (c :: y')).
  { apply lazyCapture_complete; [reflexivity|].
    apply no_closing_inside; assumption. }
  assert (Hopen : openCapture (10%N :: (c :: y') ++ lf ++ fence ++ rest) = Some (c :: y')).
  { cbn [openCapture]. change (isWhiteSpace 10) with true. cbv iota.
    change ((c :: y') ++ lf ++ fence ++ rest) with (c :: (y' ++ lf ++ fence ++ rest)) at 1.
    cbn [openCapture]. rewrite Hfirst. change (10 =? 10)%N with true. cbv iota.
    exact Hlazy. }
  assert (Hblock : firstYamlBlock (fenceYaml ++ lf ++ (c :: y') ++ lf ++ fence ++ rest)
                   = Some (c :: y')).
  { rewrite firstYamlBlock_unfold, startsWith_app.
    change (skipn 7 (fenceYaml ++ lf ++ (c :: y') ++ lf ++ fence ++ rest))
      with (10%N :: (c :: y') ++ lf ++ fence ++ rest).
    rewrite Hopen. reflexivity. }
  unfold parseYamlFromText.
  destruct (pre ++ fenceYaml ++ lf ++ (c :: y') ++ lf ++ fence ++ rest) eqn:Htext.
  - destruct pre; discriminate.
  - rewrite <- Htext, firstYamlBlock_skip by exact Hpre. exact Hblock.
Qed.

(** ** The field parser *)

Lemma forallb_sub {A} (q : A -> bool) (s t : list A) :
  (forall x, In x t -> In x s) -> forallb q s = true -> forallb q t = true.
Proof.
  intros Hsub Hs. apply forallb_forall. intros x Hx.
  exact (proj1 (forallb_forall q s) Hs x (Hsub x Hx)).
Qed.

Lemma dropWhile_sub (p : N -> bool) (s : jstr) (x : N) :
  In x (dropWhile p s) -> In x s.
Proof.
  induction s as [|c s IH]; simpl; [auto|].
  destruct (p c); simpl; auto.
Qed.

Lemma trim_sub (s : jstr) (x : N) : In x (trim s) -> In x s.
Proof.
  unfold trim, trimEnd, trimStart. intros H.
  apply in_rev in H. apply dropWhile_sub in H. apply in_rev in H.
  exact (dropWhile_sub _ _ _ H).
Qed.

Lemma stripComment_sub (s : jstr) (x : N) : In x (stripComment s) -> In x s.
Proof.
  induction s as [|c s IH]; simpl; [auto|].
  destruct ((c =? 35)%N && forallb notLineTerminator s); simpl; [contradiction|].
  intros [H|H]; auto.
Qed.

Lemma dropLastQuote_sub (s : jstr) (x : N) : In x (dropLastQuote s) -> In x s.
Proof.
  unfold dropLastQuote. destruct (rev s) as [|c r] eqn:Hrev; [auto|].
  destruct (isQuote c); [|auto].
  intros H. apply in_rev. rewrite Hrev. right. apply in_rev. exact H.
Qed.

Lemma stripQuotes_sub (s : jstr) (x : N) : In x (stripQuotes s) -> In x s.
Proof.
  destruct s as [|c s]; simpl; [auto|].
  destruct (isQuote c); simpl.
  - intros H. right. exact (dropLastQuote_sub _ _ H).
  - intros [H|H]; [left; exact H | right; exact (dropLastQuote_sub _ _ H)].
Qed.

Lemma valueCapture_one_line (s m : jstr) :
  valueCapture s = Some m -> forallb notLineTerminator m = true.
Proof.
  revert m. induction s as [|c s IH]; intros m; simpl; [discriminate|].
  destruct (isWhiteSpace c).
  - destruct (valueCapture s) as [v|].
    + intros H. injection H as <-. apply IH. reflexivity.
    + destruct (isLineTerminator c) eqn:Hc; [discriminate|].
      intros H. injection H as <-.
      apply (takeWhile_all notLineTerminator (c :: s)).
  - intros H. injection H as <-. apply (takeWhile_all notLineTerminator (c :: s)).
Qed.

Lemma matchField_unfold (lineStart : bool) (name text : jstr) :
  matchField lineStart name text =
  match
    (if lineStart && startsWith text (name ++ str ":")
     then valueCapture (skipn (length name + 1) text) else None)
  with
  | Some v => Some v
  | None =>
    match text with
    | c :: text' => matchField (isLineTerminator c) name text'
    | [] => None
    end
  end.
Proof. destruct text; reflexivity. Qed.

Lemma matchField_one_line (text name m : jstr) (lineStart : bool) :
  matchField lineStart name text = Some m -> forallb notLineTerminator m = true.
Proof.
  revert lineStart. induction text as [|c text IH]; intros lineStart;
    rewrite matchField_unfold.
  - destruct (lineStart && startsWith [] (name ++ str ":")).
    + destruct (valueCapture (skipn (length name + 1) [])) as [v|] eqn:Hv; [|discriminate].
      intros H. injection H as <-. exact (valueCapture_one_line _ _ Hv).
    + discriminate.
  - destruct (lineStart && startsWith (c :: text) (name ++ str ":")).
    + destruct (valueCapture (skipn (length name + 1) (c :: text))) as [v|] eqn:Hv.
      * intros H. injection H as <-. exact (valueCapture_one_line _ _ Hv).
      * apply IH.
    + apply IH.
Qed.

Lemma stripComment_no_hash (s : jstr) :
  forallb notLineTerminator s = true ->
  forallb (fun c => negb (c =? 35)%N) (stripComment s) = true.
Proof.
  induction s as [|c s IH]; simpl; [reflexivity|].
  intros H. apply andb_true_iff in H as [_ Hs]. rewrite Hs, andb_true_r.
  destruct (c =? 35)%N eqn:Hc; simpl; [reflexivity|].
  rewrite Hc. exact (IH Hs).
Qed.

Lemma rawValue_one_line (yamlContent raw : jstr) (field : Field) :
  rawValueOf yamlContent field = Some raw ->
  forallb (fun c => notLineTerminator c && negb (c =? 35)%N) raw = true.
Proof.
  unfold rawValueOf.
  destruct (matchField true (fieldName field) yamlContent) as [m|] eqn:Hm; [|discriminate].
  intros H. injection H as <-.
  apply matchField_one_line in Hm.
  assert (H1 : forallb notLineTerminator (trim m) = true).
  { revert Hm. apply forallb_sub. apply trim_sub. }
  assert (H2 : forallb (fun c => negb (c =? 35)%N) (trim (stripComment (trim m))) = true).
  { generalize (stripComment_no_hash _ H1). apply forallb_sub. apply trim_sub. }
  assert (H3 : forallb notLineTerminator (trim (stripComment (trim m))) = true).
  { revert H1. apply forallb_sub. intros x Hx.
    apply trim_sub in Hx. exact (stripComment_sub _ _ Hx). }
  apply forallb_forall. intros x Hx.
  rewrite (proj1 (forallb_forall _ _) H2 x Hx), (proj1 (forallb_forall _ _) H3 x Hx).
  reflexivity.
Qed.

(** X3. A scalar that [parseYamlValue] returns is never empty, lies on one
    line and holds no number sign: everything from the first number sign of
    the line on is dropped as a comment, inside quotes as well. *)
Theorem scalar_is_one_line_without_comment (yamlContent : jstr) (field : Field) (v : jstr) :
  parseYamlValue yamlContent field = Some (Scalar v) ->
  v <> [] /\
  forallb (fun c => notLineTerminator c && negb (c =? 35)%N) v = true.
Proof.
  unfold parseYamlValue. destruct yamlContent as [|c0 y0]; [discriminate|].
  destruct (rawValueOf (c0 :: y0) field) as [raw|] eqn:Hraw; [|discriminate].
  destruct raw as [|c raw]; [discriminate|].
  destruct (startsWith (c :: raw) (str "[") && endsWith (c :: raw) (str "]")).
  - destruct (parseYamlArrayValue (c :: raw)); discriminate.
  - destruct (stripQuotes (c :: raw)) as [|d w] eqn:Hq; [discriminate|].
    intros H. injection H as <-. split; [discriminate|].
    rewrite <- Hq. generalize (rawValue_one_line _ _ _ Hraw).
    apply forallb_sub. apply stripQuotes_sub.
Qed.

Lemma dropWhile_idem (p : N -> bool) (s : jstr) :
  dropWhile p (dropWhile p s) = dropWhile p s.
Proof.
  induction s as [|c s IH]; simpl; [reflexivity|].
  destruct (p c) eqn:Hc; [exact IH | simpl; rewrite Hc; reflexivity].
Qed.

Lemma trimEnd_prefix (a : jstr) : exists w, a = trimEnd a ++ w.
Proof.
  exists (rev (takeWhile isWhiteSpace (rev a))). unfold trimEnd.
  rewrite <- rev_app_distr, <- takeWhile_dropWhile, rev_involutive. reflexivity.
Qed.

Lemma trimStart_trimEnd (a : jstr) :
  trimStart a = a -> trimStart (trimEnd a) = trimEnd a.
Proof.
  intros Ha. destruct (trimEnd_prefix a) as [w Hw].
  destruct (trimEnd a) as [|d t]; [reflexivity|].
  rewrite Hw in Ha. unfold trimStart in *. simpl in Ha |- *.
  destruct (isWhiteSpace d); [|reflexivity].
  exfalso. assert (Hlen : length (dropWhile isWhiteSpace (t ++ w)) = S (length (t ++ w))).
  { rewrite Ha. reflexivity. }
  pose proof (dropWhile_length isWhiteSpace (t ++ w)). lia.
Qed.

Lemma trim_idem (x : jstr) : trim (trim x) = trim x.
Proof.
  unfold trim. rewrite trimStart_trimEnd.
  - unfold trimEnd. rewrite rev_involutive, dropWhile_idem. reflexivity.
  - apply dropWhile_idem.
Qed.

Lemma mapM_elem {A B} (f : A -> option B) (l : list A) (l' : list B) (y : B) :
  mapM f l = Some l' -> In y l' -> exists x, In x l /\ f x = Some y.
Proof.
  revert l'. induction l as [|x l IH]; intros l'; simpl.
  - intros H. injection H as <-. contradiction.
  - destruct (f x) as [y0|] eqn:Hfx; [|discriminate].
    destruct (mapM f l) as [ys|]; [|discriminate].
    intros H. injection H as <-. intros [<-|Hy].
    + exists x. split; [left; reflexivity | exact Hfx].
    + destruct (IH ys eq_refl Hy) as (x' & Hin & Hf). exists x'. split; [right; exact Hin | exact Hf].
Qed.

(** X4. Every element of an array that [parseYamlValue] returns is non-empty
    and has no whitespace at its start or end, whatever the elements of the
    written array were (strings, numbers, nested values). *)
Theorem array_elements_are_trimmed (yamlContent : jstr) (field : Field) (vs : list jstr) :
  parseYamlValue yamlContent field = Some (ArrayOf vs) ->
  Forall (fun v => v <> [] /\ trim v = v) vs.
Proof.
  unfold parseYamlValue. destruct yamlContent as [|c0 y0]; [discriminate|].
  destruct (rawValueOf (c0 :: y0) field) as [raw|]; [|discriminate].
  destruct raw as [|c raw]; [discriminate|].
  destruct (startsWith (c :: raw) (str "[") && endsWith (c :: raw) (str "]")).
  - unfold parseYamlArrayValue.
    destruct (Json.parse (normalizeQuotes false (c :: raw))) as [parsed|]; [|discriminate].
    destruct parsed as [| | | |items|]; try discriminate.
    destruct (mapM _ items) as [l0|] eqn:Hmap; [|discriminate].
    simpl. intros H. injection H as <-.
    apply List.Forall_forall. intros v Hv. apply filter_In in Hv as [Hin Hlen].
    split.
    + intros ->. discriminate.
    + destruct (mapM_elem _ _ _ _ Hmap Hin) as (item & _ & Hitem).
      destruct (Json.toString Number_toString item) as [t|]; [|discriminate].
      simpl in Hitem. injection Hitem as <-. apply trim_idem.
  - destruct (stripQuotes (c :: raw)); discriminate.
Qed.

Lemma lineTerminator_is_whiteSpace (c : N) :
  isLineTerminator c = true -> isWhiteSpace c = true.
Proof.
  unfold isLineTerminator. intros H.
  apply orb_true_iff in H as [H|H]; [apply orb_true_iff in H as [H|H];
    [apply orb_true_iff in H as [H|H]|]|];
    apply N.eqb_eq in H; subst c; reflexivity.
Qed.

Lemma plain_parts (c : N) :
  plainChar c = true ->
  isWhiteSpace c = false /\ (c =? 35)%N = false /\ isQuote c = false /\ (c =? 91)%N = false.
Proof.
  unfold plainChar. intros H. apply negb_true_iff in H.
  apply orb_false_iff in H as [H H4]. apply orb_false_iff in H as [H H3].
  apply orb_false_iff in H as [H1 H2]. auto.
Qed.

Lemma plain_not_lineTerminator (c : N) : plainChar c = true -> notLineTerminator c = true.
Proof.
  intros H. apply plain_parts in H as (Hws & _). unfold notLineTerminator.
  destruct (isLineTerminator c) eqn:Hc; [|reflexivity].
  apply lineTerminator_is_whiteSpace in Hc. congruence.
Qed.

Lemma takeWhile_stops (p : N -> bool) (v rest : jstr) :
  forallb p v = true -> p (hd 10%N rest) = false ->
  takeWhile p (v ++ rest) = v.
Proof.
  intros Hv Hrest. induction v as [|c v IH]; simpl.
  - destruct rest as [|d rest]; [reflexivity|]. simpl in Hrest |- *. rewrite Hrest. reflexivity.
  - simpl in Hv. apply andb_true_iff in Hv as [Hc Hv]. rewrite Hc, (IH Hv). reflexivity.
Qed.

Lemma valueCapture_plain (ws v rest : jstr) :
  v <> [] ->
  forallb plainChar v = true ->
  forallb isWhiteSpace ws = true ->
  isLineTerminator (hd 10%N rest) = true ->
  valueCapture (ws ++ v ++ rest) = Some v.
Proof.
  intros Hne Hv Hws Hrest.
  assert (Hbase : valueCapture (v ++ rest) = Some v).
  { destruct v as [|c v]; [contradiction|].
    change ((c :: v) ++ rest) with (c :: (v ++ rest)). cbn [valueCapture].
    pose proof Hv as Hv'. cbn [forallb] in Hv'. apply andb_true_iff in Hv' as [Hc _].
    apply plain_parts in Hc as (Hc & _). rewrite Hc.
    change (c :: (v ++ rest)) with ((c :: v) ++ rest).
    rewrite takeWhile_stops; [reflexivity | |].
    - revert Hv. generalize (c :: v). intros l Hl.
      apply forallb_forall. intros x Hx. apply plain_not_lineTerminator.
      exact (proj1 (forallb_forall _ _) Hl x Hx).
    - unfold notLineTerminator. rewrite Hrest. reflexivity. }
  induction ws as [|w ws IH]; [exact Hbase|].
  cbn [forallb] in Hws. apply andb_true_iff in Hws as [Hw Hws].
  change ((w :: ws) ++ v ++ rest) with (w :: (ws ++ v ++ rest)). cbn [valueCapture].
  rewrite Hw, (IH Hws). reflexivity.
Qed.

Lemma skipn_length_app {A} (a b : list A) : skipn (length a) (a ++ b) = b.
Proof. induction a as [|x a IH]; [reflexivity | exact IH]. Qed.

Lemma matchField_at_start (name r : jstr) (v : jstr) :
  valueCapture r = Some v ->
  matchField true name (name ++ str ":" ++ r) = Some v.
Proof.
  intros Hv. rewrite matchField_unfold.
  rewrite (app_assoc name (str ":") r), startsWith_app.
  replace (length name + 1)%nat with (length (name ++ str ":"))
    by (rewrite length_app; reflexivity).
  rewrite skipn_length_app, Hv. reflexivity.
Qed.

Lemma dropWhile_plain (v : jstr) :
  forallb plainChar v = true -> dropWhile isWhiteSpace v = v.
Proof.
  destruct v as [|c v]; [reflexivity|]. cbn [forallb]. intros H.
  apply andb_true_iff in H as [Hc _]. apply plain_parts in Hc as (Hc & _).
  cbn [dropWhile]. rewrite Hc. reflexivity.
Qed.

Lemma forallb_rev_plain (v : jstr) :
  forallb plainChar v = true -> forallb plainChar (rev v) = true.
Proof. apply forallb_sub. intros x Hx. apply in_rev. exact Hx. Qed.

Lemma trim_plain (v : jstr) : forallb plainChar v = true -> trim v = v.
Proof.
  intros H. unfold trim, trimStart, trimEnd.
  rewrite (dropWhile_plain v H), (dropWhile_plain (rev v) (forallb_rev_plain v H)).
  apply rev_involutive.
Qed.

Lemma stripComment_plain (v : jstr) :
  forallb plainChar v = true -> stripComment v = v.
Proof.
  induction v as [|c v IH]; [reflexivity|]. cbn [forallb]. intros H.
  apply andb_true_iff in H as [Hc Hv]. apply plain_parts in Hc as (_ & Hc & _).
  cbn [stripComment]. rewrite Hc, (IH Hv). reflexivity.
Qed.

Lemma dropLastQuote_plain (v : jstr) :
  forallb plainChar v = true -> dropLastQuote v = v.
Proof.
  intros H. apply forallb_rev_plain in H. unfold dropLastQuote.
  destruct (rev v) as [|c r]; [reflexivity|].
  cbn [forallb] in H. apply andb_true_iff in H as [Hc _].
  apply plain_parts in Hc as (_ & _ & Hc & _). rewrite Hc. reflexivity.
Qed.

Lemma stripQuotes_plain (v : jstr) :
  forallb plainChar v = true -> stripQuotes v = v.
Proof.
  destruct v as [|c v]; [reflexivity|]. cbn [forallb]. intros H.
  apply andb_true_iff in H as [Hc Hv]. apply plain_parts in Hc as (_ & _ & Hc & _).
  unfold stripQuotes. rewrite Hc, (dropLastQuote_plain v Hv). reflexivity.
Qed.

(** X5. Writing and reading back a scalar: a line [field:], whitespace, a
    non-empty value of plain characters, then the end of the text or a line
    terminator, parses as that value. *)
Theorem plain_scalar_round_trip (field : Field) (ws v rest : jstr) :
  v <> [] ->
  forallb plainChar v = true ->
  forallb isWhiteSpace ws = true ->
  isLineTerminator (hd 10%N rest) = true ->
  parseYamlValue (fieldName field ++ str ":" ++ ws ++ v ++ rest) field = Some (Scalar v).
Proof.
  intros Hne Hv Hws Hrest.
  assert (Hraw : rawValueOf (fieldName field ++ str ":" ++ ws ++ v ++ rest) field = Some v).
  { unfold rawValueOf.
    rewrite (matchField_at_start _ _ v (valueCapture_plain ws v rest Hne Hv Hws Hrest)).
    rewrite (trim_plain v Hv), (stripComment_plain v Hv), (trim_plain v Hv). reflexivity. }
  unfold parseYamlValue. rewrite Hraw.
  destruct v as [|c v]; [contradiction|].
  pose proof Hv as Hv'. cbn [forallb] in Hv'. apply andb_true_iff in Hv' as [Hc _].
  apply plain_parts in Hc as (_ & _ & _ & Hc).
  assert (Hs : startsWith (c :: v) (str "[") = false).
  { apply (startsWith_head _ []). intros ->. rewrite N.eqb_refl in Hc. discriminate. }
  rewrite Hs, (stripQuotes_plain (c :: v) Hv).
  destruct field; reflexivity.
Qed.

(** ** A run after a run *)

Lemma existsb_addNew (q : jstr -> bool) (have new : list jstr) :
  existsb q (Rest.addNew have new) = existsb q have || existsb q new.
Proof.
  revert have. induction new as [|l new IH]; intros have; simpl.
  - rewrite orb_false_r. reflexivity.
  - rewrite IH. destruct (arrayIncludes have l) eqn:Hin.
    + destruct (q l) eqn:Hq; [|reflexivity].
      assert (Hhave : existsb q have = true).
      { apply existsb_exists. unfold arrayIncludes in Hin.
        apply existsb_exists in Hin as (x & Hx & Heq). apply eqb_eq in Heq. subst x.
        exists l. split; assumption. }
      rewrite Hhave. reflexivity.
    + rewrite existsb_app. simpl. rewrite orb_false_r, orb_assoc. reflexivity.
Qed.

Lemma collectResult_split (r : LabelResult) (acc : list jstr * list jstr) :
  collectResult r acc =
  (fst acc ++ fst (collectResult r ([], [])), snd acc ++ snd (collectResult r ([], []))).
Proof.
  unfold collectResult. destruct acc as [errs labs].
  destruct (error r) as [[|c e]|]; simpl;
    try (destruct (0 <? length (labels r))%nat; simpl; rewrite ?app_nil_r; reflexivity).
Qed.

Lemma collectResult_no_error (r : LabelResult) :
  fst (collectResult r ([], [])) = [] -> collectResult r ([], []) = ([], labels r).
Proof.
  unfold collectResult. destruct (error r) as [[|c e]|]; simpl; try discriminate;
    intros _; destruct (labels r); reflexivity.
Qed.

Lemma collectResult_noLabel : collectResult noLabel ([], []) = ([], []).
Proof. reflexivity. Qed.

(** One category in the second run: with the flag [h'] computed from the
    labels after the first run, it contributes nothing. *)
Lemma category_settles (rule : bool -> LabelResult) (q : jstr -> bool) (h h' : bool) :
  rule true = noLabel ->
  (forall l, l ∈ labels (rule false) -> q l = true) ->
  fst (collectResult (rule h) ([], [])) = [] ->
  (h' = false -> h = false /\ existsb q (snd (collectResult (rule h) ([], []))) = false) ->
  collectResult (rule h') ([], []) = ([], []).
Proof.
  intros Htrue Hq Hnone Hflag. destruct h'.
  - rewrite Htrue. reflexivity.
  - destruct (Hflag eq_refl) as [-> Hex].
    rewrite (collectResult_no_error _ Hnone) in Hex |- *. simpl in Hex.
    destruct (labels (rule false)) as [|l ls] eqn:Hl; [reflexivity|].
    simpl in Hex. rewrite (Hq l) in Hex; [discriminate | apply list_elem_of_here].
Qed.

Lemma release_rule_skips (yamlContent : jstr) : processReleaseLabel yamlContent true = noLabel.
Proof. unfold processReleaseLabel. destruct (parseYamlValue yamlContent Release); reflexivity. Qed.

Lemma backport_rule_skips (yamlContent : jstr) : processBackportLabel yamlContent true = noLabel.
Proof. unfold processBackportLabel. destruct (parseYamlValue yamlContent Backport); reflexivity. Qed.

Lemma backport_labels_hyphenated (yamlContent : jstr) (hasExistingLabel : bool) (l : jstr) :
  l ∈ labels (processBackportLabel yamlContent hasExistingLabel) ->
  exists v, l = str "backport-" ++ v.
Proof.
  unfold processBackportLabel.
  destruct (parseYamlValue yamlContent Backport) as [[v|vs]|]; simpl;
    [| |intros H; apply elem_of_nil in H; contradiction].
  - destruct hasExistingLabel; simpl; [intros H; apply elem_of_nil in H; contradiction|].
    destruct (arrayIncludes (getAcceptedBackports cfg) v); simpl; intros H.
    + apply list_elem_of_singleton in H. exists v. exact H.
    + apply elem_of_nil in H. contradiction.
  - destruct hasExistingLabel; simpl; [intros H; apply elem_of_nil in H; contradiction|].
    destruct (0 <? length _)%nat; simpl; [intros H; apply elem_of_nil in H; contradiction|].
    destruct (0 <? length _)%nat; simpl; [|intros H; apply elem_of_nil in H; contradiction].
    intros H. apply list_elem_of_In in H. apply in_map_iff in H as [p [<- _]].
    exists (primToString p). reflexivity.
Qed.

Lemma contribution_labels (r : LabelResult) (l : jstr) :
  In l (snd (collectResult r ([], []))) -> l ∈ labels r.
Proof.
  unfold collectResult. destruct (error r) as [[|c e]|]; simpl;
    try (destruct (0 <? length (labels r))%nat; simpl;
         intros H; [apply list_elem_of_In; exact H | contradiction]).
  contradiction.
Qed.

Lemma existsb_none (q : jstr -> bool) (l : list jstr) :
  (forall x, In x l -> q x = false) -> existsb q l = false.
Proof.
  intros H. induction l as [|x l IH]; [reflexivity|]. simpl.
  rewrite (H x (or_introl eq_refl)), IH; [reflexivity|]. intros y Hy. apply H. right. exact Hy.
Qed.

(** The labels a passing run proposes, once on the pull request, silence
    both categories: the same description then proposes nothing. *)
Lemma collectLabels_settles (features : Features) (yamlContent : jstr)
  (currentLabels : list jstr) :
  fst (collectLabels features yamlContent currentLabels) = [] ->
  collectLabels features yamlContent
    (Rest.addNew currentLabels (snd (collectLabels features yamlContent currentLabels)))
  = ([], []).
Proof.
  unfold collectLabels.
  set (qR := fun label : jstr => startsWith label (str "release-")).
  set (qB := fun label : jstr => startsWith label (str "backport-")).
  set (hR := existsb qR currentLabels). set (hB := existsb qB currentLabels).
  set (cR := collectResult (processReleaseLabel yamlContent hR) ([], [])).
  set (cB := collectResult (processBackportLabel yamlContent hB) ([], [])).
  assert (HRB : forall l, In l (snd cR) -> qB l = false).
  { intros l Hl. apply contribution_labels, release_labels_hyphenated in Hl as [v ->]. reflexivity. }
  assert (HBR : forall l, In l (snd cB) -> qR l = false).
  { intros l Hl. apply contribution_labels, backport_labels_hyphenated in Hl as [v ->]. reflexivity. }
  assert (HR : forall l, l ∈ labels (processReleaseLabel yamlContent false) -> qR l = true).
  { intros l Hl. apply release_labels_hyphenated in Hl as [v ->]. apply startsWith_app. }
  assert (HB : forall l, l ∈ labels (processBackportLabel yamlContent false) -> qB l = true).
  { intros l Hl. apply backport_labels_hyphenated in Hl as [v ->]. apply startsWith_app. }
  destruct (releaseLabeling features), (backportLabeling features).
  - rewrite (collectResult_split _ cR). fold cB. simpl fst. simpl snd.
    intros Hnone. apply app_eq_nil in Hnone as [HnR HnB].
    rewrite (collectResult_split (processBackportLabel _ _)).
    rewrite (category_settles (processReleaseLabel yamlContent) qR hR);
      [| apply release_rule_skips | exact HR | exact HnR |].
    + rewrite (category_settles (processBackportLabel yamlContent) qB hB);
        [reflexivity | apply backport_rule_skips | exact HB | exact HnB |].
      rewrite existsb_addNew, existsb_app. fold hB. fold cB.
      intros H. apply orb_false_iff in H as [H1 H]. apply orb_false_iff in H as [_ H2]. auto.
    + rewrite existsb_addNew, existsb_app. fold hR. fold cR.
      intros H. apply orb_false_iff in H as [H1 H]. apply orb_false_iff in H as [H2 _]. auto.
  - fold cR. intros HnR.
    apply (category_settles (processReleaseLabel yamlContent) qR hR);
      [apply release_rule_skips | exact HR | exact HnR |].
    rewrite existsb_addNew. fold hR. intros H. apply orb_false_iff in H. exact H.
  - fold cB. intros HnB.
    apply (category_settles (processBackportLabel yamlContent) qB hB);
      [apply backport_rule_skips | exact HB | exact HnB |].
    rewrite existsb_addNew. fold hB. intros H. apply orb_false_iff in H. exact H.
  - reflexivity.
Qed.

Lemma stays_ret {A} (a : A) : staysAnswered (ret a).
Proof. intros s H. exact H. Qed.

Lemma stays_throw {A} (e : Exn) : staysAnswered (@throw A e).
Proof. intros s H. exact H. Qed.

Lemma stays_bind {A B} (m : M A) (f : A -> M B) :
  staysAnswered m -> (forall a, staysAnswered (f a)) -> staysAnswered (bind m f).
Proof.
  intros Hm Hf s Hs. unfold bind. specialize (Hm s Hs).
  destruct (m s) as [[a|e] s1]; simpl in Hm; [apply Hf; exact Hm | exact Hm].
Qed.

Lemma stays_tryCatch {A} (m : M A) (h : Exn -> M A) :
  staysAnswered m -> (forall e, staysAnswered (h e)) -> staysAnswered (tryCatch m h).
Proof.
  intros Hm Hh s Hs. unfold tryCatch. specialize (Hm s Hs).
  destruct (m s) as [[a|e] s1]; simpl in Hm; [exact Hm | apply Hh; exact Hm].
Qed.

Lemma stays_rest {A} (call : World -> Outcome A * World) :
  (forall w, faults (snd (call w)) = faults w) -> staysAnswered (rest call).
Proof.
  intros Hcall s Hs. rewrite rest_answered by exact Hs. unfold answered. simpl.
  rewrite Hcall. exact Hs.
Qed.

Lemma stays_modifyResult (f : Result -> Result) : staysAnswered (modifyResult f).
Proof. intros s H. exact H. Qed.

Lemma stays_forEachM {A} (f : A -> M unit) (l : list A) :
  (forall x, staysAnswered (f x)) -> staysAnswered (forEachM f l).
Proof.
  intros Hf. induction l as [|x l IH]; simpl; [apply stays_ret|].
  apply stays_bind; [apply Hf | intros _; exact IH].
Qed.

Lemma stays_getLabels (n : N) : staysAnswered (getLabels n).
Proof.
  apply stays_tryCatch; [|intros e; apply stays_throw].
  apply stays_rest. intros w. unfold Rest.listLabelsOnIssue. destruct (issues w !! n); reflexivity.
Qed.

Lemma handleLabelError_403 (e : Exn) (n : N) (labels : list jstr) (action : jstr) :
  exn_status e = Some 403%N ->
  handleLabelError e n labels action =
  throw (mkError
    (crossMark ++ str " Permission denied: Unable to " ++ action ++ str " labels " ++
     labelList labels ++ str " to #" ++ ofN n ++
     str ". Repository administrators should add a CUSTOM_GITHUB_TOKEN secret with appropriate permissions.")).
Proof. intros H. unfold handleLabelError. rewrite H. reflexivity. Qed.

Lemma handleLabelError_422 (e : Exn) (n : N) (labels : list jstr) (action : jstr) :
  exn_status e = Some 422%N ->
  handleLabelError e n labels action = handle422Error e n labels action.
Proof. intros H. unfold handleLabelError. rewrite H. reflexivity. Qed.

Lemma handleLabelError_other (e : Exn) (n : N) (labels : list jstr) (action : jstr) :
  exn_status e <> Some 403%N -> exn_status e <> Some 422%N ->
  handleLabelError e n labels action =
  throw (mkError
    (crossMark ++ str " Unexpected error " ++ action ++ str "ing labels " ++
     labelList labels ++ str " to #" ++ ofN n ++ str ": " ++ exn_message e)).
Proof.
  unfold handleLabelError. destruct (exn_status e) as [[|p]|]; try reflexivity.
  intros H1 H2.
  do 10 (try (destruct p as [p|p|]; try reflexivity));
    solve [exfalso; apply H1; reflexivity | exfalso; apply H2; reflexivity].
Qed.

Lemma stays_handle422Error (e : Exn) (n : N) (labels : list jstr) (action : jstr) :
  staysAnswered (handle422Error e n labels action).
Proof.
  apply stays_tryCatch; [|intros e'; apply stays_throw].
  apply stays_bind; [apply stays_getLabels|]. intros cur. cbv beta zeta.
  destruct (0 <? length (List.filter (arrayIncludes cur) labels))%nat;
    [apply stays_ret | apply stays_throw].
Qed.

Lemma stays_handleLabelError (e : Exn) (n : N) (labels : list jstr) (action : jstr) :
  staysAnswered (handleLabelError e n labels action).
Proof.
  destruct (decide (exn_status e = Some 403%N)) as [H403|H403].
  - rewrite handleLabelError_403 by exact H403. apply stays_throw.
  - destruct (decide (exn_status e = Some 422%N)) as [H422|H422].
    + rewrite handleLabelError_422 by exact H422. apply stays_handle422Error.
    + rewrite handleLabelError_other by assumption. apply stays_throw.
Qed.

Lemma stays_addLabels (n : N) (new : list jstr) : staysAnswered (addLabels n new).
Proof.
  unfold addLabels. destruct (isDryRun cfg); [apply stays_ret|].
  apply stays_tryCatch; [|intros e; apply stays_handleLabelError].
  apply stays_bind; [|intros _; apply stays_ret].
  apply stays_rest. intros w. unfold Rest.addLabels. destruct (issues w !! n); reflexivity.
Qed.

Lemma stays_createCheckRun (name sha url : jstr) : staysAnswered (createCheckRun name sha url).
Proof.
  unfold createCheckRun. destruct (isDryRun cfg); [apply stays_ret|].
  apply stays_tryCatch; [|intros e; apply stays_throw].
  apply stays_bind; [|intros id; apply stays_ret].
  apply stays_rest. intros w. reflexivity.
Qed.

Lemma stays_updateCheckRun (id : CheckId) (st concl : jstr) (out : CheckOutput) :
  staysAnswered (updateCheckRun id st concl out).
Proof.
  unfold updateCheckRun. destruct (isDryRun cfg); [apply stays_ret|].
  apply stays_tryCatch; [|intros e; apply stays_throw].
  apply stays_rest. intros w. destruct id as [|id]; [reflexivity|].
  unfold Rest.checksUpdate. destruct (existsb _ (checks w)); reflexivity.
Qed.

Lemma stays_createComment (n : N) (text : jstr) : staysAnswered (createComment n text).
Proof.
  unfold createComment. destruct (isDryRun cfg); [apply stays_ret|].
  apply stays_tryCatch; [|intros e; apply stays_throw].
  apply stays_rest. intros w. unfold Rest.createComment. destruct (issues w !! n); reflexivity.
Qed.

Lemma stays_listComments (n : N) : staysAnswered (listComments n).
Proof.
  apply stays_tryCatch; [|intros e; apply stays_throw].
  apply stays_rest. intros w. unfold Rest.listComments. destruct (issues w !! n); reflexivity.
Qed.

Lemma stays_deleteComment (id : N) : staysAnswered (deleteComment id).
Proof.
  unfold deleteComment. destruct (isDryRun cfg); [apply stays_ret|].
  apply stays_tryCatch; [|intros e; apply stays_throw].
  apply stays_rest. intros w. unfold Rest.deleteComment.
  destruct (existsb _ (comments w)); reflexivity.
Qed.

Lemma stays_cleanup (n : N) (identifier : jstr) :
  staysAnswered (cleanupWorkflowComments n identifier).
Proof.
  apply stays_tryCatch; [|intros e; apply stays_ret].
  apply stays_bind; [apply stays_listComments|]. intros cs.
  apply stays_forEachM. intros c. apply stays_deleteComment.
Qed.

Lemma stays_releaseBackport (prData : PullRequest) (yamlContent : jstr) (features : Features) :
  staysAnswered (processReleaseBackportLabeling prData yamlContent features).
Proof.
  unfold processReleaseBackportLabeling.
  apply stays_bind; [apply stays_createCheckRun|]. intros checkRun.
  apply stays_tryCatch.
  - apply stays_bind; [apply stays_getLabels|]. intros cur.
    destruct (collectLabels features yamlContent cur) as [errs labs].
    destruct (0 <? length errs)%nat.
    + apply stays_bind; [apply stays_updateCheckRun | intros _; apply stays_createComment].
    + apply stays_bind; [apply stays_cleanup|]. intros _.
      destruct (0 <? length labs)%nat; [|apply stays_updateCheckRun].
      apply stays_bind; [apply stays_addLabels|]. intros r.
      apply stays_bind; [apply stays_modifyResult|]. intros _.
      apply stays_bind; [apply stays_modifyResult|]. intros _.
      apply stays_updateCheckRun.
  - intros e. apply stays_bind; [apply stays_updateCheckRun | intros _; apply stays_throw].
Qed.

(** X6. A second run after a passing run adds nothing: outside a dry run,
    when the release/backport rule passes validation on a pull request and
    its labels are added, the rule run again on the state the first run left
    (same description, same configuration) reports no further label and
    leaves the labels of the pull request as the first run left them. *)
Theorem rerun_after_success_adds_nothing (prData : PullRequest) (yamlContent : jstr)
  (features : Features) (s : State) (i : Issue) :
  isDryRun cfg = false ->
  answered s ->
  issues (world s) !! number prData = Some i ->
  fst (collectLabels features yamlContent (issue_labels i)) = [] ->
  exists s1 s2 i1 i2,
    processReleaseBackportLabeling prData yamlContent features s = (Ok tt, s1) /\
    processReleaseBackportLabeling prData yamlContent features s1 = (Ok tt, s2) /\
    issues (world s1) !! number prData = Some i1 /\
    issues (world s2) !! number prData = Some i2 /\
    issue_labels i1 =
      Rest.addNew (issue_labels i) (snd (collectLabels features yamlContent (issue_labels i))) /\
    issue_labels i2 = issue_labels i1 /\
    labelsAdded (result s2) = labelsAdded (result s1).
Proof.
  intros Hd Ha Hi Hnone.
  destruct (success_run prData yamlContent features s i Ha Hi Hnone)
    as (s1 & Hrun1 & _ & _ & _ & Hwet1).
  destruct (Hwet1 Hd) as (i1 & Hi1 & Hl1).
  assert (Ha1 : answered s1).
  { pose proof (stays_releaseBackport prData yamlContent features s Ha) as H.
    rewrite Hrun1 in H. exact H. }
  assert (Hsettled : collectLabels features yamlContent (issue_labels i1) = ([], [])).
  { rewrite Hl1. apply collectLabels_settles. exact Hnone. }
  assert (Hnone1 : fst (collectLabels features yamlContent (issue_labels i1)) = []).
  { rewrite Hsettled. reflexivity. }
  destruct (success_run prData yamlContent features s1 i1 Ha1 Hi1 Hnone1)
    as (s2 & Hrun2 & Hadded2 & _ & _ & Hwet2).
  destruct (Hwet2 Hd) as (i2 & Hi2 & Hl2).
  rewrite Hsettled in Hadded2, Hl2. simpl in Hadded2, Hl2. rewrite app_nil_r in Hadded2.
  exists s1, s2, i1, i2. auto 10.
Qed.

(** ** Failures of the label endpoint *)

Lemma rest_fault {A} (call : World -> Outcome A * World) (s : State) (e : Exn)
  (fs : list (option Exn)) :
  faults (world s) = Some e :: fs ->
  rest call s = (Throw e, setWorld (setFaults fs (world s)) s).
Proof. intros H. unfold rest. rewrite H. reflexivity. Qed.

(** X7. What [addLabels] makes of a failure of the label endpoint, outside a
    dry run.  Status 403 and every status other than 422 become an error whose
    message names the labels and the issue; the labels of no issue change.
    Status 422 is looked into (here with the service answering afterwards):
    when some of the requested labels are on the issue already, the call
    returns normally with nothing added and those labels as skipped;
    otherwise the error [One or more labels don't exist] is thrown inside the
    [try] of the handler itself, so what the caller gets is that message
    wrapped in [Error checking existing labels]. *)
Theorem addLabels_failure_is_explained (n : N) (labels : list jstr) (e : Exn)
  (s : State) (i : Issue) :
  isDryRun cfg = false ->
  faults (world s) = [Some e] ->
  issues (world s) !! n = Some i ->
  let s' := setWorld (setFaults [] (world s)) s in
  let already := List.filter (arrayIncludes (issue_labels i)) labels in
  (exn_status e = Some 403%N ->
   addLabels n labels s =
   (Throw (mkError
      (crossMark ++ str " Permission denied: Unable to add labels " ++
       labelList labels ++ str " to #" ++ ofN n ++
       str ". Repository administrators should add a CUSTOM_GITHUB_TOKEN secret with appropriate permissions.")),
    s')) /\
  (exn_status e = Some 422%N -> already <> [] ->
   addLabels n labels s = (Ok {| added := []; skipped := Some already |}, s')) /\
  (exn_status e = Some 422%N -> already = [] ->
   addLabels n labels s =
   (Throw (mkError
      (crossMark ++ str " Error checking existing labels on #" ++ ofN n ++ str ": " ++
       crossMark ++ str " Failed to add labels " ++ labelList labels ++
       str " to #" ++ ofN n ++ str ": One or more labels don't exist in the repository.")),
    s')) /\
  (exn_status e <> Some 403%N -> exn_status e <> Some 422%N ->
   addLabels n labels s =
   (Throw (mkError
      (crossMark ++ str " Unexpected error adding labels " ++
       labelList labels ++ str " to #" ++ ofN n ++ str ": " ++ exn_message e)),
    s')).
Proof.
  intros Hd Hf Hi s' already.
  assert (Hcall : (rest (Rest.addLabels n labels) >> ret {| added := labels; skipped := None |}) s
                  = (Throw e, s')).
  { erewrite bind_throw; [reflexivity|]. apply rest_fault. exact Hf. }
  assert (Hs' : answered s') by reflexivity.
  assert (Hi' : issues (world s') !! n = Some i) by exact Hi.
  assert (Hrun : addLabels n labels s = handleLabelError e n labels (str "add") s').
  { unfold addLabels. rewrite Hd. unfold tryCatch. rewrite Hcall. reflexivity. }
  rewrite Hrun. split; [|split; [|split]].
  - intros H. rewrite handleLabelError_403 by exact H. reflexivity.
  - intros H Hne. rewrite handleLabelError_422 by exact H.
    unfold handle422Error. apply tryCatch_ok.
    erewrite bind_ok by (apply getLabels_run; eassumption).
    fold already. destruct already as [|l ls]; [contradiction | reflexivity].
  - intros H Hnil. rewrite handleLabelError_422 by exact H.
    unfold handle422Error, tryCatch.
    erewrite bind_ok by (apply getLabels_run; eassumption).
    fold already. rewrite Hnil. reflexivity.
  - intros H1 H2. rewrite handleLabelError_other by assumption. reflexivity.
Qed.

(** ** What a computation can do to the state *)

Section StateSteps.

Variable R : State -> State -> Prop.
Hypothesis R_refl : forall s, R s s.
Hypothesis R_trans : forall s1 s2 s3, R s1 s2 -> R s2 s3 -> R s1 s3.
Hypothesis R_faults : forall s fs, R s (setWorld (setFaults fs (world s)) s).

Lemma step_ret {A} (a : A) : stateStep R (ret a).
Proof. intros s. apply R_refl. Qed.

Lemma step_throw {A} (e : Exn) : stateStep R (@throw A e).
Proof. intros s. apply R_refl. Qed.

Lemma step_bind {A B} (m : M A) (f : A -> M B) :
  stateStep R m -> (forall a, stateStep R (f a)) -> stateStep R (bind m f).
Proof.
  intros Hm Hf s. unfold bind. specialize (Hm s).
  destruct (m s) as [[a|e] s1]; simpl in Hm; [|exact Hm].
  eapply R_trans; [exact Hm | apply Hf].
Qed.

Lemma step_tryCatch {A} (m : M A) (h : Exn -> M A) :
  stateStep R m -> (forall e, stateStep R (h e)) -> stateStep R (tryCatch m h).
Proof.
  intros Hm Hh s. unfold tryCatch. specialize (Hm s).
  destruct (m s) as [[a|e] s1]; simpl in Hm; [exact Hm|].
  eapply R_trans; [exact Hm | apply Hh].
Qed.

Lemma step_rest {A} (call : World -> Outcome A * World) :
  (forall s, R s (setWorld (snd (call (world s))) s)) -> stateStep R (rest call).
Proof.
  intros Hcall s. unfold rest. destruct (faults (world s)) as [|[e|] fs].
  - specialize (Hcall s). destruct (call (world s)) as [o w]. exact Hcall.
  - apply R_faults.
  - specialize (Hcall (setWorld (setFaults fs (world s)) s)).
    change (world (setWorld (setFaults fs (world s)) s)) with (setFaults fs (world s)) in Hcall.
    destruct (call (setFaults fs (world s))) as [o w].
    eapply R_trans; [apply R_faults | exact Hcall].
Qed.

Lemma step_forEachM {A} (f : A -> M unit) (l : list A) :
  (forall x, stateStep R (f x)) -> stateStep R (forEachM f l).
Proof.
  intros Hf. induction l as [|x l IH]; simpl; [apply step_ret|].
  apply step_bind; [apply Hf | intros _; exact IH].
Qed.

End StateSteps.

Ltac steps Hrefl Htrans Hfaults :=
  repeat (first
    [ apply (step_ret _ Hrefl)
    | apply (step_throw _ Hrefl)
    | apply (step_bind _ Htrans)
    | apply (step_tryCatch _ Htrans)
    | apply (step_forEachM _ Hrefl Htrans)
    | apply (step_rest _ Htrans Hfaults)
    | match goal with |- forall _, _ => intro end ]).

Lemma nt_ret {A} (a : A) : neverThrows (ret a).
Proof. intros s. exists a. reflexivity. Qed.

Lemma nt_bind {A B} (m : M A) (f : A -> M B) :
  neverThrows m -> (forall a, neverThrows (f a)) -> neverThrows (bind m f).
Proof.
  intros Hm Hf s. unfold bind. destruct (Hm s) as [a Ha].
  destruct (m s) as [[a'|e] s1]; simpl in Ha; [apply Hf | discriminate].
Qed.

Lemma nt_tryCatch {A} (m : M A) (h : Exn -> M A) :
  (forall e, neverThrows (h e)) -> neverThrows (tryCatch m h).
Proof.
  intros Hh s. unfold tryCatch. destruct (m s) as [[a|e] s1]; [exists a; reflexivity | apply Hh].
Qed.

Lemma sameData_refl (s : State) : sameData s s.
Proof. unfold sameData. auto 10. Qed.

Lemma sameData_trans (s1 s2 s3 : State) : sameData s1 s2 -> sameData s2 s3 -> sameData s1 s3.
Proof.
  unfold sameData. intros (A1 & A2 & A3 & A4 & A5 & A6) (B1 & B2 & B3 & B4 & B5 & B6).
  split; [congruence|]. split; [congruence|]. split; [congruence|].
  split; [congruence|]. split; congruence.
Qed.

Lemma sameData_faults (s : State) (fs : list (option Exn)) :
  sameData s (setWorld (setFaults fs (world s)) s).
Proof. unfold sameData. simpl. auto 10. Qed.

Lemma deletesOnly_refl (s : State) : deletesOnly s s.
Proof. unfold deletesOnly. auto 10. Qed.

Lemma deletesOnly_trans (s1 s2 s3 : State) :
  deletesOnly s1 s2 -> deletesOnly s2 s3 -> deletesOnly s1 s3.
Proof.
  unfold deletesOnly. intros (A1 & A2 & A3 & A4 & A5 & A6) (B1 & B2 & B3 & B4 & B5 & B6).
  split; [congruence|]. split; [congruence|]. split; [congruence|]. split; [congruence|].
  split; [congruence|]. intros c Hc. apply A6, B6, Hc.
Qed.

Lemma deletesOnly_faults (s : State) (fs : list (option Exn)) :
  deletesOnly s (setWorld (setFaults fs (world s)) s).
Proof. unfold deletesOnly. simpl. auto 10. Qed.

Lemma sameData_deletesOnly (s s' : State) : sameData s s' -> deletesOnly s s'.
Proof.
  unfold sameData, deletesOnly. intros (A1 & A2 & A3 & A4 & A5 & A6).
  rewrite A2. auto 10.
Qed.

Lemma sameComments_refl (s : State) : sameComments s s.
Proof. reflexivity. Qed.

Lemma sameComments_trans (s1 s2 s3 : State) :
  sameComments s1 s2 -> sameComments s2 s3 -> sameComments s1 s3.
Proof. unfold sameComments. congruence. Qed.

Lemma sameComments_faults (s : State) (fs : list (option Exn)) :
  sameComments s (setWorld (setFaults fs (world s)) s).
Proof. reflexivity. Qed.

Ltac reads := steps sameData_refl sameData_trans sameData_faults.
Ltac deletes := steps deletesOnly_refl deletesOnly_trans deletesOnly_faults.
Ltac noComment := steps sameComments_refl sameComments_trans sameComments_faults.

(** The reading operations of the client. *)
Lemma reads_getLabels (n : N) : stateStep sameData (getLabels n).
Proof.
  unfold getLabels. reads.
  unfold Rest.listLabelsOnIssue. destruct (issues (world s) !! n); simpl; rewrite setWorld_same; apply sameData_refl.
Qed.

Lemma reads_getPR (n : N) : stateStep sameData (getPR n).
Proof.
  unfold getPR. reads.
  unfold Rest.pullsGet. destruct (issues (world s) !! n); simpl; rewrite setWorld_same; apply sameData_refl.
Qed.

Lemma reads_listComments (n : N) : stateStep sameData (listComments n).
Proof.
  unfold listComments. reads.
  unfold Rest.listComments. destruct (issues (world s) !! n); simpl; rewrite setWorld_same; apply sameData_refl.
Qed.

Lemma reads_listPRCommits (n : N) : stateStep sameData (listPRCommits n).
Proof.
  unfold listPRCommits. reads.
  unfold Rest.listCommits. destruct (issues (world s) !! n); simpl; rewrite setWorld_same; apply sameData_refl.
Qed.

Lemma reads_listPRReviewComments (n : N) : stateStep sameData (listPRReviewComments n).
Proof.
  unfold listPRReviewComments. reads.
  unfold Rest.listReviewComments. destruct (issues (world s) !! n); simpl; rewrite setWorld_same; apply sameData_refl.
Qed.

Lemma reads_listPRReviews (n : N) : stateStep sameData (listPRReviews n).
Proof.
  unfold listPRReviews. reads.
  unfold Rest.listReviews. destruct (issues (world s) !! n); simpl; rewrite setWorld_same; apply sameData_refl.
Qed.

Lemma reads_listTimelineEvents (n : N) : stateStep sameData (listTimelineEvents n).
Proof.
  unfold listTimelineEvents. reads.
  unfold Rest.listEventsForTimeline. destruct (issues (world s) !! n); simpl; rewrite setWorld_same; apply sameData_refl.
Qed.

(** ** [cleanupWorkflowComments] *)

Lemma deletes_deleteComment (id : N) : stateStep deletesOnly (deleteComment id).
Proof.
  unfold deleteComment. destruct (isDryRun cfg); deletes.
  unfold Rest.deleteComment. destruct (existsb _ (comments (world s))); simpl.
  - unfold deletesOnly; simpl.
    split; [reflexivity|]. split; [reflexivity|]. split; [reflexivity|].
    split; [reflexivity|]. split; [reflexivity|].
    intros c Hc. apply list_elem_of_In in Hc. apply filter_In in Hc as [Hc _].
    apply list_elem_of_In. exact Hc.
  - rewrite setWorld_same. apply deletesOnly_refl.
Qed.

Lemma deletes_cleanup (n : N) (identifier : jstr) :
  stateStep deletesOnly (cleanupWorkflowComments n identifier).
Proof.
  unfold cleanupWorkflowComments.
  apply (step_tryCatch _ deletesOnly_trans); [|intros e; apply (step_ret _ deletesOnly_refl)].
  apply (step_bind _ deletesOnly_trans).
  - intros s. apply sameData_deletesOnly. apply reads_listComments.
  - intros cs. apply (step_forEachM _ deletesOnly_refl deletesOnly_trans).
    intros c. apply deletes_deleteComment.
Qed.

Lemma dry_deleteComment (id : N) : isDryRun cfg = true -> stateStep sameData (deleteComment id).
Proof. intros Hd. unfold deleteComment. rewrite Hd. reads. Qed.

Lemma dry_cleanup (n : N) (identifier : jstr) :
  isDryRun cfg = true -> stateStep sameData (cleanupWorkflowComments n identifier).
Proof.
  intros Hd. unfold cleanupWorkflowComments.
  apply (step_tryCatch _ sameData_trans); [|intros e; apply (step_ret _ sameData_refl)].
  apply (step_bind _ sameData_trans); [apply reads_listComments|].
  intros cs. apply (step_forEachM _ sameData_refl sameData_trans).
  intros c. apply dry_deleteComment. exact Hd.
Qed.

Lemma cleanup_harmless (n : N) (identifier : jstr) (s : State) :
  exists s',
    cleanupWorkflowComments n identifier s = (Ok tt, s') /\
    deletesOnly s s' /\
    (isDryRun cfg = true -> comments (world s') = comments (world s)).
Proof.
  destruct (nt_tryCatch
              (let* comments := listComments n in
               forEachM (fun comment => deleteComment (comment_id comment))
                 (List.filter (fun comment => includes (comment_body comment) identifier)
                    comments))
              (fun _ => ret tt) (fun e => nt_ret tt) s) as [[] Hok].
  fold (cleanupWorkflowComments n identifier) in Hok.
  exists (snd (cleanupWorkflowComments n identifier s)). split; [|split].
  - destruct (cleanupWorkflowComments n identifier s) as [o s']. simpl in Hok. subst o. reflexivity.
  - apply deletes_cleanup.
  - intros Hd. destruct (dry_cleanup n identifier Hd s) as (_ & H & _). exact H.
Qed.

(** X8. [cleanupWorkflowComments] cannot fail a run and cannot do harm: from
    every state and whatever the REST service answers, it returns normally;
    issues, labels, check runs and the result are as before and every comment
    left was there before.  In a dry run no comment is deleted either. *)
Theorem cleanup_is_harmless (n : N) (identifier : jstr) (s : State) :
  exists s',
    cleanupWorkflowComments n identifier s = (Ok tt, s') /\
    deletesOnly s s' /\
    (isDryRun cfg = true -> comments (world s') = comments (world s)).
Proof. apply cleanup_harmless. Qed.

Lemma deleteComment_run (id : N) (s : State) :
  isDryRun cfg = false -> answered s ->
  existsb (fun c => (comment_id c =? id)%N) (comments (world s)) = true ->
  deleteComment id s =
  (Ok tt,
   setWorld (setComments (List.filter (fun c => negb (comment_id c =? id)%N) (comments (world s)))
               (world s)) s).
Proof.
  intros Hd Ha Hex. unfold deleteComment. rewrite Hd. apply tryCatch_ok.
  rewrite rest_answered by exact Ha. unfold Rest.deleteComment. rewrite Hex. reflexivity.
Qed.

Lemma filter_filter_and {A} (p q : A -> bool) (l : list A) :
  List.filter p (List.filter q l) = List.filter (fun x => q x && p x) l.
Proof.
  induction l as [|x l IH]; [reflexivity|]. simpl.
  destruct (q x); simpl; [destruct (p x); rewrite IH; reflexivity | exact IH].
Qed.

Lemma forEach_delete_exact (l : list Comment) (s : State) :
  isDryRun cfg = false -> answered s ->
  List.NoDup (List.map comment_id l) ->
  (forall d, In d l -> In d (comments (world s))) ->
  forEachM (fun comment => deleteComment (comment_id comment)) l s =
  (Ok tt,
   setWorld
     (setComments
        (List.filter
           (fun c => negb (existsb (fun d => (comment_id d =? comment_id c)%N) l))
           (comments (world s)))
        (world s)) s).
Proof.
  intros Hd. revert s. induction l as [|d l IH]; intros s Ha Hnd Hin.
  - simpl. f_equal. destruct s as [w r]. unfold setWorld. simpl. f_equal.
    destruct w. unfold setComments. simpl. f_equal.
    symmetry. apply forallb_filter_id. apply forallb_forall. reflexivity.
  - cbn [forEachM]. inversion Hnd as [|x xs Hx Hnd' Heq]. subst x xs.
    erewrite bind_ok.
    2:{ apply deleteComment_run; [exact Hd | exact Ha |].
        apply existsb_exists. exists d. split; [apply Hin; left; reflexivity | apply N.eqb_refl]. }
    rewrite IH.
    + f_equal. unfold setWorld. simpl. f_equal. unfold setComments. simpl. f_equal.
      rewrite filter_filter_and. apply filter_ext. intros c.
      rewrite negb_orb. rewrite (N.eqb_sym (comment_id d) (comment_id c)). reflexivity.
    + exact Ha.
    + exact Hnd'.
    + intros c Hc. simpl. apply filter_In. split; [apply Hin; right; exact Hc|].
      apply negb_true_iff. apply N.eqb_neq. intros Heq. apply Hx. rewrite <- Heq.
      apply in_map. exact Hc.
Qed.

Lemma NoDup_map_inj {A B} (f : A -> B) (l : list A) (x y : A) :
  List.NoDup (List.map f l) -> In x l -> In y l -> f x = f y -> x = y.
Proof.
  induction l as [|a l IH]; simpl; [contradiction|].
  intros Hnd Hx Hy Hf. inversion Hnd as [|b bs Hb Hnd' Heq]. subst b bs.
  destruct Hx as [<-|Hx], Hy as [<-|Hy].
  - reflexivity.
  - exfalso. apply Hb. rewrite Hf. apply in_map. exact Hy.
  - exfalso. apply Hb. rewrite <- Hf. apply in_map. exact Hx.
  - exact (IH Hnd' Hx Hy Hf).
Qed.

Lemma NoDup_map_filter {A B} (f : A -> B) (p : A -> bool) (l : list A) :
  List.NoDup (List.map f l) -> List.NoDup (List.map f (List.filter p l)).
Proof.
  induction l as [|a l IH]; simpl; [auto|].
  intros Hnd. inversion Hnd as [|b bs Hb Hnd' Heq]. subst b bs.
  destruct (p a); [|exact (IH Hnd')].
  simpl. constructor; [|exact (IH Hnd')].
  intros Hin. apply Hb. apply in_map_iff in Hin as (x & Hfx & Hx).
  apply filter_In in Hx as [Hx _]. rewrite <- Hfx. apply in_map. exact Hx.
Qed.

Lemma cleanup_exact (n : N) (identifier : jstr) (s : State) (i : Issue) :
  isDryRun cfg = false ->
  answered s ->
  issues (world s) !! n = Some i ->
  List.NoDup (List.map comment_id (comments (world s))) ->
  cleanupWorkflowComments n identifier s =
  (Ok tt,
   setWorld
     (setComments
        (List.filter (fun c => negb (isWorkflowComment n identifier c)) (comments (world s)))
        (world s)) s).
Proof.
  intros Hd Ha Hi Hnd. unfold cleanupWorkflowComments. apply tryCatch_ok.
  erewrite bind_ok by (eapply listComments_run; eassumption).
  set (l := List.filter (fun comment => includes (comment_body comment) identifier)
              (List.filter (fun c => (comment_issue c =? n)%N) (comments (world s)))).
  assert (Hl : forall d, In d l <-> In d (comments (world s)) /\ isWorkflowComment n identifier d = true).
  { intros d. unfold l, isWorkflowComment. rewrite filter_filter_and, filter_In. reflexivity. }
  rewrite forEach_delete_exact; [| exact Hd | exact Ha | | intros d Hin; apply Hl in Hin as [Hin _]; exact Hin].
  - f_equal. f_equal. f_equal. apply filter_ext_in. intros c Hc. f_equal.
    destruct (isWorkflowComment n identifier c) eqn:Hw.
    + apply existsb_exists. exists c. split; [apply Hl; auto | apply N.eqb_refl].
    + destruct (existsb _ l) eqn:Hex; [|reflexivity].
      apply existsb_exists in Hex as (d & Hdl & Heq). apply N.eqb_eq in Heq.
      apply Hl in Hdl as [Hdc Hdw].
      rewrite (NoDup_map_inj comment_id _ d c Hnd Hdc Hc Heq) in Hdw. congruence.
  - unfold l. apply NoDup_map_filter, NoDup_map_filter. exact Hnd.
Qed.

(** X9. What [cleanupWorkflowComments] deletes when the service answers,
    outside a dry run, comment ids being unique: exactly the comments of the
    issue whose body contains the identifier.  Every other comment stays, in
    its place. *)
Theorem cleanup_deletes_exactly (n : N) (identifier : jstr) (s : State) (i : Issue) :
  isDryRun cfg = false ->
  answered s ->
  issues (world s) !! n = Some i ->
  List.NoDup (List.map comment_id (comments (world s))) ->
  cleanupWorkflowComments n identifier s =
  (Ok tt,
   setWorld
     (setComments
        (List.filter (fun c => negb (isWorkflowComment n identifier c)) (comments (world s)))
        (world s)) s).
Proof. apply cleanup_exact. Qed.

Lemma step_modifyResult (R : State -> State -> Prop) (f : Result -> Result) :
  (forall s, R s (setResult (f (result s)) s)) -> stateStep R (modifyResult f).
Proof. intros H s. apply H. Qed.

Lemma noComment_updateCheckRun (id : CheckId) (st concl : jstr) (out : CheckOutput) :
  stateStep sameComments (updateCheckRun id st concl out).
Proof.
  unfold updateCheckRun. destruct (isDryRun cfg); noComment.
  destruct id as [|id]; [reflexivity|].
  unfold Rest.checksUpdate. destruct (existsb _ (checks (world s))); reflexivity.
Qed.

Lemma noComment_getLabels (n : N) : stateStep sameComments (getLabels n).
Proof. intros s. destruct (reads_getLabels n s) as (_ & H & _). exact H. Qed.

Lemma noComment_addLabels (n : N) (new : list jstr) : stateStep sameComments (addLabels n new).
Proof.
  unfold addLabels. destruct (isDryRun cfg); noComment.
  - unfold Rest.addLabels. destruct (issues (world s) !! n); reflexivity.
  - destruct (decide (exn_status e = Some 403%N)) as [H403|H403].
    + rewrite handleLabelError_403 by exact H403. noComment.
    + destruct (decide (exn_status e = Some 422%N)) as [H422|H422].
      * rewrite handleLabelError_422 by exact H422. unfold handle422Error.
        apply (step_tryCatch _ sameComments_trans); [|noComment].
        apply (step_bind _ sameComments_trans); [apply noComment_getLabels|].
        intros cur. cbv beta zeta.
        destruct (0 <? length (List.filter (arrayIncludes cur) new))%nat; noComment.
      * rewrite handleLabelError_other by assumption. noComment.
Qed.

(** X10. A passing run of the release/backport rule clears what failed runs
    left behind: outside a dry run, the service answering and comment ids
    being unique, the comments after the run are the comments before it
    without those of this pull request that contain the marker of the
    validation-error comment, and no comment is added.  Every comment that
    [handleValidationErrors] posts contains that marker, which is the police
    car light U+1F6A8 followed by the words of the heading. *)
Theorem passing_run_clears_error_comments (prData : PullRequest) (yamlContent : jstr)
  (features : Features) (s : State) (i : Issue) :
  isDryRun cfg = false ->
  answered s ->
  issues (world s) !! number prData = Some i ->
  List.NoDup (List.map comment_id (comments (world s))) ->
  fst (collectLabels features yamlContent (issue_labels i)) = [] ->
  (exists s',
     processReleaseBackportLabeling prData yamlContent features s = (Ok tt, s') /\
     comments (world s') =
     List.filter (fun c => negb (isWorkflowComment (number prData) markerReleaseBackport c))
       (comments (world s))) /\
  (forall errors, includes (errorComment errors) markerReleaseBackport = true) /\
  markerReleaseBackport =
  [55357%N; 57000%N] ++ str " YAML Validation Error: release and backport".
Proof.
  intros Hd Ha Hi Hnd Hnone.
  split; [|split; [apply errorComment_has_marker | reflexivity]].
  destruct (success_run prData yamlContent features s i Ha Hi Hnone) as (s' & Hrun & _).
  exists s'. split; [exact Hrun|].
  replace s' with (snd (processReleaseBackportLabeling prData yamlContent features s))
    by (rewrite Hrun; reflexivity).
  clear Hrun s'. unfold processReleaseBackportLabeling.
  erewrite bind_ok by (apply createCheckRun_run; assumption).
  set (s1 := setWorld _ s). set (id := CheckNumber _).
  assert (Ha1 : answered s1) by exact Ha.
  assert (Hi1 : issues (world s1) !! number prData = Some i) by exact Hi.
  assert (Hnd1 : List.NoDup (List.map comment_id (comments (world s1)))) by exact Hnd.
  change (comments (world s)) with (comments (world s1)).
  clearbody s1 id. clear Ha Hi Hnd s.
  destruct (collectLabels features yamlContent (issue_labels i)) as [errs labs] eqn:Hc.
  simpl in Hnone. subst errs.
  set (tail := if (0 <? length labs)%nat
               then
                 let* result := addLabels (number prData) labs in
                 pushLabelsAdded (added result) >>
                 pushAction (str "Added release/backport labels: " ++ join (str ", ") labs) >>
                 updateCheckRun id (str "completed") (str "success") (labelsAddedOutput labs)
               else updateCheckRun id (str "completed") (str "success") noLabelsOutput).
  assert (Htail : stateStep sameComments tail).
  { unfold tail. destruct (0 <? length labs)%nat; [|apply noComment_updateCheckRun].
    apply (step_bind _ sameComments_trans); [apply noComment_addLabels|]. intros r.
    apply (step_bind _ sameComments_trans); [apply step_modifyResult; reflexivity|]. intros _.
    apply (step_bind _ sameComments_trans); [apply step_modifyResult; reflexivity|]. intros _.
    apply noComment_updateCheckRun. }
  unfold tryCatch.
  erewrite bind_ok by (apply getLabels_run; eassumption).
  rewrite Hc. change (0 <? length (@nil jstr))%nat with false. cbv iota.
  erewrite bind_ok by (eapply cleanup_exact; eassumption).
  fold tail. set (s3 := setWorld _ s1).
  pose proof (Htail s3) as H3.
  destruct (tail s3) as [[[]|e] s4]; simpl in H3.
  - simpl. exact H3.
  - assert (H4 : stateStep sameComments
                   (updateCheckRun id (str "completed") (str "failure") (assignmentFailedOutput e) >>
                    @throw unit e)).
    { apply (step_bind _ sameComments_trans); [apply noComment_updateCheckRun|].
      intros _. apply (step_throw _ sameComments_refl). }
    specialize (H4 s4). unfold sameComments in H3, H4. rewrite H4, H3. reflexivity.
Qed.

(** ** Stale detection under failures *)

Lemma nt_listPRCommits (n : N) : neverThrows (listPRCommits n).
Proof. apply nt_tryCatch. intros e. apply nt_ret. Qed.

Lemma nt_listPRReviewComments (n : N) : neverThrows (listPRReviewComments n).
Proof. apply nt_tryCatch. intros e. apply nt_ret. Qed.

Lemma nt_listPRReviews (n : N) : neverThrows (listPRReviews n).
Proof. apply nt_tryCatch. intros e. apply nt_ret. Qed.

Lemma nt_listTimelineEvents (n : N) : neverThrows (listTimelineEvents n).
Proof. apply nt_tryCatch. intros e. apply nt_ret. Qed.

Lemma nt_currentTime : neverThrows currentTime.
Proof. intros s. exists (clock (world s)). reflexivity. Qed.

Lemma nt_getLastActivityDate (n : N) : neverThrows (getLastActivityDate n).
Proof.
  unfold getLastActivityDate.
  apply nt_bind; [apply nt_tryCatch; intros e; apply nt_ret|]. intros fromDetails.
  apply nt_bind; [apply nt_listPRCommits|]. intros commits.
  apply nt_bind; [apply nt_tryCatch; intros e; apply nt_ret|]. intros fromComments.
  apply nt_bind; [apply nt_listPRReviewComments|]. intros reviewComments.
  apply nt_bind; [apply nt_listPRReviews|]. intros reviews.
  apply nt_bind; [apply nt_listTimelineEvents|]. intros timeline.
  cbv zeta.
  destruct (fromDetails ++ present commits ++ fromComments ++ reviewComments ++
            present reviews ++ _) as [|first others].
  - apply nt_tryCatch. intros e. apply nt_currentTime.
  - apply nt_ret.
Qed.

Lemma reads_getLastActivityDate (n : N) : stateStep sameData (getLastActivityDate n).
Proof.
  unfold getLastActivityDate.
  apply (step_bind _ sameData_trans).
  { apply (step_tryCatch _ sameData_trans); [|reads].
    apply (step_bind _ sameData_trans); [apply reads_getPR | reads]. }
  intros fromDetails.
  apply (step_bind _ sameData_trans); [apply reads_listPRCommits|]. intros commits.
  apply (step_bind _ sameData_trans).
  { apply (step_tryCatch _ sameData_trans); [|reads].
    apply (step_bind _ sameData_trans); [apply reads_listComments | reads]. }
  intros fromComments.
  apply (step_bind _ sameData_trans); [apply reads_listPRReviewComments|]. intros reviewComments.
  apply (step_bind _ sameData_trans); [apply reads_listPRReviews|]. intros reviews.
  apply (step_bind _ sameData_trans); [apply reads_listTimelineEvents|]. intros timeline.
  cbv zeta.
  destruct (fromDetails ++ present commits ++ fromComments ++ reviewComments ++
            present reviews ++ _) as [|first others].
  - apply (step_tryCatch _ sameData_trans).
    + apply (step_bind _ sameData_trans); [apply reads_getPR | reads].
    + intros e s. apply sameData_refl.
  - reads.
Qed.

Lemma activity_lookup (n : N) (s : State) :
  exists date s', getLastActivityDate n s = (Ok date, s') /\ sameData s s'.
Proof.
  destruct (nt_getLastActivityDate n s) as [date Hok].
  pose proof (reads_getLastActivityDate n s) as Hsame.
  destruct (getLastActivityDate n s) as [o s']. simpl in Hok, Hsame. subst o.
  exists date, s'. split; [reflexivity | exact Hsame].
Qed.

(** X11. [getLastActivityDate] always yields a date: from every state and
    whatever the REST service answers (every lookup may fail), it returns
    normally, and it changes nothing: issues, comments, check runs and the
    result are as before. *)
Theorem last_activity_lookup_never_fails (n : N) (s : State) :
  exists date s', getLastActivityDate n s = (Ok date, s') /\ sameData s s'.
Proof. apply activity_lookup. Qed.

(** ** [StaleDetection.execute] *)

Lemma labelsOnly_refl (s : State) : labelsOnly s s.
Proof. unfold labelsOnly. auto 10. Qed.

Lemma labelsOnly_trans (s1 s2 s3 : State) :
  labelsOnly s1 s2 -> labelsOnly s2 s3 -> labelsOnly s1 s3.
Proof.
  unfold labelsOnly. intros (A1 & A2 & A3 & A4 & A5) (B1 & B2 & B3 & B4 & B5).
  split; [congruence|]. split; [congruence|]. split; [congruence|]. split; congruence.
Qed.

Lemma labelsOnly_faults (s : State) (fs : list (option Exn)) :
  labelsOnly s (setWorld (setFaults fs (world s)) s).
Proof. unfold labelsOnly. simpl. auto 10. Qed.

Lemma sameData_labelsOnly (s s' : State) : sameData s s' -> labelsOnly s s'.
Proof. unfold sameData, labelsOnly. intros (A1 & A2 & A3 & A4 & A5 & A6). auto 10. Qed.

Ltac labelling := steps labelsOnly_refl labelsOnly_trans labelsOnly_faults.

Lemma labelsOnly_handle422Error (e : Exn) (n : N) (labels : list jstr) (action : jstr) :
  stateStep labelsOnly (handle422Error e n labels action).
Proof.
  unfold handle422Error.
  apply (step_tryCatch _ labelsOnly_trans); [|labelling].
  apply (step_bind _ labelsOnly_trans).
  - intros s. apply sameData_labelsOnly, reads_getLabels.
  - intros cur. cbv beta zeta.
    destruct (0 <? length (List.filter (arrayIncludes cur) labels))%nat; labelling.
Qed.

Lemma labelsOnly_addLabels (n : N) (new : list jstr) : stateStep labelsOnly (addLabels n new).
Proof.
  unfold addLabels. destruct (isDryRun cfg); labelling.
  - unfold Rest.addLabels. destruct (issues (world s) !! n); simpl.
    + unfold labelsOnly. simpl. auto 10.
    + rewrite setWorld_same. apply labelsOnly_refl.
  - destruct (decide (exn_status e = Some 403%N)) as [H403|H403].
    + rewrite handleLabelError_403 by exact H403. labelling.
    + destruct (decide (exn_status e = Some 422%N)) as [H422|H422].
      * rewrite handleLabelError_422 by exact H422. apply labelsOnly_handle422Error.
      * rewrite handleLabelError_other by assumption. labelling.
Qed.

(** What [addLabels] returns when it returns: all the labels as added, or
    none. *)
Lemma addLabels_added (n : N) (new : list jstr) (s s' : State) (r : AddResult) :
  addLabels n new s = (Ok r, s') -> added r = new \/ added r = [].
Proof.
  unfold addLabels. destruct (isDryRun cfg).
  - intros H. injection H as <- _. left. reflexivity.
  - unfold tryCatch, bind.
    destruct (rest (Rest.addLabels n new) s) as [[[]|e] s1].
    + intros H. injection H as <- _. left. reflexivity.
    + destruct (decide (exn_status e = Some 403%N)) as [H403|H403].
      * rewrite handleLabelError_403 by exact H403. discriminate.
      * destruct (decide (exn_status e = Some 422%N)) as [H422|H422].
        -- rewrite handleLabelError_422 by exact H422. unfold handle422Error, tryCatch, bind.
           destruct (getLabels n s1) as [[cur|e'] s2]; [|discriminate].
           destruct (0 <? length (List.filter (arrayIncludes cur) new))%nat; [|discriminate].
           intros H. injection H as <- _. right. reflexivity.
        -- rewrite handleLabelError_other by assumption. discriminate.
Qed.

Lemma staleReported_same (s s' : State) : result s' = result s -> staleReported 0 s s'.
Proof.
  intros H. unfold staleReported. rewrite H. simpl.
  rewrite app_nil_r, N.add_0_r, Nat.add_0_r. auto.
Qed.

Lemma staleReported_trans (j k : nat) (s1 s2 s3 : State) :
  staleReported j s1 s2 -> staleReported k s2 s3 -> staleReported (j + k) s1 s3.
Proof.
  unfold staleReported. intros (A1 & A2 & A3 & A4) (B1 & B2 & B3 & B4).
  rewrite B1, A1, B2, A2, B3, A3, B4, A4, repeat_app, <- app_assoc, Nat2N.inj_add.
  split; [reflexivity|]. split; [lia|]. split; [lia | reflexivity].
Qed.

Lemma markPRAsStale_reports (n : N) (hours : Z) (s : State) :
  exists k, (k <= 1)%nat /\ staleReported k s (snd (markPRAsStale n hours s)).
Proof.
  unfold markPRAsStale, tryCatch, bind.
  pose proof (labelsOnly_addLabels n [str "stale"] s) as Hstep.
  destruct (addLabels n [str "stale"] s) as [[r|e] s1] eqn:Hadd; simpl in Hstep.
  - destruct Hstep as (_ & _ & _ & _ & Hres).
    destruct (addLabels_added _ _ _ _ _ Hadd) as [Hr|Hr]; rewrite Hr.
    + exists 1%nat. split; [lia|]. simpl. unfold staleReported. simpl. rewrite Hres.
      rewrite length_app. simpl. auto.
    + exists 0%nat. split; [lia|]. simpl. apply staleReported_same. exact Hres.
  - exists 0%nat. split; [lia|]. simpl. apply staleReported_same.
    destruct Hstep as (_ & _ & _ & _ & Hres). exact Hres.
Qed.

Lemma processPR_reports (pr : PullRequest) (now : Z) (s : State) :
  exists k, (k <= if staleCandidate pr then 1 else 0)%nat /\
            staleReported k s (snd (processPR pr now s)).
Proof.
  unfold processPR, staleCandidate.
  destruct (draft pr); simpl.
  { exists 0%nat. split; [lia | apply staleReported_same; reflexivity]. }
  destruct (existsb _ (pr_labels pr)); simpl.
  { exists 0%nat. split; [lia | apply staleReported_same; reflexivity]. }
  unfold bind.
  destruct (activity_lookup (number pr) s) as (date & s1 & Hrun & Hsame).
  rewrite Hrun.
  assert (H1 : staleReported 0 s s1).
  { apply staleReported_same. destruct Hsame as (_ & _ & _ & _ & _ & H). exact H. }
  destruct (staleThresholdMs <? now - date)%Z.
  - destruct (markPRAsStale_reports (number pr)
                ((now - date) / (1000 * 60 * 60))%Z s1) as (k & Hk & Hrep).
    exists k. split; [exact Hk|]. exact (staleReported_trans 0 k _ _ _ H1 Hrep).
  - exists 0%nat. split; [lia | exact H1].
Qed.

Lemma forEach_processPR_reports (prs : list PullRequest) (now : Z) (s : State) :
  exists k,
    (k <= length (List.filter staleCandidate prs))%nat /\
    fst (forEachM (fun pr => tryCatch (processPR pr now) (fun error => ret tt)) prs s) = Ok tt /\
    staleReported k s
      (snd (forEachM (fun pr => tryCatch (processPR pr now) (fun error => ret tt)) prs s)).
Proof.
  revert s. induction prs as [|pr prs IH]; intros s.
  - exists 0%nat. simpl. split; [lia|]. split; [reflexivity|].
    apply staleReported_same. reflexivity.
  - cbn [forEachM]. unfold bind.
    destruct (processPR_reports pr now s) as (j & Hj & Hrep).
    set (step := tryCatch (processPR pr now) (fun _ => ret tt) s).
    assert (Hstep : fst step = Ok tt /\ staleReported j s (snd step)).
    { unfold step, tryCatch. destruct (processPR pr now s) as [[[]|e] s1]; simpl in *; auto. }
    destruct step as [o s1]. simpl in Hstep. destruct Hstep as [-> Hrep1].
    destruct (IH s1) as (k & Hk & Hok & Hrepk).
    exists (j + k)%nat. split.
    + simpl. destruct (staleCandidate pr); simpl; lia.
    + split; [exact Hok | exact (staleReported_trans j k _ _ _ Hrep1 Hrepk)].
Qed.

Lemma listOpenPRs_cases (pulls : Pulls) (s : State) :
  match faults (world s) with
  | Some e :: fs => listOpenPRs pulls s = (Throw e, setWorld (setFaults fs (world s)) s)
  | None :: fs =>
    listOpenPRs pulls s = (Ok (openPulls pulls), setWorld (setFaults fs (world s)) s)
  | [] => listOpenPRs pulls s = (Ok (openPulls pulls), s)
  end.
Proof.
  unfold listOpenPRs, tryCatch, rest, pullsList.
  destruct (faults (world s)) as [|[e|] fs]; try reflexivity.
  rewrite setWorld_same. reflexivity.
Qed.

Lemma stale_run_after_listing (pulls : Pulls) (s s0 : State) :
  listOpenPRs pulls s = (Ok (openPulls pulls), s0) ->
  result s0 = result s ->
  exists k s1,
    (k <= length (List.filter staleCandidate (openPulls pulls)))%nat /\
    StaleDetection_execute pulls s = (Ok (N.of_nat (length (openPulls pulls))), s1) /\
    staleReported k s s1.
Proof.
  intros Hlist Hres.
  destruct (forEach_processPR_reports (openPulls pulls) (clock (world s)) s0)
    as (k & Hk & Hok & Hrep).
  destruct (forEachM _ (openPulls pulls) s0) as [o s1] eqn:Hrun. simpl in Hok, Hrep. subst o.
  exists k, s1. split; [exact Hk|]. split.
  - unfold StaleDetection_execute. apply tryCatch_ok.
    erewrite bind_ok by reflexivity.
    erewrite bind_ok by exact Hlist.
    cbv zeta. erewrite bind_ok by exact Hrun. reflexivity.
  - destruct Hrep as (R1 & R2 & R3 & R4). unfold staleReported.
    rewrite <- Hres. auto.
Qed.

(** X12. [StaleDetection.execute] under failures.  From every state and
    whatever the REST service answers: when the list of open pull requests is
    answered, the run returns normally with all of them counted as processed,
    however many of the later calls fail, and for some [k], at most the
    number of open pull requests that are no draft and have no [stale] label,
    it reports [k] labels, all of them [stale], [k] actions and [k] stale pull
    requests; when the listing fails, that error is thrown and nothing is
    reported. *)
Theorem stale_run_survives_failures (pulls : Pulls) (s : State) :
  match faults (world s) with
  | Some e :: fs =>
    StaleDetection_execute pulls s = (Throw e, setWorld (setFaults fs (world s)) s)
  | _ =>
    exists k s',
      (k <= length (List.filter staleCandidate (openPulls pulls)))%nat /\
      StaleDetection_execute pulls s = (Ok (N.of_nat (length (openPulls pulls))), s') /\
      staleReported k s s'
  end.
Proof.
  pose proof (listOpenPRs_cases pulls s) as Hlist.
  destruct (faults (world s)) as [|[e|] fs].
  - exact (stale_run_after_listing pulls s s Hlist eq_refl).
  - unfold StaleDetection_execute. unfold tryCatch.
    erewrite bind_ok by reflexivity.
    erewrite bind_throw by exact Hlist. reflexivity.
  - exact (stale_run_after_listing pulls s _ Hlist eq_refl).
Qed.

(** ** The orchestrator *)

(** X13. A configuration that [validate] accepts names the repository, has a
    token, and gives stale detection a threshold of at least one day: a
    negative number of days is refused, and zero days is taken as one. *)
Theorem validated_configuration (context : Context) (b : bool) :
  validate cfg context = Ok b ->
  b = true /\
  owner cfg <> [] /\ repo cfg <> [] /\
  (exists token, getGithubToken cfg = Some token /\ token <> []) /\
  (1 <= staleDaysOf)%Z /\
  (86400000 <= staleThresholdMs)%Z.
Proof.
  unfold validate.
  destruct (owner cfg) as [|c1 o] eqn:Ho; [discriminate|].
  destruct (repo cfg) as [|c2 r] eqn:Hr; [discriminate|]. simpl.
  destruct (getGithubToken cfg) as [[|c3 t]|] eqn:Ht; try discriminate. simpl.
  assert (Hdays :
    (if isStaleDetectionEnabled cfg context && truthyDays (getStaleDays cfg) &&
        match getStaleDays cfg with Some d => (d <? 1)%Z | None => false end
     then Throw (mkError (str "Stale detection days must be 1 or greater"))
     else Ok true) = Ok b -> b = true /\ (1 <= staleDaysOf)%Z).
  { unfold isStaleDetectionEnabled, staleDaysOf.
    destruct (getStaleDays cfg) as [d|]; simpl.
    - destruct (d =? 0)%Z eqn:Hd0; simpl.
      + rewrite andb_false_r. simpl. intros H. injection H as <-. split; [reflexivity | lia].
      + destruct (d <? 1)%Z eqn:Hd1; [discriminate|].
        intros H. injection H as <-. split; [reflexivity|]. apply Z.ltb_ge in Hd1. exact Hd1.
    - rewrite !andb_false_r. intros H. injection H as <-. split; [reflexivity | lia]. }
  intros H. destruct (Hdays H) as [Hb Hone].
  split; [exact Hb|]. split; [discriminate|]. split; [discriminate|].
  split; [exists (c3 :: t); split; [reflexivity | discriminate]|].
  split; [exact Hone|]. unfold staleThresholdMs. lia.
Qed.

Lemma finalSummary_nonempty (r : Result) : finalSummary r <> [].
Proof.
  unfold finalSummary. destruct (0 <? length (actions r))%nat.
  - intros H. apply app_eq_nil in H as [H _]. vm_compute in H. discriminate.
  - destruct (summary r); [|discriminate].
    intros H. vm_compute in H. discriminate.
Qed.

(** X14. Every run of the exported [execute] leaves a summary, from every
    state and whatever the REST service answers: when it returns, the
    summary is not empty; when it throws, the summary is [Failed: ] followed
    by the message of the error thrown. *)
Theorem every_run_is_summarized (context : Context) (pulls : Pulls) (s : State) :
  match fst (execute context pulls s) with
  | Ok _ => summary (result (snd (execute context pulls s))) <> []
  | Throw e =>
    summary (result (snd (execute context pulls s))) = str "Failed: " ++ exn_message e
  end.
Proof.
  unfold execute. erewrite bind_ok by reflexivity.
  set (s0 := setResult (emptyResult) s). unfold bind.
  destruct (RepositoryAutomation_execute context pulls s0) as [[[]|e] s1] eqn:Hrun.
  - simpl. apply finalSummary_nonempty.
  - simpl. unfold RepositoryAutomation_execute, tryCatch in Hrun.
    match type of Hrun with
    | (let (o, s') := ?body in _) = _ => destruct body as [[[]|e0] s2]
    end; [discriminate|].
    injection Hrun as <- <-. reflexivity.
Qed.

Lemma eqb_neq (a b : jstr) : a <> b -> eqb a b = false.
Proof. intros H. unfold eqb. apply bool_decide_eq_false_2. exact H. Qed.

Lemma extractPRData_pull_request (context : Context) (pulls : Pulls) :
  eventName context = str "pull_request" ->
  extractPRData context pulls = ret (Some (payload_pull_request context)).
Proof. intros Hev. unfold extractPRData. rewrite Hev, eqb_refl. reflexivity. Qed.

(** X15. A configuration that [validate] refuses stops the run before
    anything is done: the exported [execute] throws the error of [validate],
    makes no call of the REST service, and leaves a result that is empty but
    for the summary [Failed: ] followed by the message. *)
Theorem invalid_configuration_stops_the_run (context : Context) (pulls : Pulls)
  (s : State) (e : Exn) :
  validate cfg context = Throw e ->
  execute context pulls s =
  (Throw e,
   setResult {| labelsAdded := []; actions := [];
                summary := str "Failed: " ++ exn_message e; stalePRsFound := 0 |} s).
Proof.
  intros Hv. unfold execute. erewrite bind_ok by reflexivity.
  set (s0 := setResult emptyResult s).
  assert (Hrun : RepositoryAutomation_execute context pulls s0 =
                 (Throw e,
                  setResult {| labelsAdded := []; actions := [];
                               summary := str "Failed: " ++ exn_message e;
                               stalePRsFound := 0 |} s)).
  { unfold RepositoryAutomation_execute, tryCatch.
    erewrite bind_throw by (rewrite Hv; reflexivity). reflexivity. }
  erewrite bind_throw by exact Hrun. reflexivity.
Qed.

Lemma labelAutomation_draft (context : Context) (pulls : Pulls) (features : Features)
  (s : State) :
  eventName context = str "pull_request" ->
  draft (payload_pull_request context) = true ->
  LabelAutomation_execute context pulls features s = (Ok tt, s).
Proof.
  intros Hev Hdraft. unfold LabelAutomation_execute. apply tryCatch_ok.
  rewrite extractPRData_pull_request by exact Hev.
  erewrite bind_ok by reflexivity. cbv beta iota. rewrite Hdraft. reflexivity.
Qed.

(** X16. A draft pull request is left alone: on a [pull_request] event for a
    draft, with a configuration that [validate] accepts and stale detection
    not enabled, the exported [execute] returns normally without any call of
    the REST service; no label, comment or check run changes, and the result
    is empty but for the summary [No actions needed]. *)
Theorem draft_pull_request_is_left_alone (context : Context) (pulls : Pulls) (s : State) :
  eventName context = str "pull_request" ->
  draft (payload_pull_request context) = true ->
  validate cfg context = Ok true ->
  staleDetection (detectEnabledFeatures cfg context) = false ->
  execute context pulls s =
  (Ok tt,
   setResult {| labelsAdded := []; actions := [];
                summary := str "No actions needed"; stalePRsFound := 0 |} s).
Proof.
  intros Hev Hdraft Hv Hstale. unfold execute. erewrite bind_ok by reflexivity.
  set (s0 := setResult emptyResult s).
  assert (Hrun : RepositoryAutomation_execute context pulls s0 = (Ok tt, s0)).
  { unfold RepositoryAutomation_execute. apply tryCatch_ok.
    erewrite bind_ok by (rewrite Hv; reflexivity).
    erewrite bind_ok.
    2:{ unfold executeTriageAutomation. rewrite Hev.
        rewrite (eqb_neq (str "pull_request") (str "issues")) by discriminate.
        rewrite (eqb_neq (str "pull_request") (str "workflow_run")) by discriminate.
        rewrite eqb_refl. unfold handlePullRequestEvent. rewrite Hdraft. reflexivity. }
    rewrite Hstale.
    assert (Hlabel : executeLabelAutomation context pulls (detectEnabledFeatures cfg context) s0
                     = (Ok tt, s0)).
    { unfold executeLabelAutomation. apply tryCatch_ok.
      rewrite Hev, eqb_refl. cbn [orb].
      erewrite bind_ok.
      2:{ unfold withOwnResult. rewrite labelAutomation_draft by assumption. reflexivity. }
      reflexivity. }
    destruct (releaseLabeling _ || backportLabeling _ || featureBranch _).
    - erewrite bind_ok by exact Hlabel. reflexivity.
    - erewrite bind_ok by reflexivity. reflexivity. }
  erewrite bind_ok by exact Hrun. reflexivity.
Qed.

(** X17. Without a YAML block nothing is labelled: on a [pull_request] event
    whose description holds no fenced YAML block, [LabelAutomation.execute]
    returns normally from every state, whatever features are enabled and
    whatever the REST service answers; it can only delete comments: no
    label, no check run and no entry of the result changes. *)
Theorem no_yaml_block_no_labels (context : Context) (pulls : Pulls) (features : Features)
  (s : State) :
  eventName context = str "pull_request" ->
  parseYamlFromText (default [] (body (payload_pull_request context))) = None ->
  exists s',
    LabelAutomation_execute context pulls features s = (Ok tt, s') /\
    deletesOnly s s'.
Proof.
  intros Hev Hnone. unfold LabelAutomation_execute.
  rewrite extractPRData_pull_request by exact Hev.
  set (pr := payload_pull_request context) in *.
  destruct (draft pr) eqn:Hdraft.
  - exists s. split; [|apply deletesOnly_refl].
    apply tryCatch_ok. erewrite bind_ok by reflexivity. cbv beta iota.
    fold pr. rewrite Hdraft. reflexivity.
  - assert (Hone : forall (b : bool) (identifier : jstr) (s1 : State),
              exists s2,
                (if b then cleanupWorkflowComments (number pr) identifier else ret tt) s1
                = (Ok tt, s2) /\ deletesOnly s1 s2).
    { intros b identifier s1. destruct b.
      - destruct (cleanup_harmless (number pr) identifier s1) as (s2 & Hrun & Hdel & _).
        exists s2. split; assumption.
      - exists s1. split; [reflexivity | apply deletesOnly_refl]. }
    destruct (Hone (featureBranch features) markerFeatureBranch s) as (s1 & Hrun1 & Hdel1).
    destruct (Hone (releaseLabeling features || backportLabeling features)
                markerReleaseBackport s1) as (s2 & Hrun2 & Hdel2).
    exists s2. split; [|exact (deletesOnly_trans _ _ _ Hdel1 Hdel2)].
    apply tryCatch_ok. erewrite bind_ok by reflexivity. cbv beta iota zeta.
    fold pr. rewrite Hdraft, Hnone. cbn [truthyString negb].
    erewrite bind_ok by exact Hrun1. exact Hrun2.
Qed.

(** X18. What [handleIssueEvent] reports for an opened issue, from every
    state and whatever the REST service answers: when it returns, the summary
    says the issue was processed; when it throws, the summary holds the
    message of the error thrown; and the only label it can report is
    [triage]. *)
Theorem issue_event_is_reported (context : Context) (s : State) :
  payload_action context = str "opened" ->
  let n := issue_number context in
  let out := handleIssueEvent context s in
  match fst out with
  | Ok _ => summary (result (snd out)) = str "Successfully processed issue #" ++ ofN n
  | Throw e =>
    summary (result (snd out)) =
    str "Failed to process issue #" ++ ofN n ++ str ": " ++ exn_message e
  end /\
  (labelsAdded (result (snd out)) = labelsAdded (result s) \/
   labelsAdded (result (snd out)) = labelsAdded (result s) ++ [str "triage"]).
Proof.
  intros Hact n out. unfold out, handleIssueEvent. rewrite Hact, eqb_refl. cbn [negb].
  fold n. unfold tryCatch, bind.
  pose proof (labelsOnly_addLabels n [str "triage"] s) as Hstep.
  destruct (addLabels n [str "triage"] s) as [[r|e] s1] eqn:Hadd; simpl in Hstep;
    destruct Hstep as (_ & _ & _ & _ & Hres).
  - destruct (addLabels_added _ _ _ _ _ Hadd) as [Hr|Hr]; rewrite Hr; simpl.
    + split; [reflexivity|]. right. rewrite Hres. reflexivity.
    + split; [reflexivity|]. left. rewrite Hres. reflexivity.
  - simpl. split; [reflexivity|]. left. rewrite Hres. reflexivity.
Qed.

Lemma hasLabels_protection (n : N) (s : State) (i : Issue) :
  answered s -> issues (world s) !! n = Some i ->
  hasLabels n [str "release *"; str "backport *"] s =
  (Ok [(str "release *", existsb (fun l => startsWith l (str "release ")) (issue_labels i));
       (str "backport *", existsb (fun l => startsWith l (str "backport ")) (issue_labels i))],
   s).
Proof.
  intros Ha Hi. unfold hasLabels.
  erewrite bind_ok by (apply getLabels_run; eassumption).
  reflexivity.
Qed.

Lemma labelCheck_protection (b1 b2 : bool) :
  let checks := [(str "release *", b1); (str "backport *", b2)] in
  labelCheck checks (str "release *") = b1 /\ labelCheck checks (str "backport *") = b2.
Proof. split; vm_compute; reflexivity. Qed.

(** X19. What triage protection decides, the service answering.  The label
    [triage] is put back (reported in [labelsAdded]; on the issue outside a
    dry run) exactly when the issue has no label that starts with [release ]
    or [backport ], the prefix ending in a space; otherwise nothing changes.
    So the labels [release-...] and [backport-...] that the release/backport
    rule adds do not keep [triage] from being put back. *)
Theorem triage_protection_decision (n : N) (eventType : jstr) (s : State) (i : Issue) :
  answered s ->
  issues (world s) !! n = Some i ->
  let have := issue_labels i in
  let spared :=
    existsb (fun l => startsWith l (str "release ")) have ||
    existsb (fun l => startsWith l (str "backport ")) have in
  (forall v, startsWith (str "release-" ++ v) (str "release ") = false /\
             startsWith (str "backport-" ++ v) (str "backport ") = false) /\
  exists s',
    handleTriageProtection n eventType s = (Ok tt, s') /\
    (spared = true -> s' = s) /\
    (spared = false ->
     labelsAdded (result s') = labelsAdded (result s) ++ [str "triage"] /\
     (isDryRun cfg = true -> issues (world s') = issues (world s)) /\
     (isDryRun cfg = false ->
      issues (world s') = <[n := setLabels (Rest.addNew have [str "triage"]) i]> (issues (world s)))).
Proof.
  intros Ha Hi. cbv zeta. split; [intros v; split; reflexivity|].
  unfold handleTriageProtection.
  set (b1 := existsb (fun l => startsWith l (str "release ")) (issue_labels i)).
  set (b2 := existsb (fun l => startsWith l (str "backport ")) (issue_labels i)).
  destruct (labelCheck_protection b1 b2) as [Hc1 Hc2].
  assert (Hchecks : hasLabels n [str "release *"; str "backport *"] s =
                    (Ok [(str "release *", b1); (str "backport *", b2)], s)).
  { apply hasLabels_protection; assumption. }
  destruct (b1 || b2) eqn:Hsp.
  - exists s. split; [|split; [reflexivity | discriminate]].
    apply tryCatch_ok. erewrite bind_ok by exact Hchecks.
    cbv zeta. rewrite Hc1, Hc2, <- negb_orb, Hsp. reflexivity.
  - destruct (addLabels_any n [str "triage"] s i Ha Hi)
      as (s1 & Hadd & _ & Hres & _ & _ & Hdry & Hwet).
    eexists. split; [|split; [discriminate|]].
    + apply tryCatch_ok. erewrite bind_ok by exact Hchecks.
      cbv zeta. rewrite Hc1, Hc2, <- negb_orb, Hsp.
      cbn [negb]. erewrite bind_ok by exact Hadd. cbn [added].
      change (0 <? length [str "triage"])%nat with true. cbv iota.
      erewrite bind_ok by reflexivity. reflexivity.
    + intros _. simpl. rewrite Hres. split; [reflexivity|]. split.
      * intros Hd. rewrite (Hdry Hd). reflexivity.
      * intros Hd. exact (Hwet Hd).
Qed.

(** ** The labels a run can add *)

Lemma known_refl (s : State) : addsKnownLabels s s.
Proof.
  split.
  - exists []. rewrite app_nil_r. split; reflexivity.
  - intros n i' Hi. exists i'. split; [exact Hi | auto].
Qed.

Lemma known_trans (s1 s2 s3 : State) :
  addsKnownLabels s1 s2 -> addsKnownLabels s2 s3 -> addsKnownLabels s1 s3.
Proof.
  intros [(m1 & Hl1 & Hk1) Hi1] [(m2 & Hl2 & Hk2) Hi2]. split.
  - exists (m1 ++ m2). rewrite Hl2, Hl1, <- app_assoc, forallb_app, Hk1, Hk2.
    split; reflexivity.
  - intros n i3 H3. destruct (Hi2 n i3 H3) as (i2 & H2 & Hsub2).
    destruct (Hi1 n i2 H2) as (i1 & H1 & Hsub1).
    exists i1. split; [exact H1|]. intros l Hl.
    destruct (Hsub2 l Hl) as [Hin|Hk]; [exact (Hsub1 l Hin) | right; exact Hk].
Qed.

(** A step that changes neither the issues nor the labels reported. *)
Lemma known_same (s s' : State) :
  issues (world s') = issues (world s) ->
  labelsAdded (result s') = labelsAdded (result s) ->
  addsKnownLabels s s'.
Proof.
  intros Hi Hl. split.
  - exists []. rewrite app_nil_r. split; [exact Hl | reflexivity].
  - intros n i' H. rewrite Hi in H. exists i'. split; [exact H | auto].
Qed.

Lemma known_faults (s : State) (fs : list (option Exn)) :
  addsKnownLabels s (setWorld (setFaults fs (world s)) s).
Proof. apply known_same; reflexivity. Qed.

Ltac known := steps known_refl known_trans known_faults.

Lemma known_keeps {A} (m : M A) : keepsLabels m -> stateStep addsKnownLabels m.
Proof.
  intros H s. destruct (H s) as [Hi Hr]. apply known_same; [exact Hi | rewrite Hr; reflexivity].
Qed.

Lemma known_sameData {A} (m : M A) : stateStep sameData m -> stateStep addsKnownLabels m.
Proof.
  intros H s. destruct (H s) as (Hi & _ & _ & _ & _ & Hr).
  apply known_same; [exact Hi | rewrite Hr; reflexivity].
Qed.

Lemma known_deletesOnly {A} (m : M A) : stateStep deletesOnly m -> stateStep addsKnownLabels m.
Proof.
  intros H s. destruct (H s) as (Hi & _ & _ & _ & Hr & _).
  apply known_same; [exact Hi | rewrite Hr; reflexivity].
Qed.

Lemma known_modifyResult (f : Result -> Result) :
  (forall r, labelsAdded (f r) = labelsAdded r) -> stateStep addsKnownLabels (modifyResult f).
Proof. intros H s. apply known_same; [reflexivity | apply H]. Qed.

Lemma known_pushLabelsAdded (more : list jstr) :
  forallb knownLabel more = true -> stateStep addsKnownLabels (pushLabelsAdded more).
Proof.
  intros Hk s. split.
  - exists more. split; [reflexivity | exact Hk].
  - intros n i' H. exists i'. split; [exact H | auto].
Qed.

Lemma addNew_in (have new : list jstr) (l : jstr) :
  In l (Rest.addNew have new) -> In l have \/ In l new.
Proof.
  revert have. induction new as [|x new IH]; intros have; simpl; [auto|].
  intros H. apply IH in H as [H|H]; [|auto].
  destruct (arrayIncludes have x); [auto|].
  apply in_app_or in H as [H|[<-|[]]]; auto.
Qed.

(** The continuation of a call may rely on what the call returns. *)
Lemma step_bind_with (R : State -> State -> Prop) {A B} (Q : A -> Prop)
  (m : M A) (f : A -> M B) :
  (forall s1 s2 s3, R s1 s2 -> R s2 s3 -> R s1 s3) ->
  stateStep R m ->
  (forall s a s', m s = (Ok a, s') -> Q a) ->
  (forall a, Q a -> stateStep R (f a)) ->
  stateStep R (bind m f).
Proof.
  intros Htrans Hm HQ Hf s. unfold bind. specialize (Hm s). specialize (HQ s).
  destruct (m s) as [[a|e] s1]; simpl in Hm; [|exact Hm].
  eapply Htrans; [exact Hm | apply Hf, (HQ a s1); reflexivity].
Qed.

Lemma known_getLabels (n : N) : stateStep addsKnownLabels (getLabels n).
Proof. apply known_sameData, reads_getLabels. Qed.

Lemma known_addLabels (n : N) (new : list jstr) :
  forallb knownLabel new = true -> stateStep addsKnownLabels (addLabels n new).
Proof.
  intros Hk. unfold addLabels. destruct (isDryRun cfg); known.
  - unfold Rest.addLabels. destruct (issues (world s) !! n) as [i|] eqn:Hi; simpl.
    + split; [exists []; rewrite app_nil_r; split; reflexivity|].
      intros m i' H. simpl in H. destruct (decide (m = n)) as [->|Hne].
      * rewrite lookup_insert_eq in H. injection H as <-. exists i. split; [exact Hi|].
        intros l Hl. simpl in Hl. apply addNew_in in Hl as [Hl|Hl]; [left; exact Hl|].
        right. exact (proj1 (forallb_forall _ _) Hk l Hl).
      * rewrite lookup_insert_ne in H by congruence. exists i'. split; [exact H | auto].
    + rewrite setWorld_same. apply known_refl.
  - destruct (decide (exn_status e = Some 403%N)) as [H403|H403].
    + rewrite handleLabelError_403 by exact H403. known.
    + destruct (decide (exn_status e = Some 422%N)) as [H422|H422].
      * rewrite handleLabelError_422 by exact H422. unfold handle422Error.
        apply (step_tryCatch _ known_trans); [|known].
        apply (step_bind _ known_trans); [apply known_getLabels|].
        intros cur. cbv beta zeta.
        destruct (0 <? length (List.filter (arrayIncludes cur) new))%nat; known.
      * rewrite handleLabelError_other by assumption. known.
Qed.

Lemma added_known (n : N) (new : list jstr) (s s' : State) (r : AddResult) :
  forallb knownLabel new = true ->
  addLabels n new s = (Ok r, s') -> forallb knownLabel (added r) = true.
Proof.
  intros Hk H. destruct (addLabels_added _ _ _ _ _ H) as [-> | ->]; [exact Hk | reflexivity].
Qed.

(** Adding one label and reporting it. *)
Lemma known_add_and_report (n : N) (new : list jstr) (after : AddResult -> M unit) :
  forallb knownLabel new = true ->
  (forall r, forallb knownLabel (added r) = true -> stateStep addsKnownLabels (after r)) ->
  stateStep addsKnownLabels (let* result := addLabels n new in after result).
Proof.
  intros Hk Hafter.
  apply (step_bind_with _ (fun r => forallb knownLabel (added r) = true) _ _ known_trans).
  - apply known_addLabels. exact Hk.
  - intros s r s' H. exact (added_known _ _ _ _ _ Hk H).
  - exact Hafter.
Qed.

Lemma known_pushAction (action : jstr) : stateStep addsKnownLabels (pushAction action).
Proof. apply known_modifyResult. reflexivity. Qed.

Lemma known_setSummary (text : jstr) : stateStep addsKnownLabels (setSummary text).
Proof. apply known_modifyResult. reflexivity. Qed.

Lemma known_report (r : AddResult) (action : jstr) :
  forallb knownLabel (added r) = true ->
  stateStep addsKnownLabels
    (if (0 <? length (added r))%nat
     then pushLabelsAdded (added r) >> pushAction action
     else ret tt).
Proof.
  intros Hk. destruct (0 <? length (added r))%nat; [|known].
  apply (step_bind _ known_trans); [apply known_pushLabelsAdded; exact Hk|].
  intros _. apply known_pushAction.
Qed.

Lemma known_handleReadyForReviewLabel (n : N) (hasLabel : bool) :
  stateStep addsKnownLabels (handleReadyForReviewLabel n hasLabel).
Proof.
  unfold handleReadyForReviewLabel. destruct hasLabel; cbn [negb]; [known|].
  apply known_add_and_report; [reflexivity|]. intros r Hr. apply known_report. exact Hr.
Qed.

Lemma known_handleTriageLabel (n : N) (hasLabel hasReleaseLabel : bool) :
  stateStep addsKnownLabels (handleTriageLabel n hasLabel hasReleaseLabel).
Proof.
  unfold handleTriageLabel. destruct hasLabel; cbn [negb]; [known|].
  apply known_add_and_report; [reflexivity|]. intros r Hr.
  destruct (0 <? length (added r))%nat; [|known].
  apply (step_bind _ known_trans); [apply known_pushLabelsAdded; exact Hr|].
  intros _. cbv zeta. apply known_pushAction.
Qed.

Lemma known_hasLabels (n : N) (names : list jstr) : stateStep addsKnownLabels (hasLabels n names).
Proof.
  unfold hasLabels. apply (step_bind _ known_trans); [apply known_getLabels | known].
Qed.

Lemma known_handlePullRequestEvent (prData : PullRequest) :
  stateStep addsKnownLabels (handlePullRequestEvent prData).
Proof.
  unfold handlePullRequestEvent. destruct (draft prData); [known|].
  apply (step_bind _ known_trans).
  { destruct (negb (isDryRun cfg)); [|known]. intros s. apply known_same; reflexivity. }
  intros _. apply (step_tryCatch _ known_trans).
  - apply (step_bind _ known_trans); [apply known_getLabels|]. intros cur.
    apply (step_bind _ known_trans); [apply known_hasLabels|]. intros checks. cbv zeta.
    destruct ((labelCheck checks (str "release *") || _) && negb false);
      [apply known_handleReadyForReviewLabel|].
    destruct (negb (labelCheck checks (str "backport *")) && _);
      [apply known_handleTriageLabel | known].
  - intros e. apply (step_bind _ known_trans); [apply known_setSummary | known].
Qed.

Lemma known_handleIssueEvent (context : Context) :
  stateStep addsKnownLabels (handleIssueEvent context).
Proof.
  unfold handleIssueEvent. destruct (negb (eqb (payload_action context) (str "opened"))); [known|].
  cbv zeta. apply (step_tryCatch _ known_trans).
  - apply known_add_and_report; [reflexivity|]. intros r Hr.
    apply (step_bind _ known_trans); [apply known_report; exact Hr|].
    intros _. apply known_setSummary.
  - intros e. apply (step_bind _ known_trans); [apply known_setSummary | known].
Qed.

Lemma known_pullsList {A} (answer : list PullRequest) (k : list PullRequest -> M A) :
  (forall prs, stateStep addsKnownLabels (k prs)) ->
  stateStep addsKnownLabels (let* prs := rest (pullsList answer) in k prs).
Proof.
  intros Hk. apply (step_bind _ known_trans); [|exact Hk].
  apply (step_rest _ known_trans known_faults). intros s. simpl.
  rewrite setWorld_same. apply known_refl.
Qed.

Lemma known_findPRByBranch (pulls : Pulls) (branchName : jstr) :
  stateStep addsKnownLabels (findPRByBranch pulls branchName).
Proof.
  unfold findPRByBranch. apply (step_tryCatch _ known_trans); [|known].
  apply known_pullsList. known.
Qed.

Lemma known_handleWorkflowRunEvent (context : Context) (pulls : Pulls) :
  stateStep addsKnownLabels (handleWorkflowRunEvent context pulls).
Proof.
  unfold handleWorkflowRunEvent. cbv zeta.
  destruct (negb (eqb _ (str "success"))); [known|].
  destruct (negb (truthyString _) || _); [known|].
  apply (step_bind _ known_trans); [apply known_findPRByBranch|].
  intros [pr|]; [|known].
  destruct (eqb (pr_state pr) (str "closed")); [known | apply known_handlePullRequestEvent].
Qed.

Lemma known_executeTriageAutomation (context : Context) (pulls : Pulls) :
  stateStep addsKnownLabels (executeTriageAutomation context pulls).
Proof.
  unfold executeTriageAutomation.
  destruct (eqb _ (str "issues")); [apply known_handleIssueEvent|].
  destruct (eqb _ (str "workflow_run")); [apply known_handleWorkflowRunEvent|].
  destruct (eqb _ (str "pull_request")); [apply known_handlePullRequestEvent | known].
Qed.

Lemma known_createCheckRun (name sha url : jstr) :
  stateStep addsKnownLabels (createCheckRun name sha url).
Proof. apply known_keeps, keeps_createCheckRun. Qed.

Lemma known_updateCheckRun (id : CheckId) (st concl : jstr) (out : CheckOutput) :
  stateStep addsKnownLabels (updateCheckRun id st concl out).
Proof. apply known_keeps, keeps_updateCheckRun. Qed.

Lemma known_createComment (n : N) (text : jstr) : stateStep addsKnownLabels (createComment n text).
Proof. apply known_keeps, keeps_createComment. Qed.

Lemma known_cleanup (n : N) (identifier : jstr) :
  stateStep addsKnownLabels (cleanupWorkflowComments n identifier).
Proof. apply known_deletesOnly, deletes_cleanup. Qed.

Lemma collectLabels_known (features : Features) (yamlContent : jstr) (cur : list jstr) :
  forallb knownLabel (snd (collectLabels features yamlContent cur)) = true.
Proof.
  assert (HR : forall h l, In l (snd (collectResult (processReleaseLabel yamlContent h) ([], []))) ->
                           knownLabel l = true).
  { intros h l Hl. apply contribution_labels, release_labels_hyphenated in Hl as [v ->].
    unfold knownLabel. rewrite (startsWith_app (str "release-") v).
    rewrite orb_true_r. reflexivity. }
  assert (HB : forall h l, In l (snd (collectResult (processBackportLabel yamlContent h) ([], []))) ->
                           knownLabel l = true).
  { intros h l Hl. apply contribution_labels, backport_labels_hyphenated in Hl as [v ->].
    unfold knownLabel. rewrite (startsWith_app (str "backport-") v).
    apply orb_true_r. }
  unfold collectLabels. apply forallb_forall. intros l.
  destruct (releaseLabeling features), (backportLabeling features); simpl.
  - rewrite collectResult_split. simpl. intros Hl. apply in_app_or in Hl as [Hl|Hl].
    + exact (HR _ l Hl).
    + exact (HB _ l Hl).
  - apply HR.
  - apply HB.
  - contradiction.
Qed.

Lemma known_releaseBackport (prData : PullRequest) (yamlContent : jstr) (features : Features) :
  stateStep addsKnownLabels (processReleaseBackportLabeling prData yamlContent features).
Proof.
  unfold processReleaseBackportLabeling. cbv zeta.
  apply (step_bind _ known_trans); [apply known_createCheckRun|]. intros checkRun.
  apply (step_tryCatch _ known_trans).
  - apply (step_bind _ known_trans); [apply known_getLabels|]. intros cur.
    pose proof (collectLabels_known features yamlContent cur) as Hk.
    destruct (collectLabels features yamlContent cur) as [errs labs]. simpl in Hk.
    destruct (0 <? length errs)%nat.
    + apply (step_bind _ known_trans); [apply known_updateCheckRun|].
      intros _. apply known_createComment.
    + apply (step_bind _ known_trans); [apply known_cleanup|]. intros _.
      destruct (0 <? length labs)%nat; [|apply known_updateCheckRun].
      apply known_add_and_report; [exact Hk|]. intros r Hr.
      apply (step_bind _ known_trans); [apply known_pushLabelsAdded; exact Hr|]. intros _.
      apply (step_bind _ known_trans); [apply known_pushAction|]. intros _.
      apply known_updateCheckRun.
  - intros e. apply (step_bind _ known_trans); [apply known_updateCheckRun | known].
Qed.

Lemma known_featureBranch (prData : PullRequest) (yamlContent : jstr) :
  stateStep addsKnownLabels (processFeatureBranchLabeling prData yamlContent).
Proof.
  unfold processFeatureBranchLabeling. cbv zeta.
  apply (step_bind _ known_trans); [apply known_createCheckRun|]. intros checkRun.
  apply (step_tryCatch _ known_trans).
  - apply (step_bind _ known_trans); [apply known_getLabels|]. intros cur.
    assert (Hdone : forall out,
              stateStep addsKnownLabels
                (cleanupWorkflowComments (number prData) markerFeatureBranch >>
                 updateCheckRun checkRun (str "completed") (str "success") out)).
    { intros out. apply (step_bind _ known_trans); [apply known_cleanup|].
      intros _. apply known_updateCheckRun. }
    destruct (arrayIncludes cur (str "feature-branch")); [apply Hdone|].
    destruct (parseYamlValue yamlContent NeedsFeatureBranch) as [[v|vs]|];
      [| known | apply Hdone].
    destruct (eqb (toLowerCase v) (str "true")).
    + apply known_add_and_report; [reflexivity|]. intros r Hr.
      apply (step_bind _ known_trans); [apply known_pushLabelsAdded; exact Hr|]. intros _.
      apply (step_bind _ known_trans); [apply known_pushAction|]. intros _.
      apply Hdone.
    + destruct (eqb (toLowerCase v) (str "false") || eqb (toLowerCase v) []); [apply Hdone|].
      unfold handleFeatureBranchValidationError.
      apply (step_bind _ known_trans); [apply known_updateCheckRun|].
      intros _. apply known_createComment.
  - intros e. apply (step_bind _ known_trans); [apply known_updateCheckRun | known].
Qed.

Lemma known_extractPRData (context : Context) (pulls : Pulls) :
  stateStep addsKnownLabels (extractPRData context pulls).
Proof.
  unfold extractPRData. destruct (eqb _ (str "pull_request")); [known|].
  destruct (eqb _ (str "workflow_run")); [|known]. cbv zeta.
  destruct (negb (truthyString _) || _); [known|].
  apply (step_bind _ known_trans); [apply known_findPRByBranch|].
  intros [pr|]; [|known]. destruct (eqb (pr_state pr) (str "closed")); known.
Qed.

Lemma known_labelAutomation (context : Context) (pulls : Pulls) (features : Features) :
  stateStep addsKnownLabels (LabelAutomation_execute context pulls features).
Proof.
  unfold LabelAutomation_execute. apply (step_tryCatch _ known_trans); [|known].
  apply (step_bind _ known_trans); [apply known_extractPRData|].
  intros [prData|]; [|known]. destruct (draft prData); [known|]. cbv zeta.
  destruct (negb (truthyString _)).
  - apply (step_bind _ known_trans).
    + destruct (featureBranch features); [apply known_cleanup | known].
    + intros _. destruct (releaseLabeling features || backportLabeling features);
        [apply known_cleanup | known].
  - apply (step_bind _ known_trans).
    + destruct (releaseLabeling features || backportLabeling features);
        [apply known_releaseBackport | known].
    + intros _. destruct (featureBranch features); [apply known_featureBranch | known].
Qed.

Lemma known_processPR (pr : PullRequest) (now : Z) : stateStep addsKnownLabels (processPR pr now).
Proof.
  unfold processPR. cbv zeta. destruct (draft pr); [known|].
  destruct (existsb _ (pr_labels pr)); [known|].
  apply (step_bind _ known_trans); [apply known_sameData, reads_getLastActivityDate|].
  intros date. destruct (staleThresholdMs <? now - date)%Z; [|known].
  unfold markPRAsStale. apply (step_tryCatch _ known_trans); [|known].
  apply known_add_and_report; [reflexivity|]. intros r Hr.
  destruct (0 <? length (added r))%nat; [|known].
  apply (step_bind _ known_trans); [apply known_pushLabelsAdded; exact Hr|]. intros _.
  apply (step_bind _ known_trans); [apply known_pushAction|]. intros _.
  apply known_modifyResult. reflexivity.
Qed.

Lemma known_staleDetection (pulls : Pulls) :
  stateStep addsKnownLabels (StaleDetection_execute pulls).
Proof.
  unfold StaleDetection_execute. apply (step_tryCatch _ known_trans); [|known].
  apply (step_bind _ known_trans); [intros s; apply known_refl|]. intros now.
  apply (step_bind _ known_trans).
  { unfold listOpenPRs. apply (step_tryCatch _ known_trans); [|known].
    apply (step_rest _ known_trans known_faults). intros s. simpl.
    rewrite setWorld_same. apply known_refl. }
  intros prs. cbv zeta. apply (step_bind _ known_trans); [|known].
  apply (step_forEachM _ known_refl known_trans). intros pr.
  apply (step_tryCatch _ known_trans); [apply known_processPR | known].
Qed.

(** A class instance with a result of its own: what it reports is known, and
    the caller's result is not touched. *)
Lemma known_withOwnResult {A} (m : M A) (s : State) :
  stateStep addsKnownLabels m ->
  addsKnownLabels s (snd (withOwnResult m s)) /\
  labelsAdded (result (snd (withOwnResult m s))) = labelsAdded (result s) /\
  forall r, fst (withOwnResult m s) = Ok r -> forallb knownLabel (labelsAdded r) = true.
Proof.
  intros Hm. unfold withOwnResult.
  destruct (Hm (setResult emptyResult s)) as [(more & Hl & Hk) Hi].
  destruct (m (setResult emptyResult s)) as [[a|e] s1]; simpl in *.
  - split; [|split; [reflexivity|]].
    + split; [exists []; rewrite app_nil_r; split; reflexivity | exact Hi].
    + intros r H. injection H as <-. rewrite Hl. exact Hk.
  - split; [|split; [reflexivity | discriminate]].
    split; [exists []; rewrite app_nil_r; split; reflexivity | exact Hi].
Qed.

Lemma known_merge {A} (m : M A) :
  stateStep addsKnownLabels m ->
  stateStep addsKnownLabels
    (let* sub := withOwnResult m in
     pushLabelsAdded (labelsAdded sub) >> pushActions (actions sub)).
Proof.
  intros Hm.
  apply (step_bind_with _ (fun r => forallb knownLabel (labelsAdded r) = true) _ _ known_trans).
  - intros s. apply known_withOwnResult. exact Hm.
  - intros s r s' H. destruct (known_withOwnResult m s Hm) as (_ & _ & Hr).
    apply Hr. rewrite H. reflexivity.
  - intros r Hr. apply (step_bind _ known_trans); [apply known_pushLabelsAdded; exact Hr|].
    intros _. apply known_modifyResult. reflexivity.
Qed.

Lemma known_repositoryAutomation (context : Context) (pulls : Pulls) :
  stateStep addsKnownLabels (RepositoryAutomation_execute context pulls).
Proof.
  unfold RepositoryAutomation_execute. cbv zeta.
  apply (step_tryCatch _ known_trans).
  - apply (step_bind _ known_trans); [intros s; apply known_refl|]. intros _.
    apply (step_bind _ known_trans); [apply known_executeTriageAutomation|]. intros _.
    apply (step_bind _ known_trans).
    + destruct (releaseLabeling _ || backportLabeling _ || featureBranch _); [|known].
      unfold executeLabelAutomation. apply (step_tryCatch _ known_trans); [|known].
      destruct (eqb _ (str "pull_request") || _); [|known].
      apply known_merge, known_labelAutomation.
    + intros _. destruct (staleDetection _); [|known].
      unfold executeStaleDetection. apply (step_tryCatch _ known_trans); [|known].
      destruct (eqb _ (str "schedule") || _); [|known].
      apply known_merge, known_staleDetection.
  - intros e. apply (step_bind _ known_trans); [apply known_setSummary | known].
Qed.

(** X20. The labels a run can add.  From every state and whatever the REST
    service answers, after the exported [execute] every label reported in
    [labelsAdded] is one of [triage], [ready for review], [stale],
    [feature-branch] or starts with [release-] or [backport-]; and every
    label that is on an issue or pull request afterwards was on it before or
    is such a label. *)
Theorem only_known_labels_are_added (context : Context) (pulls : Pulls) (s : State) :
  forallb knownLabel (labelsAdded (result (snd (execute context pulls s)))) = true /\
  forall n i', issues (world (snd (execute context pulls s))) !! n = Some i' ->
    exists i, issues (world s) !! n = Some i /\
              forall l, In l (issue_labels i') -> In l (issue_labels i) \/ knownLabel l = true.
Proof.
  unfold execute. erewrite bind_ok by reflexivity.
  set (s0 := setResult emptyResult s). unfold bind.
  destruct (known_repositoryAutomation context pulls s0) as [(more & Hl & Hk) Hi].
  destruct (RepositoryAutomation_execute context pulls s0) as [[[]|e] s1];
    simpl in *; (split; [rewrite Hl; exact Hk | exact Hi]).
Qed.

(** ** A whole stale run *)

Lemma processPR_exact (pr : PullRequest) (now : Z) (s : State) (i : Issue) :
  answered s ->
  issues (world s) !! number pr = Some i ->
  exists s',
    processPR pr now s = (Ok tt, s') /\
    answered s' /\
    comments (world s') = comments (world s) /\
    staleReported (if isStaleAt s now pr then 1 else 0) s s' /\
    (isDryRun cfg = true -> world s' = world s) /\
    (isDryRun cfg = false ->
     issues (world s') =
     if isStaleAt s now pr
     then <[number pr := setLabels (Rest.addNew (issue_labels i) [str "stale"]) i]>
            (issues (world s))
     else issues (world s)).
Proof.
  intros Ha Hi. unfold processPR, isStaleAt, staleCandidate, lastActivityIn. rewrite Hi.
  assert (Hstay : exists s',
            ret tt s = (Ok tt, s') /\ answered s' /\
            comments (world s') = comments (world s) /\
            staleReported 0 s s' /\
            (isDryRun cfg = true -> world s' = world s) /\
            (isDryRun cfg = false -> issues (world s') = issues (world s))).
  { exists s. split; [reflexivity|]. split; [exact Ha|]. split; [reflexivity|].
    split; [apply staleReported_same; reflexivity|]. split; reflexivity. }
  destruct (draft pr); [exact Hstay|].
  destruct (existsb _ (pr_labels pr)); [exact Hstay|]. cbn [negb andb].
  erewrite bind_ok by (apply getLastActivityDate_run; eassumption).
  cbv zeta.
  destruct (staleThresholdMs <? now - _)%Z; [|exact Hstay].
  destruct (addLabels_any (number pr) [str "stale"] s i Ha Hi)
    as (s1 & Hadd & Ha1 & Hres & Hcom & _ & Hdry & Hwet).
  eexists. split.
  { unfold markPRAsStale. apply tryCatch_ok.
    erewrite bind_ok by exact Hadd. cbn [added].
    change (0 <? length [str "stale"])%nat with true. cbv iota.
    erewrite bind_ok by reflexivity. erewrite bind_ok by reflexivity. reflexivity. }
  split; [exact Ha1|]. split; [exact Hcom|]. split.
  { unfold staleReported. simpl. rewrite Hres, length_app. simpl. auto. }
  split.
  - intros Hd. simpl. rewrite (Hdry Hd). reflexivity.
  - intros Hd. simpl. exact (Hwet Hd).
Qed.

Lemma lastActivity_stable (pr : PullRequest) (now : Z) (s s' : State) (i : Issue) :
  issues (world s) !! number pr = Some i ->
  comments (world s') = comments (world s) ->
  (issues (world s') = issues (world s) \/
   issues (world s') =
   <[number pr := setLabels (Rest.addNew (issue_labels i) [str "stale"]) i]> (issues (world s))) ->
  forall m, lastActivityIn s' m = lastActivityIn s m.
Proof.
  intros Hi Hcom [His|His] m; unfold lastActivityIn; rewrite His, Hcom; [reflexivity|].
  destruct (decide (m = number pr)) as [->|Hne].
  - rewrite lookup_insert_eq, Hi. reflexivity.
  - rewrite lookup_insert_ne by congruence. reflexivity.
Qed.

Lemma addNew_again (have : list jstr) (l : jstr) :
  Rest.addNew (Rest.addNew have [l]) [l] = Rest.addNew have [l].
Proof.
  simpl. destruct (arrayIncludes have l) eqn:Hin.
  - rewrite Hin. reflexivity.
  - assert (H : arrayIncludes (have ++ [l]) l = true).
    { unfold arrayIncludes. rewrite existsb_app. simpl. rewrite eqb_refl, orb_true_r. reflexivity. }
    rewrite H. reflexivity.
Qed.

Lemma isStaleAt_stable (s s' : State) (now : Z) (prs : list PullRequest) :
  (forall m, lastActivityIn s' m = lastActivityIn s m) ->
  List.filter (isStaleAt s' now) prs = List.filter (isStaleAt s now) prs.
Proof.
  intros H. apply filter_ext. intros pr. unfold isStaleAt. rewrite H. reflexivity.
Qed.

Lemma forEach_processPR_exact (prs : list PullRequest) (now : Z) (s : State) :
  answered s ->
  (forall pr, In pr prs -> issues (world s) !! number pr <> None) ->
  let stale := List.filter (isStaleAt s now) prs in
  exists s',
    forEachM (fun pr => tryCatch (processPR pr now) (fun error => ret tt)) prs s = (Ok tt, s') /\
    staleReported (length stale) s s' /\
    (isDryRun cfg = true -> world s' = world s) /\
    (isDryRun cfg = false ->
     forall n i, issues (world s) !! n = Some i ->
       exists i', issues (world s') !! n = Some i' /\
                  issue_labels i' =
                  if existsb (fun pr => (number pr =? n)%N) stale
                  then Rest.addNew (issue_labels i) [str "stale"]
                  else issue_labels i).
Proof.
  revert s. induction prs as [|pr prs IH]; intros s Ha Hall stale.
  - exists s. split; [reflexivity|]. split; [apply staleReported_same; reflexivity|].
    split; [reflexivity|]. intros _ n i Hi. exists i. split; [exact Hi | reflexivity].
  - destruct (issues (world s) !! number pr) as [i|] eqn:Hi;
      [|exfalso; apply (Hall pr (or_introl eq_refl)); exact Hi].
    destruct (processPR_exact pr now s i Ha Hi)
      as (s1 & Hrun & Ha1 & Hcom & Hrep & Hdry & Hwet).
    assert (Hiss : issues (world s1) = issues (world s) \/
                   issues (world s1) =
                   <[number pr := setLabels (Rest.addNew (issue_labels i) [str "stale"]) i]>
                     (issues (world s))).
    { destruct (isDryRun cfg) eqn:Hd.
      - left. rewrite (Hdry eq_refl). reflexivity.
      - rewrite (Hwet eq_refl). destruct (isStaleAt s now pr); auto. }
    pose proof (lastActivity_stable pr now s s1 i Hi Hcom Hiss) as Hstable.
    assert (Hall1 : forall pr', In pr' prs -> issues (world s1) !! number pr' <> None).
    { intros pr' Hin. specialize (Hall pr' (or_intror Hin)).
      destruct Hiss as [-> | ->]; [exact Hall|].
      destruct (decide (number pr' = number pr)) as [->|Hne].
      - rewrite lookup_insert_eq. discriminate.
      - rewrite lookup_insert_ne by congruence. exact Hall. }
    destruct (IH s1 Ha1 Hall1) as (s2 & Hrun2 & Hrep2 & Hdry2 & Hwet2).
    rewrite (isStaleAt_stable s s1 now prs Hstable) in Hrep2, Hwet2.
    exists s2. split; [|split; [|split]].
    + cbn [forEachM]. erewrite bind_ok; [exact Hrun2|].
      apply tryCatch_ok. exact Hrun.
    + unfold stale. cbn [List.filter]. destruct (isStaleAt s now pr).
      * exact (staleReported_trans 1 _ _ _ _ Hrep Hrep2).
      * exact (staleReported_trans 0 _ _ _ _ Hrep Hrep2).
    + intros Hd. rewrite (Hdry2 Hd), (Hdry Hd). reflexivity.
    + intros Hd n j Hj. specialize (Hwet Hd). specialize (Hwet2 Hd).
      unfold stale. cbn [List.filter].
      destruct (isStaleAt s now pr) eqn:Hst.
      * cbn [existsb]. destruct (number pr =? n)%N eqn:Hn.
        -- apply N.eqb_eq in Hn. subst n. rewrite Hi in Hj. injection Hj as <-.
           destruct (Hwet2 (number pr)
                       (setLabels (Rest.addNew (issue_labels i) [str "stale"]) i))
             as (i' & Hi' & Hl').
           { rewrite Hwet. apply lookup_insert_eq. }
           exists i'. split; [exact Hi'|]. rewrite Hl'. cbn [orb].
           destruct (existsb _ _); [|reflexivity].
           cbn [issue_labels setLabels]. apply addNew_again.
        -- apply N.eqb_neq in Hn.
           destruct (Hwet2 n j) as (i' & Hi' & Hl').
           { rewrite Hwet. rewrite lookup_insert_ne by congruence. exact Hj. }
           exists i'. split; [exact Hi' | exact Hl'].
      * destruct (Hwet2 n j) as (i' & Hi' & Hl'); [rewrite Hwet; exact Hj|].
        exists i'. split; [exact Hi' | exact Hl'].
Qed.

(** X21. A whole stale run, the REST service answering and every listed pull
    request being known to it.  The run returns normally with all listed
    pull requests counted as processed.  The pull requests it marks are
    exactly those that are no draft, have no [stale] label in the listing
    and whose last activity lies more than the threshold before the start of
    the run: one label [stale], one action and one count are reported for
    each.  In a dry run the repository is unchanged; otherwise each issue or
    pull request has its labels as before, with [stale] added when it is one
    of the marked. *)
Theorem stale_run_marks_exactly_the_stale (pulls : Pulls) (s : State) :
  answered s ->
  (forall pr, In pr (openPulls pulls) -> issues (world s) !! number pr <> None) ->
  let stale := List.filter (isStaleAt s (clock (world s))) (openPulls pulls) in
  exists s',
    StaleDetection_execute pulls s = (Ok (N.of_nat (length (openPulls pulls))), s') /\
    staleReported (length stale) s s' /\
    (isDryRun cfg = true -> world s' = world s) /\
    (isDryRun cfg = false ->
     forall n i, issues (world s) !! n = Some i ->
       exists i', issues (world s') !! n = Some i' /\
                  issue_labels i' =
                  if existsb (fun pr => (number pr =? n)%N) stale
                  then Rest.addNew (issue_labels i) [str "stale"]
                  else issue_labels i).
Proof.
  intros Ha Hall stale.
  destruct (forEach_processPR_exact (openPulls pulls) (clock (world s)) s Ha Hall)
    as (s' & Hrun & Hrep & Hdry & Hwet).
  exists s'. split; [|split; [exact Hrep | split; [exact Hdry | exact Hwet]]].
  unfold StaleDetection_execute. apply tryCatch_ok.
  erewrite bind_ok by reflexivity.
  pose proof (listOpenPRs_cases pulls s) as Hlist. rewrite Ha in Hlist.
  erewrite bind_ok by exact Hlist.
  cbv zeta. erewrite bind_ok by exact Hrun. reflexivity.
Qed.

(** ** The two versions of the parser and of the rule *)

Lemma stripQuotes_brackets (raw : jstr) :
  startsWith raw (str "[") && endsWith raw (str "]") = true -> stripQuotes raw = raw.
Proof.
  intros H. apply andb_true_iff in H as [Hs He].
  destruct raw as [|c s]; [discriminate|].
  apply startsWith_prefix in Hs as [r Hr]. injection Hr as -> _.
  unfold stripQuotes. change (isQuote 91) with false. cbv iota. f_equal.
  unfold dropLastQuote. unfold endsWith in He.
  apply startsWith_prefix in He as [r' Hr']. cbn [rev] in Hr'.
  destruct (rev s) as [|d t]; [reflexivity|].
  injection Hr' as -> _. reflexivity.
Qed.

Lemma parsers_agree (yamlContent : jstr) (field : Field) :
  match Legacy.parseYamlValue yamlContent field with
  | None => parseYamlValue yamlContent field = None
  | Some v =>
    parseYamlValue yamlContent field = Some (Scalar v) \/
    (startsWith v (str "[") && endsWith v (str "]") = true /\
     parseYamlValue yamlContent field = option_map ArrayOf (parseYamlArrayValue v))
  end.
Proof.
  unfold Legacy.parseYamlValue, parseYamlValue, rawValueOf.
  destruct yamlContent as [|c0 y0]; [reflexivity|].
  destruct (matchField true (fieldName field) (c0 :: y0)) as [m|]; [|reflexivity].
  cbv zeta. generalize (trim (stripComment (trim m))). intros raw.
  destruct (startsWith raw (str "[") && endsWith raw (str "]")) eqn:Harr.
  - rewrite (stripQuotes_brackets raw Harr).
    destruct raw as [|c raw']; [discriminate|]. rewrite Harr. right.
    split; reflexivity.
  - destruct raw as [|c raw']; [reflexivity|].
    destruct (stripQuotes (c :: raw')) as [|d w]; [reflexivity|]. left. reflexivity.
Qed.

(** X22. The parser with arrays against the parser without.  Where the
    earlier [parseYamlValue] returns no value, so does the later one.  Where
    it returns a string, the later one returns the same string as a scalar,
    or the string has array syntax and the later one returns what
    [parseYamlArrayValue] makes of it.  So every scalar of the later parser
    is the value the earlier parser returns. *)
Theorem parser_extends_the_earlier_one (yamlContent : jstr) (field : Field) :
  match Legacy.parseYamlValue yamlContent field with
  | None => parseYamlValue yamlContent field = None
  | Some v =>
    parseYamlValue yamlContent field = Some (Scalar v) \/
    (startsWith v (str "[") && endsWith v (str "]") = true /\
     parseYamlValue yamlContent field = option_map ArrayOf (parseYamlArrayValue v))
  end /\
  forall v, parseYamlValue yamlContent field = Some (Scalar v) ->
            Legacy.parseYamlValue yamlContent field = Some v.
Proof.
  split; [apply parsers_agree|].
  intros v Hv. pose proof (parsers_agree yamlContent field) as H.
  destruct (Legacy.parseYamlValue yamlContent field) as [v'|]; [|congruence].
  destruct H as [H|[_ H]].
  - congruence.
  - rewrite Hv in H. destruct (parseYamlArrayValue v'); discriminate.
Qed.

Lemma scalar_parsed_before (yamlContent : jstr) (field : Field) (v : jstr) :
  parseYamlValue yamlContent field = Some (Scalar v) ->
  Legacy.parseYamlValue yamlContent field = Some v.
Proof.
  intros Hv. pose proof (parsers_agree yamlContent field) as H.
  destruct (Legacy.parseYamlValue yamlContent field) as [v'|]; [|congruence].
  destruct H as [H|[_ H]].
  - congruence.
  - rewrite Hv in H. destruct (parseYamlArrayValue v'); discriminate.
Qed.

(** X23. The rule with arrays against the rule without, on a description
    whose field the later parser reads as a scalar [v]: both versions decide
    the same way, with the same error message; where the earlier version
    proposes the label [release v] (resp. [backport v]), with a space, the
    later one proposes [release-v] (resp. [backport-v]), with a hyphen, and
    where the earlier proposes none, so does the later. *)
Theorem scalar_rule_differs_by_separator (yamlContent : jstr) (hasExistingLabel : bool)
  (v : jstr) :
  (parseYamlValue yamlContent Release = Some (Scalar v) ->
   let before := Legacy.processReleaseLabel cfg yamlContent hasExistingLabel in
   let after := processReleaseLabel yamlContent hasExistingLabel in
   error after = Legacy.error before /\
   (Legacy.label before = None /\ labels after = [] \/
    Legacy.label before = Some (str "release " ++ v) /\ labels after = [str "release-" ++ v])) /\
  (parseYamlValue yamlContent Backport = Some (Scalar v) ->
   let before := Legacy.processBackportLabel cfg yamlContent hasExistingLabel in
   let after := processBackportLabel yamlContent hasExistingLabel in
   error after = Legacy.error before /\
   (Legacy.label before = None /\ labels after = [] \/
    Legacy.label before = Some (str "backport " ++ v) /\ labels after = [str "backport-" ++ v])).
Proof.
  split; intros Hv; cbv zeta.
  - unfold Legacy.processReleaseLabel, processReleaseLabel.
    rewrite (scalar_parsed_before _ _ _ Hv), Hv.
    destruct hasExistingLabel; [split; [reflexivity | left; split; reflexivity]|].
    unfold Legacy.validateReleaseValue, validateReleaseValue, validateAgainst.
    destruct (arrayIncludes (getAcceptedReleases cfg) v).
    + split; [reflexivity | right; split; reflexivity].
    + split; [|left; split; reflexivity].
      simpl. unfold quoted. rewrite <- !app_assoc. reflexivity.
  - unfold Legacy.processBackportLabel, processBackportLabel.
    rewrite (scalar_parsed_before _ _ _ Hv), Hv.
    destruct hasExistingLabel; [split; [reflexivity | left; split; reflexivity]|].
    unfold Legacy.validateBackportValue, validateBackportValue, validateAgainst.
    destruct (arrayIncludes (getAcceptedBackports cfg) v).
    + split; [reflexivity | right; split; reflexivity].
    + split; [|left; split; reflexivity].
      simpl. unfold quoted. rewrite <- !app_assoc. reflexivity.
Qed.

(** ** The pull request of a workflow run *)

Lemma findPRByBranch_run (pulls : Pulls) (branchName : jstr) (s : State) :
  answered s ->
  findPRByBranch pulls branchName s = (Ok (hd_error (pullsOfBranch pulls branchName)), s).
Proof.
  intros Ha. unfold findPRByBranch. apply tryCatch_ok.
  erewrite bind_ok; [reflexivity|].
  rewrite rest_answered by exact Ha. simpl. rewrite setWorld_same. reflexivity.
Qed.

(** X24. On a [workflow_run] event, the REST service answering, triage and
    label automation look at the same pull request: [extractPRData] returns
    without changing the state, with no pull request when the head branch is
    missing, empty or [main], when the branch has no pull request, or when
    its first pull request is closed, and with that first pull request
    otherwise, whatever the conclusion of the workflow run; and when the
    conclusion is [success], [handleWorkflowRunEvent] does what
    [handlePullRequestEvent] does on the pull request [extractPRData]
    returns, and nothing when there is none.  With any other conclusion it
    does nothing. *)
Theorem workflow_run_picks_one_pull_request (context : Context) (pulls : Pulls) (s : State) :
  eventName context = str "workflow_run" ->
  answered s ->
  let run := payload_workflow_run context in
  let chosen :=
    match wr_head_branch run with
    | Some (c :: branch) =>
      if eqb (c :: branch) (str "main") then None
      else
        match pullsOfBranch pulls (c :: branch) with
        | pr :: _ => if eqb (pr_state pr) (str "closed") then None else Some pr
        | [] => None
        end
    | _ => None
    end in
  extractPRData context pulls s = (Ok chosen, s) /\
  handleWorkflowRunEvent context pulls s =
  if eqb (wr_conclusion run) (str "success")
  then match chosen with
       | Some pr => handlePullRequestEvent pr s
       | None => (Ok tt, s)
       end
  else (Ok tt, s).
Proof.
  intros Hev Ha run chosen. unfold extractPRData, handleWorkflowRunEvent. rewrite Hev.
  rewrite (eqb_neq (str "workflow_run") (str "pull_request")) by discriminate.
  rewrite eqb_refl. cbv zeta. fold run. unfold chosen.
  destruct (wr_head_branch run) as [[|c branch]|]; cbn [truthyString negb orb from_option id].
  - split; [reflexivity|]. destruct (eqb (wr_conclusion run) (str "success")); reflexivity.
  - destruct (eqb (c :: branch) (str "main")).
    + split; [reflexivity|]. destruct (eqb (wr_conclusion run) (str "success")); reflexivity.
    + split.
      * erewrite bind_ok by (apply findPRByBranch_run; exact Ha).
        destruct (pullsOfBranch pulls (c :: branch)) as [|pr prs]; cbn [hd_error];
          [reflexivity|].
        destruct (eqb (pr_state pr) (str "closed")); reflexivity.
      * destruct (eqb (wr_conclusion run) (str "success")); cbn [negb]; [|reflexivity].
        erewrite bind_ok by (apply findPRByBranch_run; exact Ha).
        destruct (pullsOfBranch pulls (c :: branch)) as [|pr prs]; cbn [hd_error];
          [reflexivity|].
        destruct (eqb (pr_state pr) (str "closed")); reflexivity.
  - split; [reflexivity|]. destruct (eqb (wr_conclusion run) (str "success")); reflexivity.
Qed.

(** ** When the labels cannot be added *)



(** ** The verdict of the check run *)


(** ** A dry run *)

Lemma repo_refl (s : State) : sameRepository s s.
Proof. unfold sameRepository. auto 10. Qed.

Lemma repo_trans (s1 s2 s3 : State) :
  sameRepository s1 s2 -> sameRepository s2 s3 -> sameRepository s1 s3.
Proof.
  unfold sameRepository. intros (A1 & A2 & A3 & A4 & A5) (B1 & B2 & B3 & B4 & B5).
  split; [congruence|]. split; [congruence|]. split; [congruence|]. split; congruence.
Qed.

Lemma repo_faults (s : State) (fs : list (option Exn)) :
  sameRepository s (setWorld (setFaults fs (world s)) s).
Proof. unfold sameRepository. simpl. auto 10. Qed.

Ltac dry := steps repo_refl repo_trans repo_faults.

Lemma repo_sameData {A} (m : M A) : stateStep sameData m -> stateStep sameRepository m.
Proof.
  intros H s. destruct (H s) as (A1 & A2 & A3 & A4 & A5 & _).
  unfold sameRepository. auto 10.
Qed.

Lemma repo_modifyResult (f : Result -> Result) : stateStep sameRepository (modifyResult f).
Proof. intros s. unfold sameRepository. simpl. auto 10. Qed.

Lemma repo_withOwnResult {A} (m : M A) :
  stateStep sameRepository m -> stateStep sameRepository (withOwnResult m).
Proof.
  intros Hm s. unfold withOwnResult. specialize (Hm (setResult emptyResult s)).
  destruct (m (setResult emptyResult s)) as [[a|e] s1]; exact Hm.
Qed.

Section DryRun.

Hypothesis Hdry : isDryRun cfg = true.

Lemma dry_addLabels (n : N) (new : list jstr) : stateStep sameRepository (addLabels n new).
Proof. unfold addLabels. rewrite Hdry. dry. Qed.

Lemma dry_createCheckRun (name sha url : jstr) :
  stateStep sameRepository (createCheckRun name sha url).
Proof. unfold createCheckRun. rewrite Hdry. dry. Qed.

Lemma dry_updateCheckRun (id : CheckId) (st concl : jstr) (out : CheckOutput) :
  stateStep sameRepository (updateCheckRun id st concl out).
Proof. unfold updateCheckRun. rewrite Hdry. dry. Qed.

Lemma dry_createComment (n : N) (text : jstr) : stateStep sameRepository (createComment n text).
Proof. unfold createComment. rewrite Hdry. dry. Qed.

Lemma dry_cleanupComments (n : N) (identifier : jstr) :
  stateStep sameRepository (cleanupWorkflowComments n identifier).
Proof. apply repo_sameData, dry_cleanup. exact Hdry. Qed.

Lemma dry_getLabels (n : N) : stateStep sameRepository (getLabels n).
Proof. apply repo_sameData, reads_getLabels. Qed.

Lemma dry_add_and_report (n : N) (new : list jstr) (action : jstr) :
  stateStep sameRepository
    (let* result := addLabels n new in
     if (0 <? length (added result))%nat
     then pushLabelsAdded (added result) >> pushAction action
     else ret tt).
Proof.
  apply (step_bind _ repo_trans); [apply dry_addLabels|]. intros r.
  destruct (0 <? length (added r))%nat; [|dry].
  apply (step_bind _ repo_trans); [apply repo_modifyResult|].
  intros _. apply repo_modifyResult.
Qed.

Lemma dry_handleReadyForReviewLabel (n : N) (hasLabel : bool) :
  stateStep sameRepository (handleReadyForReviewLabel n hasLabel).
Proof.
  unfold handleReadyForReviewLabel. destruct hasLabel; cbn [negb]; [dry|].
  apply dry_add_and_report.
Qed.

Lemma dry_handleTriageLabel (n : N) (hasLabel hasReleaseLabel : bool) :
  stateStep sameRepository (handleTriageLabel n hasLabel hasReleaseLabel).
Proof.
  unfold handleTriageLabel. destruct hasLabel; cbn [negb]; [dry|].
  apply (step_bind _ repo_trans); [apply dry_addLabels|]. intros r.
  destruct (0 <? length (added r))%nat; [|dry].
  apply (step_bind _ repo_trans); [apply repo_modifyResult|].
  intros _. apply repo_modifyResult.
Qed.

Lemma dry_handlePullRequestEvent (prData : PullRequest) :
  stateStep sameRepository (handlePullRequestEvent prData).
Proof.
  unfold handlePullRequestEvent. destruct (draft prData); [dry|]. rewrite Hdry. cbn [negb].
  apply (step_bind _ repo_trans); [dry|]. intros _.
  apply (step_tryCatch _ repo_trans).
  - apply (step_bind _ repo_trans); [apply dry_getLabels|]. intros cur.
    apply (step_bind _ repo_trans).
    { unfold hasLabels. apply (step_bind _ repo_trans); [apply dry_getLabels | dry]. }
    intros checks. cbv zeta.
    destruct ((labelCheck checks (str "release *") || _) && true);
      [apply dry_handleReadyForReviewLabel|].
    destruct (negb (labelCheck checks (str "backport *")) && _);
      [apply dry_handleTriageLabel | dry].
  - intros e. apply (step_bind _ repo_trans); [apply repo_modifyResult | dry].
Qed.

Lemma dry_findPRByBranch (pulls : Pulls) (branchName : jstr) :
  stateStep sameRepository (findPRByBranch pulls branchName).
Proof.
  unfold findPRByBranch. apply (step_tryCatch _ repo_trans); [|dry].
  apply (step_bind _ repo_trans); [|dry].
  apply (step_rest _ repo_trans repo_faults). intros s. simpl.
  rewrite setWorld_same. apply repo_refl.
Qed.

Lemma dry_executeTriageAutomation (context : Context) (pulls : Pulls) :
  stateStep sameRepository (executeTriageAutomation context pulls).
Proof.
  unfold executeTriageAutomation.
  destruct (eqb _ (str "issues")).
  { unfold handleIssueEvent. destruct (negb _); [dry|]. cbv zeta.
    apply (step_tryCatch _ repo_trans).
    - apply (step_bind _ repo_trans); [apply dry_addLabels|]. intros r.
      apply (step_bind _ repo_trans); [|intros _; apply repo_modifyResult].
      destruct (0 <? length (added r))%nat; [|dry].
      apply (step_bind _ repo_trans); [apply repo_modifyResult|].
      intros _. apply repo_modifyResult.
    - intros e. apply (step_bind _ repo_trans); [apply repo_modifyResult | dry]. }
  destruct (eqb _ (str "workflow_run")).
  { unfold handleWorkflowRunEvent. cbv zeta.
    destruct (negb (eqb _ (str "success"))); [dry|].
    destruct (negb (truthyString _) || _); [dry|].
    apply (step_bind _ repo_trans); [apply dry_findPRByBranch|].
    intros [pr|]; [|dry].
    destruct (eqb (pr_state pr) (str "closed")); [dry | apply dry_handlePullRequestEvent]. }
  destruct (eqb _ (str "pull_request")); [apply dry_handlePullRequestEvent | dry].
Qed.

Lemma dry_releaseBackport (prData : PullRequest) (yamlContent : jstr) (features : Features) :
  stateStep sameRepository (processReleaseBackportLabeling prData yamlContent features).
Proof.
  unfold processReleaseBackportLabeling. cbv zeta.
  apply (step_bind _ repo_trans); [apply dry_createCheckRun|]. intros checkRun.
  apply (step_tryCatch _ repo_trans).
  - apply (step_bind _ repo_trans); [apply dry_getLabels|]. intros cur.
    destruct (collectLabels features yamlContent cur) as [errs labs].
    destruct (0 <? length errs)%nat.
    + apply (step_bind _ repo_trans); [apply dry_updateCheckRun|].
      intros _. apply dry_createComment.
    + apply (step_bind _ repo_trans); [apply dry_cleanupComments|]. intros _.
      destruct (0 <? length labs)%nat; [|apply dry_updateCheckRun].
      apply (step_bind _ repo_trans); [apply dry_addLabels|]. intros r.
      apply (step_bind _ repo_trans); [apply repo_modifyResult|]. intros _.
      apply (step_bind _ repo_trans); [apply repo_modifyResult|]. intros _.
      apply dry_updateCheckRun.
  - intros e. apply (step_bind _ repo_trans); [apply dry_updateCheckRun | dry].
Qed.

Lemma dry_featureBranch (prData : PullRequest) (yamlContent : jstr) :
  stateStep sameRepository (processFeatureBranchLabeling prData yamlContent).
Proof.
  unfold processFeatureBranchLabeling. cbv zeta.
  apply (step_bind _ repo_trans); [apply dry_createCheckRun|]. intros checkRun.
  apply (step_tryCatch _ repo_trans).
  - apply (step_bind _ repo_trans); [apply dry_getLabels|]. intros cur.
    assert (Hdone : forall out,
              stateStep sameRepository
                (cleanupWorkflowComments (number prData) markerFeatureBranch >>
                 updateCheckRun checkRun (str "completed") (str "success") out)).
    { intros out. apply (step_bind _ repo_trans); [apply dry_cleanupComments|].
      intros _. apply dry_updateCheckRun. }
    destruct (arrayIncludes cur (str "feature-branch")); [apply Hdone|].
    destruct (parseYamlValue yamlContent NeedsFeatureBranch) as [[v|vs]|];
      [| dry | apply Hdone].
    destruct (eqb (toLowerCase v) (str "true")).
    + apply (step_bind _ repo_trans); [apply dry_addLabels|]. intros r.
      apply (step_bind _ repo_trans); [apply repo_modifyResult|]. intros _.
      apply (step_bind _ repo_trans); [apply repo_modifyResult|]. intros _.
      apply Hdone.
    + destruct (eqb (toLowerCase v) (str "false") || eqb (toLowerCase v) []); [apply Hdone|].
      unfold handleFeatureBranchValidationError.
      apply (step_bind _ repo_trans); [apply dry_updateCheckRun|].
      intros _. apply dry_createComment.
  - intros e. apply (step_bind _ repo_trans); [apply dry_updateCheckRun | dry].
Qed.

Lemma dry_labelAutomation (context : Context) (pulls : Pulls) (features : Features) :
  stateStep sameRepository (LabelAutomation_execute context pulls features).
Proof.
  unfold LabelAutomation_execute. apply (step_tryCatch _ repo_trans); [|dry].
  apply (step_bind _ repo_trans).
  { unfold extractPRData. destruct (eqb _ (str "pull_request")); [dry|].
    destruct (eqb _ (str "workflow_run")); [|dry]. cbv zeta.
    destruct (negb (truthyString _) || _); [dry|].
    apply (step_bind _ repo_trans); [apply dry_findPRByBranch|].
    intros [pr|]; [|dry]. destruct (eqb (pr_state pr) (str "closed")); dry. }
  intros [prData|]; [|dry]. destruct (draft prData); [dry|]. cbv zeta.
  destruct (negb (truthyString _)).
  - apply (step_bind _ repo_trans).
    + destruct (featureBranch features); [apply dry_cleanupComments | dry].
    + intros _. destruct (releaseLabeling features || backportLabeling features);
        [apply dry_cleanupComments | dry].
  - apply (step_bind _ repo_trans).
    + destruct (releaseLabeling features || backportLabeling features);
        [apply dry_releaseBackport | dry].
    + intros _. destruct (featureBranch features); [apply dry_featureBranch | dry].
Qed.

Lemma dry_staleDetection (pulls : Pulls) :
  stateStep sameRepository (StaleDetection_execute pulls).
Proof.
  unfold StaleDetection_execute. apply (step_tryCatch _ repo_trans); [|dry].
  apply (step_bind _ repo_trans); [intros s; apply repo_refl|]. intros now.
  apply (step_bind _ repo_trans).
  { unfold listOpenPRs. apply (step_tryCatch _ repo_trans); [|dry].
    apply (step_rest _ repo_trans repo_faults). intros s. simpl.
    rewrite setWorld_same. apply repo_refl. }
  intros prs. cbv zeta. apply (step_bind _ repo_trans); [|dry].
  apply (step_forEachM _ repo_refl repo_trans). intros pr.
  apply (step_tryCatch _ repo_trans); [|dry].
  unfold processPR. cbv zeta. destruct (draft pr); [dry|].
  destruct (existsb _ (pr_labels pr)); [dry|].
  apply (step_bind _ repo_trans); [apply repo_sameData, reads_getLastActivityDate|].
  intros date. destruct (staleThresholdMs <? now - date)%Z; [|dry].
  unfold markPRAsStale. apply (step_tryCatch _ repo_trans); [|dry].
  apply (step_bind _ repo_trans); [apply dry_addLabels|]. intros r.
  destruct (0 <? length (added r))%nat; [|dry].
  apply (step_bind _ repo_trans); [apply repo_modifyResult|]. intros _.
  apply (step_bind _ repo_trans); [apply repo_modifyResult|]. intros _.
  apply repo_modifyResult.
Qed.

Lemma dry_merge {A} (m : M A) :
  stateStep sameRepository m ->
  stateStep sameRepository
    (let* sub := withOwnResult m in
     pushLabelsAdded (labelsAdded sub) >> pushActions (actions sub)).
Proof.
  intros Hm. apply (step_bind _ repo_trans); [apply repo_withOwnResult; exact Hm|].
  intros r. apply (step_bind _ repo_trans); [apply repo_modifyResult|].
  intros _. apply repo_modifyResult.
Qed.

Lemma dry_repositoryAutomation (context : Context) (pulls : Pulls) :
  stateStep sameRepository (RepositoryAutomation_execute context pulls).
Proof.
  unfold RepositoryAutomation_execute. cbv zeta.
  apply (step_tryCatch _ repo_trans).
  - apply (step_bind _ repo_trans); [intros s; apply repo_refl|]. intros _.
    apply (step_bind _ repo_trans); [apply dry_executeTriageAutomation|]. intros _.
    apply (step_bind _ repo_trans).
    + destruct (releaseLabeling _ || backportLabeling _ || featureBranch _); [|dry].
      unfold executeLabelAutomation. apply (step_tryCatch _ repo_trans); [|dry].
      destruct (eqb _ (str "pull_request") || _); [|dry].
      apply dry_merge, dry_labelAutomation.
    + intros _. destruct (staleDetection _); [|dry].
      unfold executeStaleDetection. apply (step_tryCatch _ repo_trans); [|dry].
      destruct (eqb _ (str "schedule") || _); [|dry].
      apply dry_merge, dry_staleDetection.
  - intros e. apply (step_bind _ repo_trans); [apply repo_modifyResult | dry].
Qed.

Lemma dry_execute (context : Context) (pulls : Pulls) :
  stateStep sameRepository (execute context pulls).
Proof.
  unfold execute.
  apply (step_bind _ repo_trans); [apply repo_modifyResult|]. intros _.
  apply (step_bind _ repo_trans); [apply dry_repositoryAutomation|]. intros _.
  apply repo_modifyResult.
Qed.

End DryRun.

(** X27. A dry run writes nothing.  With [dryRun] set, from every state, for
    every event and whatever the REST service answers, the exported
    [execute] leaves the repository as it was: the labels of every issue and
    pull request, the comments, the check runs; it does not even wait. *)
Theorem dry_run_writes_nothing (context : Context) (pulls : Pulls) (s : State) :
  isDryRun cfg = true ->
  sameRepository s (snd (execute context pulls s)).
Proof. intros Hd. apply dry_execute. exact Hd. Qed.

End Automation.

(** * The model on concrete inputs *)

Import Sample.

(** The whitespace after the colon may cross a line end: an empty release
    field takes the next line as its value. *)
Example value_capture_crosses_lines :
  parseYamlValue numberAsWritten (str "release:" ++ lf ++ str "backport: 1.4") Release =
  Some (Scalar (str "backport: 1.4")).
Proof. vm_compute. reflexivity. Qed.

(** Windows line ends, a comment, and an array with both kinds of quotes. *)
Example fields_of_a_description :
  let text := fenceYaml ++ str " " ++ [13%N; 10%N] ++
              str "release: 1.5   # next line" ++ [13%N; 10%N] ++
              str "backport: ['1.4', 2]" ++ [13%N; 10%N] ++ fence in
  exists y,
    parseYamlFromText text = Some y /\
    parseYamlValue numberAsWritten y Release = Some (Scalar (str "1.5")) /\
    parseYamlValue numberAsWritten y Backport = Some (ArrayOf [str "1.4"; str "2"]) /\
    parseYamlValue numberAsWritten y NeedsFeatureBranch = None.
Proof. eexists. split; [vm_compute; reflexivity|]. repeat split; vm_compute; reflexivity. Qed.

(** An array that parses is no string: [toLowerCase] is not a function of it,
    the run throws, and the check run is completed with failure. *)
Example feature_branch_array_throws :
  exists s',
    processFeatureBranchLabeling numberAsWritten cfg pr
      (str "needs_feature_branch: ['maybe']") start = (Throw notAFunction, s') /\
    comments (world s') = [] /\
    List.map check_output (checks (world s')) = [Some (executionFailedOutput notAFunction)].
Proof. eexists. split; [vm_compute; reflexivity|]. split; vm_compute; reflexivity. Qed.

(** The two characters outside ASCII in the messages, by code point: the
    police car light U+1F6A8 and the cross mark U+274C. *)
Example police_light_code_units : policeLight = codeUnits 128680.
Proof. reflexivity. Qed.

Example cross_mark_code_unit : crossMark = codeUnits 10060.
Proof. reflexivity. Qed.

(** The whole comment of a failed validation: release 1.5 is written where
    only 1.6 is accepted. *)
Example error_comment_text :
  List.map comment_body
    (comments (world (snd (processReleaseBackportLabeling numberAsWritten cfgOnly16 pr yaml
                             features start)))) =
  [str "## " ++ codeUnits 128680 ++ str " YAML Validation Error: release and backport" ++
   lf ++ lf ++
   str "- " ++ codeUnits 10060 ++ str " Invalid release value: " ++ [34%N] ++ str "1.5" ++
   [34%N] ++ str ". Accepted values: 1.6" ++ lf ++ lf ++
   str "### How to fix:" ++ lf ++
   str "1. Update your PR description YAML block with valid values" ++ lf ++
   str "2. The workflow will automatically re-run when you edit the description" ++ lf ++ lf ++
   str "### Valid YAML format:" ++ lf ++
   str "```yaml" ++ lf ++
   str "release: 1.5    # Valid releases: 1.6" ++ lf ++
   str "backport: 1.4   # Valid backports: 1.4" ++ lf ++
   str "```" ++ lf ++ lf ++
   str "_This comment was posted by the repository automation workflow._"].
Proof. vm_compute. reflexivity. Qed.

(** The scenario of the specification: with releases 1.5, 1.6 and backport
    1.4 accepted, both labels are added and no comment is posted. *)
Example scenario_both_labels :
  exists s',
    processReleaseBackportLabeling numberAsWritten cfg pr yaml features start = (Ok tt, s') /\
    issues (world s') !! 7%N =
      Some (setLabels [str "bug"; str "release-1.5"; str "backport-1.4"] issue) /\
    labelsAdded (result s') = [str "release-1.5"; str "backport-1.4"] /\
    comments (world s') = [] /\
    List.map check_conclusion (checks (world s')) = [Some (str "success")].
Proof. eexists. split; [vm_compute; reflexivity|]. repeat split; vm_compute; reflexivity. Qed.

(** The scenario with release 1.6 as the only accepted release: one error
    message, no label, also not the valid backport label. *)
Example scenario_release_rejected :
  collectLabels numberAsWritten cfgOnly16 features yaml [str "bug"] =
  ([crossMark ++ str " Invalid release value: " ++ dquote ++ str "1.5" ++ dquote ++
    str ". Accepted values: 1.6"],
   [str "backport-1.4"]).
Proof. vm_compute. reflexivity. Qed.

(** ** Instances of the theorems *)

Lemma validation_errors_fail_closed_witness :
  let run := processReleaseBackportLabeling numberAsWritten cfgOnly16 pr yaml features in
  issues (world (snd (run start))) = issues github /\
  exists s',
    run start = (Ok tt, s') /\
    List.map check_conclusion (checks (world s')) = [Some (str "failure")] /\
    length (comments (world s')) = 1.
Proof.
  intros run.
  destruct (validation_errors_fail_closed numberAsWritten cfgOnly16 pr yaml features start issue)
    as ((Hiss & _) & Hanswered).
  - reflexivity.
  - vm_compute. discriminate.
  - split; [exact Hiss|].
    destruct (Hanswered eq_refl) as (s' & Hrun & _ & Hwet).
    exists s'. split; [exact Hrun|].
    destruct (Hwet eq_refl) as ((before & Hchecks) & Hcomments & _).
    split; [|rewrite Hcomments; reflexivity].
    unfold run in Hrun. vm_compute in Hrun. injection Hrun as <-. reflexivity.
Defined.

Lemma array_field_all_or_nothing_witness :
  processReleaseLabel numberAsWritten cfg (str "release: ['1.5', 'bogus', '1.6', 'nope']") false =
  {| labels := [];
     error := Some (crossMark ++ str " Invalid release values: " ++
                    dquote ++ str "bogus" ++ dquote ++ str ", " ++
                    dquote ++ str "nope" ++ dquote ++
                    str ". Accepted values: 1.5, 1.6") |} /\
  processBackportLabel numberAsWritten cfg (str "backport: ['1.4', '1.4']") false =
  {| labels := [str "backport-1.4"; str "backport-1.4"]; error := None |}.
Proof.
  split.
  - apply (proj1 (array_field_all_or_nothing numberAsWritten cfg
                    (str "release: ['1.5', 'bogus', '1.6', 'nope']")
                    [str "1.5"; str "bogus"; str "1.6"; str "nope"])).
    vm_compute. reflexivity.
  - apply (proj2 (array_field_all_or_nothing numberAsWritten cfg
                    (str "backport: ['1.4', '1.4']") [str "1.4"; str "1.4"])).
    vm_compute. reflexivity.
Defined.

Lemma manual_label_is_kept_witness :
  processReleaseLabel numberAsWritten cfg yaml
    (existsb (fun label => startsWith label (str "release-")) [str "bug"; str "release-2.0"]) =
  noLabel.
Proof.
  apply (proj1 (manual_label_is_kept numberAsWritten cfg yaml
                  [str "bug"; str "release-2.0"] features)).
  exists (str "release-2.0"). split; [|reflexivity].
  apply list_elem_of_further, list_elem_of_here.
Defined.

Lemma second_run_same_labels_one_more_comment_witness :
  let run := processReleaseBackportLabeling numberAsWritten cfgOnly16 pr yaml features in
  exists s1' s2',
    run start = (Ok tt, s1') /\ run (snd (run start)) = (Ok tt, s2') /\
    length (comments (world s2')) = S (length (comments (world (snd (run start))))).
Proof.
  intros run.
  destruct (second_run_same_labels_one_more_comment numberAsWritten cfgOnly16 pr yaml features
              start (snd (run start)) issue issue)
    as (s1' & s2' & Hrun1 & Hrun2 & _ & Herr).
  - reflexivity.
  - vm_compute. reflexivity.
  - reflexivity.
  - vm_compute. reflexivity.
  - reflexivity.
  - exists s1', s2'. split; [exact Hrun1|]. split; [exact Hrun2|].
    destruct Herr as (_ & _ & _ & _ & Hcomments); [vm_compute; discriminate|].
    rewrite (proj1 (Hcomments eq_refl)), length_app. simpl. lia.
Defined.

Lemma smart_labeling_decision_witness :
  exists s',
    handlePullRequestEvent numberAsWritten cfg pr start = (Ok tt, s') /\
    labelsAdded (result s') = [str "ready for review"].
Proof.
  destruct (smart_labeling_decision numberAsWritten cfg pr start issue)
    as (s' & toAdd & Hrun & Hrelease & _ & _ & Hadded & _).
  - reflexivity.
  - reflexivity.
  - reflexivity.
  - exists s'. split; [exact Hrun|]. rewrite Hadded, Hrelease; [reflexivity|].
    right. exists yaml, (Scalar (str "1.5")). split; vm_compute; reflexivity.
Defined.

Lemma feature_branch_scalar_values_witness :
  exists s',
    processFeatureBranchLabeling numberAsWritten cfg pr (str "needs_feature_branch: maybe") start
      = (Ok tt, s') /\
    issues (world s') = issues github /\
    List.map comment_body (comments (world s')) =
    [featureBranchErrorComment (featureBranchErrorMsg (str "maybe"))].
Proof.
  destruct (proj2 (feature_branch_scalar_values numberAsWritten cfg pr
                     (str "needs_feature_branch: maybe") start issue (str "maybe")))
    as (s' & Hrun & _ & _ & Hother).
  - reflexivity.
  - reflexivity.
  - apply (bool_decide_eq_false_1 (str "feature-branch" ∈ issue_labels issue)).
    vm_compute. reflexivity.
  - vm_compute. reflexivity.
  - exists s'. split; [exact Hrun|].
    destruct Hother as (_ & Hiss & _ & _ & _ & _ & Hpost);
      [vm_compute; discriminate | vm_compute; discriminate |].
    split; [exact Hiss|].
    destruct (Hpost eq_refl) as [_ Hcomments]. rewrite Hcomments. reflexivity.
Defined.


Lemma malformed_array_is_null_witness :
  parseYamlValue numberAsWritten (str "release: [bogus]") Release = None.
Proof.
  apply (proj1 (malformed_array_is_null numberAsWritten (str "release: [bogus]") Release)
           (str "[bogus]")); vm_compute; reflexivity.
Defined.

Lemma scalar_quotes_stripped_witness :
  exists lead core trail,
    dquote ++ str "1.5" ++ dquote = lead ++ core ++ trail /\
    parseYamlValue numberAsWritten (str "release: " ++ dquote ++ str "1.5" ++ dquote) Release =
    match core with [] => None | _ :: _ => Some (Scalar core) end.
Proof.
  destruct (scalar_quotes_stripped numberAsWritten
              (str "release: " ++ dquote ++ str "1.5" ++ dquote) Release
              (dquote ++ str "1.5" ++ dquote))
    as (lead & core & trail & Hsplit & _ & _ & _ & _ & Hparse).
  - vm_compute. reflexivity.
  - vm_compute. discriminate.
  - vm_compute. reflexivity.
  - exists lead, core, trail. split; [exact Hsplit | exact Hparse].
Defined.

Lemma proposed_release_labels_not_seen_witness :
  let labeled :=
    {| world := setIssues {[ 7%N := setLabels [str "bug"; str "release-1.5"] issue ]} github;
       result := emptyResult |} in
  exists checks,
    hasLabels 7 smartPatterns labeled = (Ok checks, labeled) /\
    labelCheck checks (str "release *") = false.
Proof.
  intros labeled.
  destruct (proj2 (proposed_release_labels_not_seen numberAsWritten cfg 7 labeled
                     (setLabels [str "bug"; str "release-1.5"] issue)))
    as (checks & Hrun & _ & Hfalse).
  - reflexivity.
  - reflexivity.
  - exists checks. split; [exact Hrun|]. apply Hfalse.
    intros l Hin Hrel.
    apply elem_of_cons in Hin as [->|Hin]; [vm_compute in Hrel; discriminate|].
    apply list_elem_of_singleton in Hin as ->.
    exists yaml, false. vm_compute. apply list_elem_of_here.
Defined.

(** ** Where the code departs from the specification *)

(** C4, counterexample. With release 1.5 outside the allowlist the rule is run
    twice, the second time on the state the first run left; the labels are
    the same for both runs, and afterwards the pull request carries two
    validation-error comments: the second run added one and removed none. *)
Lemma second_run_duplicates_error_comment :
  let run := processReleaseBackportLabeling numberAsWritten cfgOnly16 pr yaml features in
  let errorComments (s : State) :=
    List.filter
      (fun c => includes (comment_body c)
                  ([55357%N; 57000%N] ++ str " YAML Validation Error: release and backport"))
      (comments (world s)) in
  exists s1 s2,
    run start = (Ok tt, s1) /\ run s1 = (Ok tt, s2) /\
    issues (world s1) = issues github /\
    length (errorComments s1) = 1 /\
    length (errorComments s2) = 2 /\
    List.map comment_body (comments (world s2)) =
    [errorComment cfgOnly16 [crossMark ++ str " Invalid release value: " ++ dquote ++
                             str "1.5" ++ dquote ++ str ". Accepted values: 1.6"];
     errorComment cfgOnly16 [crossMark ++ str " Invalid release value: " ++ dquote ++
                             str "1.5" ++ dquote ++ str ". Accepted values: 1.6"]].
Proof.
  intros run errorComments.
  eexists _, _. split; [vm_compute; reflexivity|].
  split; [vm_compute; reflexivity|].
  repeat split; vm_compute; reflexivity.
Qed.

(** C6, counterexample. The value [[maybe]] is not empty and is none of the
    accepted spellings, yet the run posts no comment and completes the check
    run with success: the parser gives [null] for it and the rule treats the
    field as absent. *)
Lemma array_syntax_value_raises_no_error :
  let yamlContent := str "needs_feature_branch: [maybe]" in
  rawValueOf yamlContent NeedsFeatureBranch = Some (str "[maybe]") /\
  exists s',
    processFeatureBranchLabeling numberAsWritten cfg pr yamlContent start = (Ok tt, s') /\
    comments (world s') = [] /\
    List.map check_conclusion (checks (world s')) = [Some (str "success")] /\
    List.map check_output (checks (world s')) = [Some featureBranchNoFieldOutput].
Proof.
  intros yamlContent. split; [vm_compute; reflexivity|].
  eexists. split; [vm_compute; reflexivity|].
  repeat split; vm_compute; reflexivity.
Qed.

(** C8, counterexample. The value [[bogus]] has array syntax and does not
    parse; the parser returns for it what it returns for a text without the
    field, and this holds for all inputs: no two inputs of these kinds have
    different results. *)
Lemma malformed_is_not_distinct :
  rawValueOf (str "release: [bogus]") Release = Some (str "[bogus]") /\
  parseYamlArrayValue numberAsWritten (str "[bogus]") = None /\
  rawValueOf (str "backport: 1.4") Release = None /\
  parseYamlValue numberAsWritten (str "release: [bogus]") Release =
  parseYamlValue numberAsWritten (str "backport: 1.4") Release /\
  ~ (exists (toStr : jstr -> jstr) (malformed missing : jstr) (field : Field) (raw : jstr),
       rawValueOf malformed field = Some raw /\
       startsWith raw (str "[") && endsWith raw (str "]") = true /\
       parseYamlArrayValue toStr raw = None /\
       rawValueOf missing field = None /\
       parseYamlValue toStr malformed field <> parseYamlValue toStr missing field).
Proof.
  split; [vm_compute; reflexivity|]. split; [vm_compute; reflexivity|].
  split; [vm_compute; reflexivity|]. split; [vm_compute; reflexivity|].
  intros (toStr & malformed & missing & field & raw & Hraw & Hsyntax & Hfail & Hmiss & Hdiff).
  apply Hdiff. unfold parseYamlValue.
  rewrite Hraw, Hmiss, Hsyntax, Hfail.
  destruct malformed, missing, raw; reflexivity.
Qed.

(** C9, counterexample. A double quote at the start and a single quote at the
    end do not match, and both are removed; a quote at the start alone is
    removed as well. *)
Lemma unmatched_quotes_are_stripped :
  rawValueOf (str "release: " ++ dquote ++ str "1.5'") Release = Some (dquote ++ str "1.5'") /\
  parseYamlValue numberAsWritten (str "release: " ++ dquote ++ str "1.5'") Release
    = Some (Scalar (str "1.5")) /\
  parseYamlValue numberAsWritten (str "release: " ++ dquote ++ str "1.5'") Release
    <> Some (Scalar (dquote ++ str "1.5'")) /\
  parseYamlValue numberAsWritten (str "release: " ++ dquote ++ str "1.5") Release
    = Some (Scalar (str "1.5")).
Proof.
  split; [vm_compute; reflexivity|]. split; [vm_compute; reflexivity|].
  split; [vm_compute; discriminate | vm_compute; reflexivity].
Qed.

(** ** Instances of the further properties *)

Lemma yaml_block_is_fenced_witness :
  exists pre ws ws' rest,
    description = pre ++ fenceYaml ++ ws ++ [10%N] ++ yaml ++ [10%N] ++ ws' ++ fence ++ rest /\
    forallb isWhiteSpace ws = true /\
    forallb isWhiteSpace ws' = true /\
    forall y1 y2, yaml = y1 ++ y2 -> y2 <> [] ->
                  closesHere (y2 ++ [10%N] ++ ws' ++ fence ++ rest) = false.
Proof. apply (yaml_block_is_fenced description yaml). vm_compute. reflexivity. Defined.

Lemma yaml_block_round_trip_witness :
  parseYamlFromText
    (str "Adds a widget." ++ fenceYaml ++ lf ++ (114%N :: str "elease: 1.5") ++ lf ++ fence ++
     str " Thanks.")
  = Some (114%N :: str "elease: 1.5").
Proof.
  apply (yaml_block_round_trip (str "Adds a widget.") (str " Thanks.") 114%N (str "elease: 1.5"));
    vm_compute; reflexivity.
Defined.

Lemma scalar_is_one_line_without_comment_witness :
  str "a" <> [] /\
  forallb (fun c => notLineTerminator c && negb (c =? 35)%N) (str "a") = true.
Proof.
  apply (scalar_is_one_line_without_comment numberAsWritten (str "release: 'a#b'") Release).
  vm_compute. reflexivity.
Defined.

Lemma array_elements_are_trimmed_witness :
  Forall (fun v => v <> [] /\ trim v = v) [str "1.5"; str "2"].
Proof.
  apply (array_elements_are_trimmed numberAsWritten (str "release: [' 1.5 ', '', 2]") Release).
  vm_compute. reflexivity.
Defined.

Lemma plain_scalar_round_trip_witness :
  parseYamlValue numberAsWritten
    (fieldName Backport ++ str ":" ++ str "  " ++ str "1.4" ++ (lf ++ str "release: 1.5"))
    Backport
  = Some (Scalar (str "1.4")).
Proof.
  apply (plain_scalar_round_trip numberAsWritten Backport (str "  ") (str "1.4")
           (lf ++ str "release: 1.5")).
  - vm_compute. discriminate.
  - vm_compute. reflexivity.
  - vm_compute. reflexivity.
  - vm_compute. reflexivity.
Defined.

Lemma rerun_after_success_adds_nothing_witness :
  let run := processReleaseBackportLabeling numberAsWritten cfg pr yaml features in
  exists s1 s2 i1 i2,
    run start = (Ok tt, s1) /\
    run s1 = (Ok tt, s2) /\
    issues (world s1) !! 7%N = Some i1 /\
    issues (world s2) !! 7%N = Some i2 /\
    issue_labels i1 = [str "bug"; str "release-1.5"; str "backport-1.4"] /\
    issue_labels i2 = issue_labels i1 /\
    labelsAdded (result s2) = labelsAdded (result s1).
Proof.
  intros run.
  destruct (rerun_after_success_adds_nothing numberAsWritten cfg pr yaml features start issue)
    as (s1 & s2 & i1 & i2 & H1 & H2 & H3 & H4 & H5 & H6 & H7);
    [reflexivity | reflexivity | reflexivity | vm_compute; reflexivity |].
  exists s1, s2, i1, i2.
  split; [exact H1|]. split; [exact H2|]. split; [exact H3|]. split; [exact H4|].
  split; [rewrite H5; vm_compute; reflexivity|]. split; [exact H6 | exact H7].
Defined.

Lemma addLabels_failure_is_explained_witness :
  fst (addLabels cfg 7 [str "stale"] refused) =
  Throw (mkError
    (crossMark ++ str " Permission denied: Unable to add labels [stale] to #7" ++
     str ". Repository administrators should add a CUSTOM_GITHUB_TOKEN secret with appropriate permissions.")).
Proof.
  destruct (addLabels_failure_is_explained cfg 7 [str "stale"]
              (httpError 403 (str "Forbidden")) refused issue)
    as (H403 & _); [reflexivity | reflexivity | reflexivity |].
  rewrite (H403 eq_refl). reflexivity.
Defined.

Lemma cleanup_deletes_exactly_witness :
  exists s',
    cleanupWorkflowComments cfg 7 markerReleaseBackport afterFailure = (Ok tt, s') /\
    comments (world s') = [reviewComment].
Proof.
  eexists. split.
  - apply (cleanup_deletes_exactly cfg 7 markerReleaseBackport afterFailure issue);
      [reflexivity | reflexivity | reflexivity |].
    change (List.NoDup [50%N; 51%N]).
    constructor; [intros [H|[]]; discriminate H|].
    constructor; [intros []|]. constructor.
  - vm_compute. reflexivity.
Defined.

Lemma passing_run_clears_error_comments_witness :
  exists s',
    processReleaseBackportLabeling numberAsWritten cfg pr yaml features afterFailure
    = (Ok tt, s') /\
    comments (world s') = [reviewComment].
Proof.
  destruct (passing_run_clears_error_comments numberAsWritten cfg pr yaml features
              afterFailure issue) as ((s' & Hrun & Hcomments) & _);
    [reflexivity | reflexivity | reflexivity | | vm_compute; reflexivity |].
  - change (List.NoDup [50%N; 51%N]).
    constructor; [intros [H|[]]; discriminate H|].
    constructor; [intros []|]. constructor.
  - exists s'. split; [exact Hrun|]. rewrite Hcomments. vm_compute. reflexivity.
Defined.

Lemma validated_configuration_witness :
  (1 <= staleDaysOf cfg)%Z /\ (86400000 <= staleThresholdMs cfg)%Z.
Proof.
  destruct (validated_configuration cfg pullRequestEvent true) as (_ & _ & _ & _ & H);
    [reflexivity | exact H].
Defined.

Lemma invalid_configuration_stops_the_run_witness :
  execute numberAsWritten cfgNegativeDays pullRequestEvent pulls start =
  (Throw (mkError (str "Stale detection days must be 1 or greater")),
   setResult {| labelsAdded := []; actions := [];
                summary := str "Failed: Stale detection days must be 1 or greater";
                stalePRsFound := 0 |} start).
Proof.
  apply (invalid_configuration_stops_the_run numberAsWritten cfgNegativeDays pullRequestEvent
           pulls start (mkError (str "Stale detection days must be 1 or greater"))).
  reflexivity.
Defined.

Lemma draft_pull_request_is_left_alone_witness :
  execute numberAsWritten cfgNoStale draftEvent pulls start =
  (Ok tt,
   setResult {| labelsAdded := []; actions := [];
                summary := str "No actions needed"; stalePRsFound := 0 |} start).
Proof.
  apply (draft_pull_request_is_left_alone numberAsWritten cfgNoStale draftEvent pulls start);
    reflexivity.
Defined.

Lemma no_yaml_block_no_labels_witness :
  exists s',
    LabelAutomation_execute numberAsWritten cfg plainEvent pulls features afterFailure
    = (Ok tt, s') /\
    deletesOnly afterFailure s'.
Proof.
  apply (no_yaml_block_no_labels numberAsWritten cfg plainEvent pulls features afterFailure);
    reflexivity.
Defined.

Lemma issue_event_is_reported_witness :
  summary (result (snd (handleIssueEvent cfg issueOpened refused))) =
  str "Failed to process issue #7: " ++ crossMark ++
  str " Permission denied: Unable to add labels [triage] to #7" ++
  str ". Repository administrators should add a CUSTOM_GITHUB_TOKEN secret with appropriate permissions.".
Proof.
  pose proof (proj1 (issue_event_is_reported cfg issueOpened refused eq_refl)) as H.
  vm_compute in H. vm_compute. exact H.
Defined.

Lemma triage_protection_decision_witness :
  exists s',
    handleTriageProtection cfg 7 (str "PR") {| world := setIssues {[ 7%N := issueWithRelease ]} github;
                                               result := emptyResult |} = (Ok tt, s') /\
    labelsAdded (result s') = [str "triage"].
Proof.
  destruct (triage_protection_decision cfg 7 (str "PR")
              {| world := setIssues {[ 7%N := issueWithRelease ]} github; result := emptyResult |}
              issueWithRelease) as (_ & s' & Hrun & _ & Hadd);
    [reflexivity | reflexivity |].
  exists s'. split; [exact Hrun|].
  destruct (Hadd eq_refl) as (Hlabels & _). exact Hlabels.
Defined.


Lemma stale_run_marks_exactly_the_stale_witness :
  exists s',
    StaleDetection_execute cfgNoStale pulls start = (Ok 2%N, s') /\
    labelsAdded (result s') = [str "stale"] /\
    stalePRsFound (result s') = 1%N.
Proof.
  destruct (stale_run_marks_exactly_the_stale cfgNoStale pulls start)
    as (s' & Hrun & (Hlabels & Hfound & _) & _).
  - reflexivity.
  - intros pr' [<-|[<-|[]]]; vm_compute; discriminate.
  - exists s'. split; [exact Hrun|].
    split; [rewrite Hlabels | rewrite Hfound]; vm_compute; reflexivity.
Defined.

Lemma parser_extends_the_earlier_one_witness :
  Legacy.parseYamlValue (str "release: '1.5' # next") Release = Some (str "1.5").
Proof.
  apply (proj2 (parser_extends_the_earlier_one numberAsWritten
                  (str "release: '1.5' # next") Release) (str "1.5")).
  vm_compute. reflexivity.
Defined.

Lemma scalar_rule_differs_by_separator_witness :
  Legacy.label (Legacy.processReleaseLabel cfg yaml false) = Some (str "release 1.5") /\
  labels (processReleaseLabel numberAsWritten cfg yaml false) = [str "release-1.5"].
Proof.
  destruct (proj1 (scalar_rule_differs_by_separator numberAsWritten cfg yaml false (str "1.5")))
    as [_ [[Hbefore _]|[Hbefore Hafter]]].
  - vm_compute. reflexivity.
  - vm_compute in Hbefore. discriminate Hbefore.
  - split; [exact Hbefore | exact Hafter].
Defined.

Lemma workflow_run_picks_one_pull_request_witness :
  extractPRData workflowRunEvent pulls start = (Ok (Some pr), start).
Proof.
  destruct (workflow_run_picks_one_pull_request numberAsWritten cfg workflowRunEvent pulls start)
    as [Hchosen _]; [reflexivity | reflexivity |].
  rewrite Hchosen. vm_compute. reflexivity.
Defined.




Lemma dry_run_writes_nothing_witness :
  sameRepository start (snd (execute numberAsWritten cfgDry pullRequestEvent pulls start)).
Proof.
  apply (dry_run_writes_nothing numberAsWritten cfgDry pullRequestEvent pulls start).
  reflexivity.
Defined.
